(** * Nordigen CLI: token lifecycle and request pipeline

    A shallow embedding of the two command-line clients of the repository
    and the properties of their authentication core.

    - the [nordigen] client: [src/lib/config.js], [src/lib/auth.js],
      [src/lib/api.js] and [src/commands/config.js];
    - the [nordigencom] client: [src/config.js] and [src/api.js].

    Both persist their state through the [conf] package (a JSON document
    addressed by dotted paths) and talk to the remote API over HTTP.  The
    persisted document, the clock and the list of HTTP requests issued so far
    form the state that the embedded functions thread explicitly. *)

From Stdlib Require Import String Ascii List ZArith Lia Bool DecimalString.
Import ListNotations.
Open Scope string_scope.
Open Scope Z_scope.

Set Warnings "-register-all".

(** ** JSON documents and the JavaScript operations applied to them *)

Module Js.

(** A JSON value.  Numbers are integers: every number the clients store or
    compare is an epoch time or a count of seconds.  An object keeps its
    members in insertion order, as a JavaScript object does. *)
Inductive value : Type :=
| VNull
| VBool (b : bool)
| VNum (n : Z)
| VStr (s : string)
| VArr (items : list value)
| VObj (members : list (string * value)).

(** [undefined] is the absence of a value. *)
Definition jsval : Type := option value.

(** ToBoolean. *)
Definition truthy (v : jsval) : bool :=
  match v with
  | None => false
  | Some VNull => false
  | Some (VBool b) => b
  | Some (VNum n) => negb (n =? 0)
  | Some (VStr s) => negb (s =? "")%string
  | Some (VArr _) => true
  | Some (VObj _) => true
  end.

(** [a || b] *)
Definition js_or (a b : jsval) : jsval := if truthy a then a else b.

(** Members of an object, addressed by key. *)
Fixpoint lookup (k : string) (ms : list (string * value)) : jsval :=
  match ms with
  | [] => None
  | (k', v) :: rest => if (k =? k')%string then Some v else lookup k rest
  end.

(** [obj[k] = v]: an existing member is overwritten in place, a new one is
    added after the others. *)
Fixpoint assign (k : string) (v : value) (ms : list (string * value))
  : list (string * value) :=
  match ms with
  | [] => [(k, v)]
  | (k', v') :: rest =>
      if (k =? k')%string then (k, v) :: rest else (k', v') :: assign k v rest
  end.

(** [delete obj[k]] *)
Fixpoint remove (k : string) (ms : list (string * value))
  : list (string * value) :=
  match ms with
  | [] => []
  | (k', v') :: rest =>
      if (k =? k')%string then remove k rest else (k', v') :: remove k rest
  end.

(** Decimal rendering of an integer, as [String(n)] gives it. *)
Definition dec (n : Z) : string := NilZero.string_of_int (Z.to_int n).

(** [a.join(sep)] on strings. *)
Fixpoint join (sep : string) (xs : list string) : string :=
  match xs with
  | [] => ""
  | [x] => x
  | x :: rest => x ++ sep ++ join sep rest
  end.

(** ToString on a JSON value: what a template literal or [new Error(v)]
    makes of it.  Inside an array [null] renders as the empty string. *)
Fixpoint toString (v : value) : string :=
  match v with
  | VNull => "null"
  | VBool true => "true"
  | VBool false => "false"
  | VNum n => dec n
  | VStr s => s
  | VArr items =>
      join "," (map (fun x => match x with VNull => "" | _ => toString x end)
                    items)
  | VObj _ => "[object Object]"
  end.

(** ToString on a possibly undefined value. *)
Definition show (v : jsval) : string :=
  match v with
  | None => "undefined"
  | Some x => toString x
  end.

(** [s.includes(t)] *)
Fixpoint includes (s t : string) : bool :=
  prefix t s ||
  match s with
  | EmptyString => false
  | String _ rest => includes rest t
  end.

(** *** [JSON.stringify] *)

Definition hexdigit (n : N) : ascii :=
  match n with
  | 0 => "0" | 1 => "1" | 2 => "2" | 3 => "3" | 4 => "4" | 5 => "5"
  | 6 => "6" | 7 => "7" | 8 => "8" | 9 => "9" | 10 => "a" | 11 => "b"
  | 12 => "c" | 13 => "d" | 14 => "e" | _ => "f"
  end%N%char.

(** One character inside a JSON string literal.  Bytes from 0x80 up belong
    to UTF-8 sequences and pass unchanged. *)
Definition escape_char (c : ascii) : string :=
  let n := N_of_ascii c in
  if (n =? 34)%N then String (ascii_of_N 92) (String (ascii_of_N 34) "")
  else if (n =? 92)%N then "\\"
  else if (n =? 8)%N then "\b"
  else if (n =? 9)%N then "\t"
  else if (n =? 10)%N then "\n"
  else if (n =? 12)%N then "\f"
  else if (n =? 13)%N then "\r"
  else if (n <? 32)%N then
    "\u00" ++ String (hexdigit (n / 16)) (String (hexdigit (n mod 16)) "")
  else String c "".

Fixpoint escape (s : string) : string :=
  match s with
  | EmptyString => ""
  | String c rest => escape_char c ++ escape rest
  end.

Definition quote (s : string) : string :=
  String (ascii_of_N 34) (escape s ++ String (ascii_of_N 34) "").

Definition newline : string := String (ascii_of_N 10) "".

(** [JSON.stringify(v, null, 2)] when [pretty], [JSON.stringify(v)]
    otherwise; [indent] is the indentation of the enclosing line. *)
Fixpoint stringify_at (pretty : bool) (indent : string) (v : value) : string :=
  let inner := (indent ++ "  ")%string in
  let sep := if pretty then ("," ++ newline ++ inner)%string else "," in
  let opening := if pretty then (newline ++ inner)%string else "" in
  let closing := if pretty then (newline ++ indent)%string else "" in
  let colon := if pretty then ": " else ":" in
  match v with
  | VNull => "null"
  | VBool true => "true"
  | VBool false => "false"
  | VNum n => dec n
  | VStr s => quote s
  | VArr [] => "[]"
  | VArr items =>
      "[" ++ opening
          ++ join sep (map (stringify_at pretty inner) items)
          ++ closing ++ "]"
  | VObj [] => "{}"
  | VObj members =>
      "{" ++ opening
          ++ join sep
               (map (fun kv => quote (fst kv) ++ colon
                                 ++ stringify_at pretty inner (snd kv))
                    members)
          ++ closing ++ "}"
  end.

Definition stringify (pretty : bool) (v : value) : string :=
  stringify_at pretty "" v.


(** *** Letter case

    [s.toLowerCase()] and [s.toUpperCase()] on ASCII text: the letters
    change case and every other character stays.  [is_ascii] tells the
    strings for which this is all that JavaScript does. *)

Definition lower_char (c : ascii) : ascii :=
  let n := N_of_ascii c in
  if ((65 <=? n) && (n <=? 90))%N then ascii_of_N (n + 32) else c.

Definition upper_char (c : ascii) : ascii :=
  let n := N_of_ascii c in
  if ((97 <=? n) && (n <=? 122))%N then ascii_of_N (n - 32) else c.

Fixpoint toLowerCase (s : string) : string :=
  match s with
  | EmptyString => ""
  | String c rest => String (lower_char c) (toLowerCase rest)
  end.

Fixpoint toUpperCase (s : string) : string :=
  match s with
  | EmptyString => ""
  | String c rest => String (upper_char c) (toUpperCase rest)
  end.

Fixpoint is_ascii (s : string) : bool :=
  match s with
  | EmptyString => true
  | String c rest => (N_of_ascii c <? 128)%N && is_ascii rest
  end.

End Js.

(** ** The persisted document ([conf])

    [conf] keeps one JSON object on disk and addresses it by dotted paths
    ([auth.access_token]).  A path is given here already split at its dots.
    Paths of the clients name object members only, so a path that runs into
    anything but an object finds nothing. *)

Module Conf.
Import Js.

Definition store : Type := value.

(** The document of a fresh installation, and of [conf.clear()] when the
    schema declares no defaults. *)
Definition empty : store := VObj [].

Definition members_of (v : value) : list (string * value) :=
  match v with
  | VObj ms => ms
  | _ => []
  end.

(** [conf.get(path)] *)
Fixpoint get (s : value) (path : list string) : jsval :=
  match path with
  | [] => Some s
  | k :: rest =>
      match s with
      | VObj ms =>
          match lookup k ms with
          | Some v => get v rest
          | None => None
          end
      | _ => None
      end
  end.

(** [conf.set(path, v)]: objects missing on the way are created; a value
    that stands on the way and is no object is replaced by a fresh object. *)
Fixpoint set (s : value) (path : list string) (v : value) : value :=
  match path with
  | [] => v
  | k :: rest =>
      let ms := members_of s in
      let child := match lookup k ms with
                   | Some (VObj c) => VObj c
                   | _ => VObj []
                   end in
      VObj (assign k (set child rest v) ms)
  end.

(** [conf.delete(path)]: nothing happens when the path leads nowhere. *)
Fixpoint delete (s : value) (path : list string) : value :=
  match path with
  | [] => s
  | [k] =>
      match s with
      | VObj ms => VObj (remove k ms)
      | _ => s
      end
  | k :: rest =>
      match s with
      | VObj ms =>
          match lookup k ms with
          | Some v => VObj (assign k (delete v rest) ms)
          | None => s
          end
      | _ => s
      end
  end.

(** [conf.clear()] *)
Definition clear (defaults : store) (_ : store) : store := defaults.

(** Whether a member, if present, is a string / a number / an object: the
    three types the schemas of the clients use. *)
Definition opt_string (v : jsval) : bool :=
  match v with None | Some (VStr _) => true | _ => false end.

Definition opt_number (v : jsval) : bool :=
  match v with None | Some (VNum _) => true | _ => false end.

Definition opt_object (v : jsval) : bool :=
  match v with None | Some (VObj _) => true | _ => false end.

End Conf.

(** ** [src/lib/config.js] *)

Module LibConfig.
Import Js.

(** The schema handed to [conf]: the document is an object whose [auth] and
    [defaults] members, when present, are objects with typed members.
    [conf] validates against it whenever it reads or writes the document, so
    a document that fails it is never seen by the client. *)
Definition schema (s : Conf.store) : bool :=
  match s with
  | VObj _ =>
      Conf.opt_object (Conf.get s ["auth"])
      && Conf.opt_string (Conf.get s ["auth"; "secret_id"])
      && Conf.opt_string (Conf.get s ["auth"; "secret_key"])
      && Conf.opt_string (Conf.get s ["auth"; "access_token"])
      && Conf.opt_string (Conf.get s ["auth"; "refresh_token"])
      && Conf.opt_number (Conf.get s ["auth"; "access_expires"])
      && Conf.opt_number (Conf.get s ["auth"; "refresh_expires"])
      && Conf.opt_object (Conf.get s ["defaults"])
      && Conf.opt_string (Conf.get s ["defaults"; "country"])
      && Conf.opt_string (Conf.get s ["defaults"; "institution_id"])
  | _ => false
  end.

(** [get(key)] *)
Definition get (s : Conf.store) (key : list string) : jsval := Conf.get s key.

(** [set(key, value)] *)
Definition set (s : Conf.store) (key : list string) (v : value) : Conf.store :=
  Conf.set s key v.

(** [del(key)] *)
Definition del (s : Conf.store) (key : list string) : Conf.store :=
  Conf.delete s key.

(** [clear()]: the schema has no defaults, the document becomes empty. *)
Definition clear (s : Conf.store) : Conf.store := Conf.clear Conf.empty s.

(** [getAll()] *)
Definition getAll (s : Conf.store) : Conf.store := s.

(** [Math.floor(Date.now() / 1000)], the clock being in milliseconds. *)
Definition seconds (clock_ms : Z) : Z := clock_ms / 1000.

(** [expires > now + 60] for the expiry read from the document.  The schema
    makes a stored expiry a number. *)
Definition later_than (expires : jsval) (bound : Z) : bool :=
  match expires with
  | Some (VNum e) => bound <? e
  | _ => false
  end.

(** [isAccessTokenValid()] *)
Definition isAccessTokenValid (s : Conf.store) (clock_ms : Z) : bool :=
  let token := Conf.get s ["auth"; "access_token"] in
  let expires := Conf.get s ["auth"; "access_expires"] in
  if negb (truthy token) || negb (truthy expires) then false
  else
    let now := seconds clock_ms in
    later_than expires (now + 60).

(** [isRefreshTokenValid()] *)
Definition isRefreshTokenValid (s : Conf.store) (clock_ms : Z) : bool :=
  let token := Conf.get s ["auth"; "refresh_token"] in
  let expires := Conf.get s ["auth"; "refresh_expires"] in
  if negb (truthy token) || negb (truthy expires) then false
  else
    let now := seconds clock_ms in
    later_than expires (now + 60).

End LibConfig.

(** ** Effects: the persisted document, the clock and the network

    A client function runs against a world made of the persisted document,
    the wall clock ([Date.now()], in milliseconds) and the HTTP calls issued
    so far, oldest first.  It returns a value or throws.  The remote side is
    a function from the calls seen so far and the call at hand to a reply
    and the time the round trip takes; the clock moves while a call is
    awaited and stands still otherwise. *)

Module Eff.
Import Js.

Section Machine.

Variable Call : Type.    (* what is sent *)
Variable Reply : Type.   (* what comes back *)
Variable Err : Type.     (* what is thrown *)

Record World : Type := mkWorld {
  conf : Conf.store;
  clock : Z;
  sent : list Call
}.

Inductive Outcome (A : Type) : Type :=
| Returned (a : A)
| Thrown (e : Err).

Definition M (A : Type) : Type := World -> Outcome A * World.

Definition ret {A} (a : A) : M A := fun w => (Returned A a, w).

Definition throw {A} (e : Err) : M A := fun w => (Thrown A e, w).

Definition bind {A B} (m : M A) (k : A -> M B) : M B :=
  fun w =>
    match m w with
    | (Returned _ a, w') => k a w'
    | (Thrown _ e, w') => (Thrown B e, w')
    end.

(** [try { m } catch (e) { handler(e) }] *)
Definition try_catch {A} (m : M A) (handler : Err -> M A) : M A :=
  fun w =>
    match m w with
    | (Returned _ a, w') => (Returned A a, w')
    | (Thrown _ e, w') => handler e w'
    end.

(** Reading and writing the persisted document. *)
Definition read {A} (f : Conf.store -> A) : M A :=
  fun w => (Returned A (f (conf w)), w).

Definition write (f : Conf.store -> Conf.store) : M unit :=
  fun w => (Returned unit tt, mkWorld (f (conf w)) (clock w) (sent w)).

(** [Date.now()] *)
Definition date_now : M Z := fun w => (Returned Z (clock w), w).

Definition Remote : Type := list Call -> Call -> Reply * Z.

(** The reply to the call [c] issued in the world [w], and the world once
    it has arrived: the clock has advanced and the call is on record. *)
Definition answer (remote : Remote) (c : Call) (w : World) : Reply :=
  fst (remote (sent w) c).

Definition settled (remote : Remote) (c : Call) (w : World) : World :=
  mkWorld (conf w) (clock w + snd (remote (sent w) c)) (sent w ++ [c]).

(** One awaited network call. *)
Definition await (remote : Remote) (c : Call) : M Reply :=
  fun w => (Returned Reply (answer remote c w), settled remote c w).

End Machine.

Arguments mkWorld {Call}.
Arguments conf {Call}.
Arguments clock {Call}.
Arguments sent {Call}.
Arguments Returned {Err A}.
Arguments Thrown {Err A}.
Arguments ret {Call Err A}.
Arguments throw {Call Err A}.
Arguments bind {Call Err A B}.
Arguments try_catch {Call Err A}.
Arguments read {Call Err A}.
Arguments write {Call Err}.
Arguments date_now {Call Err}.
Arguments answer {Call Reply}.
Arguments settled {Call Reply}.
Arguments await {Call Reply Err}.

(** [maintains R m]: whatever [m] does, the world it leaves is related by
    [R] to the world it started in. *)
Definition maintains {Call Err A : Type}
  (R : World Call -> World Call -> Prop) (m : M Call Err A) : Prop :=
  forall w, R w (snd (m w)).

End Eff.

Declare Scope eff_scope.
Delimit Scope eff_scope with eff.
Notation "x <- m ;; k" := (Eff.bind m (fun x => k))
  (at level 61, m at next level, right associativity) : eff_scope.
Notation "m ;;; k" := (Eff.bind m (fun _ => k))
  (at level 61, right associativity) : eff_scope.

(** ** [src/lib/api.js] *)

Module LibApi.
Import Js.

Definition BASE_URL : string := "https://ob.nordigen.com".
Definition API_VERSION : string := "v2".

(** What [fetch(url, fetchOptions)] is called with. *)
Record FetchCall : Type := mkCall {
  url : string;
  method : string;
  headers : list (string * string);
  body : option string
}.

(** The body of a response: the text of a JSON document, or other text,
    which comes with the message of the error that [JSON.parse] raises on
    it. *)
Inductive Payload : Type :=
| Json (v : value)
| Raw (text : string) (syntax_error : string).

Record Response : Type := mkResponse {
  status : Z;
  statusText : string;
  contentType : option string;   (* [response.headers.get('content-type')] *)
  payload : Payload
}.

(** [response.ok] *)
Definition ok (r : Response) : bool := (200 <=? status r) && (status r <=? 299).

(** A thrown error object with the members [request] attaches to it. *)
Record Error : Type := mkError {
  message : string;
  error_status : jsval;
  error_statusCode : jsval;
  error_detail : jsval;
  error_summary : jsval;
  error_type : jsval;
  error_response : jsval
}.

(** [new Error(message)] *)
Definition new_Error (msg : string) : Error :=
  mkError msg None None None None None None.

(** [fetch] resolves with a response, or rejects when no answer comes (no
    connection, DNS): the reason is a [FetchError] with a message. *)
Inductive FetchReply : Type :=
| Responded (r : Response)
| Rejected (message : string).

(** The [FetchError] with which [fetch] rejects for a failure of the
    network: its [type] is ['system'], and it has none of the other members
    above. *)
Definition FetchError (msg : string) : Error :=
  mkError msg None None None None (Some (VStr "system")) None.

Definition World : Type := Eff.World FetchCall.
Definition M (A : Type) : Type := Eff.M FetchCall Error A.
Definition Remote : Type := Eff.Remote FetchCall FetchReply.

(** The client object. *)
Record NordigenAPI : Type := mkClient {
  baseURL : string;
  accessToken : jsval
}.

(** [getStoredToken()] *)
Definition getStoredToken (s : Conf.store) : jsval :=
  js_or (Conf.get s ["auth"; "access_token"]) (Some VNull).

(** A parameter declared as [accessToken = null]: null when the argument
    is undefined. *)
Definition or_null (argument : jsval) : jsval :=
  match argument with
  | None => Some VNull
  | Some v => Some v
  end.

(** [constructor(accessToken = null)] *)
Definition constructor (token : jsval) : M NordigenAPI :=
  Eff.read (fun s =>
              mkClient BASE_URL (js_or (or_null token) (getStoredToken s))).

(** [createClient(accessToken = null)] *)
Definition createClient (token : jsval) : M NordigenAPI :=
  constructor (or_null token).

(** The options of [request]; [auth] defaults to [true]. *)
Record Options : Type := mkOptions {
  opt_body : jsval;
  opt_query : option (list (string * jsval));
  opt_auth : bool
}.

Definition no_options : Options := mkOptions None None true.

(** *** The URL *)

Definition hexdigit_upper (n : N) : ascii :=
  match n with
  | 0 => "0" | 1 => "1" | 2 => "2" | 3 => "3" | 4 => "4" | 5 => "5"
  | 6 => "6" | 7 => "7" | 8 => "8" | 9 => "9" | 10 => "A" | 11 => "B"
  | 12 => "C" | 13 => "D" | 14 => "E" | _ => "F"
  end%N%char.

(** Bytes that the form-urlencoded serializer of [URLSearchParams] leaves
    as they are: ASCII letters and digits and the four marks [* - . _]. *)
Definition form_safe (c : ascii) : bool :=
  let n := N_of_ascii c in
  ((48 <=? n) && (n <=? 57) || (65 <=? n) && (n <=? 90)
   || (97 <=? n) && (n <=? 122)
   || (n =? 42) || (n =? 45) || (n =? 46) || (n =? 95))%N.

Definition form_encode_char (c : ascii) : string :=
  let n := N_of_ascii c in
  if (n =? 32)%N then "+"
  else if form_safe c then String c ""
  else String "%" (String (hexdigit_upper (n / 16))
                          (String (hexdigit_upper (n mod 16)) "")).

Fixpoint form_encode (s : string) : string :=
  match s with
  | EmptyString => ""
  | String c rest => form_encode_char c ++ form_encode rest
  end.

(** [url.searchParams.toString()] *)
Definition form_urlencoded (params : list (string * string)) : string :=
  join "&" (map (fun kv => form_encode (fst kv) ++ "=" ++ form_encode (snd kv))
                params).

(** The loop over [Object.entries(query)]: [params] is the list held by
    [url.searchParams], to which each defined, non-null value is appended. *)
Fixpoint append_entries (params : list (string * string))
  (entries : list (string * jsval)) : list (string * string) :=
  match entries with
  | [] => params
  | (key, v) :: rest =>
      match v with
      | None => append_entries params rest
      | Some VNull => append_entries params rest
      | Some x => append_entries (params ++ [(key, toString x)]) rest
      end
  end.

Definition searchParams (query : option (list (string * jsval)))
  : list (string * string) :=
  match query with
  | Some entries => append_entries [] entries
  | None => []
  end.

(** [url.toString()] for [new URL(base + endpoint)] with the given search
    parameters.  The endpoint is a plain path starting with a slash. *)
Definition href (base endpoint : string) (params : list (string * string))
  : string :=
  match params with
  | [] => base ++ endpoint
  | _ => base ++ endpoint ++ "?" ++ form_urlencoded params
  end.

(** *** [request] *)

(** [data.key], for data that is not null. *)
Definition member (data : value) (key : string) : jsval :=
  match data with
  | VObj ms => lookup key ms
  | _ => None
  end.

Definition request_headers (self : NordigenAPI) (auth : bool)
  : list (string * string) :=
  let headers := [("Content-Type", "application/json");
                  ("Accept", "application/json")] in
  if auth && truthy (accessToken self)
  then headers ++ [("Authorization", "Bearer " ++ show (accessToken self))]
  else headers.

(** The body as read back from the response: [response.json()] when the
    content type says JSON, [response.text()] otherwise. *)
Definition read_data (r : Response) : M value :=
  let text := match payload r with
              | Json v => stringify false v
              | Raw s _ => s
              end in
  match contentType r with
  | Some ct =>
      if negb (ct =? "")%string && includes ct "application/json" then
        match payload r with
        | Json v => Eff.ret v
        | Raw _ syntax_error => Eff.throw (new_Error syntax_error)
        end
      else Eff.ret (VStr text)
  | None => Eff.ret (VStr text)
  end.

(** The error thrown for a response that is not [ok]. *)
Definition http_error (r : Response) (data : value) : Error :=
  let fallback :=
    VStr ("HTTP " ++ dec (status r) ++ ": " ++ statusText r) in
  mkError
    (show (js_or (js_or (member data "summary") (member data "detail"))
                 (Some fallback)))
    (Some (VNum (status r)))
    (js_or (member data "status_code") (Some (VNum (status r))))
    (member data "detail")
    (member data "summary")
    (member data "type")
    (Some data).

(** What [request] hands to [fetch]: the URL with its query string, the
    method, the headers and, for a truthy body, its JSON text. *)
Definition outgoing (self : NordigenAPI) (method endpoint : string)
  (options : Options) : FetchCall :=
  let url := href (baseURL self) endpoint (searchParams (opt_query options)) in
  let headers := request_headers self (opt_auth options) in
  let body := if truthy (opt_body options)
              then option_map (stringify false) (opt_body options)
              else None in
  mkCall url method headers body.

(** What [request] makes of a response: the data it returns, or the error
    it throws when the response is not [ok]. *)
Definition handle_response (r : Response) : M value :=
  (data <- read_data r ;;
   if negb (ok r) then
     match data with
     | VNull =>
         Eff.throw
           (new_Error "Cannot read properties of null (reading 'summary')")
     | _ => Eff.throw (http_error r data)
     end
   else Eff.ret data)%eff.

(** A response that carries the JSON document [data] with a 2xx status. *)
Definition delivers (r : Response) (data : value) : Prop :=
  ok r = true
  /\ (exists ct, contentType r = Some ct
                 /\ includes ct "application/json" = true)
  /\ payload r = Json data.

(** [request(method, endpoint, options = {})] *)
Definition request (remote : Remote) (self : NordigenAPI)
  (method endpoint : string) (options : Options) : M value :=
  (response <- Eff.await remote (outgoing self method endpoint options) ;;
   match response with
   | Rejected msg => Eff.throw (FetchError msg)
   | Responded r => handle_response r
   end)%eff.

(** [get], [post], [put] and [delete] *)
Definition get (remote : Remote) (self : NordigenAPI) (endpoint : string)
  (options : Options) : M value :=
  request remote self "GET" endpoint options.

Definition post (remote : Remote) (self : NordigenAPI) (endpoint : string)
  (body : value) (options : Options) : M value :=
  request remote self "POST" endpoint
    (mkOptions (Some body) (opt_query options) (opt_auth options)).

Definition put (remote : Remote) (self : NordigenAPI) (endpoint : string)
  (body : value) (options : Options) : M value :=
  request remote self "PUT" endpoint
    (mkOptions (Some body) (opt_query options) (opt_auth options)).

Definition delete (remote : Remote) (self : NordigenAPI) (endpoint : string)
  (options : Options) : M value :=
  request remote self "DELETE" endpoint options.

(** [obtainToken(secretId, secretKey)] *)
Definition obtainToken (remote : Remote) (self : NordigenAPI)
  (secretId secretKey : string) : M value :=
  post remote self "/api/v2/token/new/"
    (VObj [("secret_id", VStr secretId); ("secret_key", VStr secretKey)])
    (mkOptions None None false).

(** [refreshToken(refreshToken)] *)
Definition refreshToken (remote : Remote) (self : NordigenAPI)
  (token : jsval) : M value :=
  post remote self "/api/v2/token/refresh/"
    (VObj (match token with Some t => [("refresh", t)] | None => [] end))
    (mkOptions None None false).


(** *** The resources of the API

    Identifiers are spliced into the path as they are given. *)

(** [{ query: params }] *)
Definition with_query (params : list (string * jsval)) : Options :=
  mkOptions None (Some params) true.

(** [obj[key] = v] on the entries of a query object, whose values may be
    undefined: an existing entry is overwritten in place, a new one is
    added after the others. *)
Fixpoint put_entry (key : string) (v : jsval) (entries : list (string * jsval))
  : list (string * jsval) :=
  match entries with
  | [] => [(key, v)]
  | (k, x) :: rest =>
      if (key =? k)%string then (key, v) :: rest
      else (k, x) :: put_entry key v rest
  end.

(** [{ ...entries, ...more }] *)
Definition spread (entries more : list (string * jsval))
  : list (string * jsval) :=
  fold_left (fun acc kv => put_entry (fst kv) (snd kv) acc) more entries.

(** Accounts *)
Definition getAccount (remote : Remote) (self : NordigenAPI)
  (accountId : string) : M value :=
  get remote self ("/api/v2/accounts/" ++ accountId ++ "/") no_options.

Definition getAccountBalances (remote : Remote) (self : NordigenAPI)
  (accountId : string) : M value :=
  get remote self ("/api/v2/accounts/" ++ accountId ++ "/balances/") no_options.

Definition getAccountDetails (remote : Remote) (self : NordigenAPI)
  (accountId : string) : M value :=
  get remote self ("/api/v2/accounts/" ++ accountId ++ "/details/") no_options.

Definition getAccountTransactions (remote : Remote) (self : NordigenAPI)
  (accountId : string) (params : list (string * jsval)) : M value :=
  get remote self ("/api/v2/accounts/" ++ accountId ++ "/transactions/")
    (with_query params).

Definition getPremiumTransactions (remote : Remote) (self : NordigenAPI)
  (accountId : string) (country : jsval) (params : list (string * jsval))
  : M value :=
  get remote self ("/api/v2/accounts/premium/" ++ accountId ++ "/transactions/")
    (with_query (spread [("country", country)] params)).

(** Institutions *)
Definition listInstitutions (remote : Remote) (self : NordigenAPI)
  (country : jsval) (params : list (string * jsval)) : M value :=
  get remote self "/api/v2/institutions/"
    (with_query (spread [("country", country)] params)).

Definition getInstitution (remote : Remote) (self : NordigenAPI)
  (institutionId : string) : M value :=
  get remote self ("/api/v2/institutions/" ++ institutionId ++ "/") no_options.

(** End user agreements *)
Definition listAgreements (remote : Remote) (self : NordigenAPI)
  (params : list (string * jsval)) : M value :=
  get remote self "/api/v2/agreements/enduser/" (with_query params).

Definition createAgreement (remote : Remote) (self : NordigenAPI)
  (data : value) : M value :=
  post remote self "/api/v2/agreements/enduser/" data no_options.

Definition getAgreement (remote : Remote) (self : NordigenAPI)
  (agreementId : string) : M value :=
  get remote self ("/api/v2/agreements/enduser/" ++ agreementId ++ "/")
    no_options.

Definition deleteAgreement (remote : Remote) (self : NordigenAPI)
  (agreementId : string) : M value :=
  delete remote self ("/api/v2/agreements/enduser/" ++ agreementId ++ "/")
    no_options.

Definition acceptAgreement (remote : Remote) (self : NordigenAPI)
  (agreementId : string) (data : value) : M value :=
  put remote self ("/api/v2/agreements/enduser/" ++ agreementId ++ "/accept/")
    data no_options.

(** Requisitions *)
Definition listRequisitions (remote : Remote) (self : NordigenAPI)
  (params : list (string * jsval)) : M value :=
  get remote self "/api/v2/requisitions/" (with_query params).

Definition createRequisition (remote : Remote) (self : NordigenAPI)
  (data : value) : M value :=
  post remote self "/api/v2/requisitions/" data no_options.

Definition getRequisition (remote : Remote) (self : NordigenAPI)
  (requisitionId : string) : M value :=
  get remote self ("/api/v2/requisitions/" ++ requisitionId ++ "/") no_options.

Definition deleteRequisition (remote : Remote) (self : NordigenAPI)
  (requisitionId : string) : M value :=
  delete remote self ("/api/v2/requisitions/" ++ requisitionId ++ "/")
    no_options.

(** Payments *)
Definition listPayments (remote : Remote) (self : NordigenAPI)
  (params : list (string * jsval)) : M value :=
  get remote self "/api/v2/payments/" (with_query params).

Definition createPayment (remote : Remote) (self : NordigenAPI)
  (data : value) : M value :=
  post remote self "/api/v2/payments/" data no_options.

Definition getPayment (remote : Remote) (self : NordigenAPI)
  (paymentId : string) : M value :=
  get remote self ("/api/v2/payments/" ++ paymentId ++ "/") no_options.

Definition deletePayment (remote : Remote) (self : NordigenAPI)
  (paymentId : string) : M value :=
  delete remote self ("/api/v2/payments/" ++ paymentId ++ "/") no_options.

Definition listCreditorAccounts (remote : Remote) (self : NordigenAPI)
  (params : list (string * jsval)) : M value :=
  get remote self "/api/v2/payments/account/" (with_query params).

Definition listCreditors (remote : Remote) (self : NordigenAPI)
  (params : list (string * jsval)) : M value :=
  get remote self "/api/v2/payments/creditors/" (with_query params).

Definition createCreditor (remote : Remote) (self : NordigenAPI)
  (data : value) : M value :=
  post remote self "/api/v2/payments/creditors/" data no_options.

Definition getCreditor (remote : Remote) (self : NordigenAPI)
  (creditorId : string) : M value :=
  get remote self ("/api/v2/payments/creditors/" ++ creditorId ++ "/")
    no_options.

Definition deleteCreditor (remote : Remote) (self : NordigenAPI)
  (creditorId : string) : M value :=
  delete remote self ("/api/v2/payments/creditors/" ++ creditorId ++ "/")
    no_options.

Definition getPaymentFields (remote : Remote) (self : NordigenAPI)
  (institutionId : string) : M value :=
  get remote self ("/api/v2/payments/fields/" ++ institutionId ++ "/")
    no_options.

End LibApi.

(** ** [src/lib/auth.js] *)

Module LibAuth.
Import Js.
Import LibApi.

Definition isAccessTokenValid : M bool :=
  (now <- Eff.date_now ;;
   Eff.read (fun s => LibConfig.isAccessTokenValid s now))%eff.

Definition isRefreshTokenValid : M bool :=
  (now <- Eff.date_now ;;
   Eff.read (fun s => LibConfig.isRefreshTokenValid s now))%eff.

(** [result.key]: reading a member of [null] throws. *)
Definition prop (data : value) (key : string) : M jsval :=
  match data with
  | VNull =>
      Eff.throw
        (new_Error ("Cannot read properties of null (reading '" ++ key ++ "')"))
  | _ => Eff.ret (member data key)
  end.

(** [now + x] for a number [now] and a member [x] of a reply.  A sum that
    is no number ([NaN]) is rendered as the absence of a value: [conf]
    refuses both. *)
Definition plus (now : Z) (x : jsval) : jsval :=
  match x with
  | None => None
  | Some VNull => Some (VNum now)
  | Some (VBool b) => Some (VNum (now + (if b then 1 else 0)))
  | Some (VNum n) => Some (VNum (now + n))
  | Some v => Some (VStr (dec now ++ toString v))
  end.

(** What [conf] throws when the schema refuses a value. *)
Definition schema_violation : Error := new_Error "Config schema violation".

(** [config.set(key, v)] for a key that the schema types as a string. *)
Definition set_string (key : list string) (v : jsval) : M unit :=
  match v with
  | Some (VStr x) => Eff.write (fun s => Conf.set s key (VStr x))
  | _ => Eff.throw schema_violation
  end.

(** [config.set(key, v)] for a key that the schema types as a number. *)
Definition set_number (key : list string) (v : jsval) : M unit :=
  match v with
  | Some (VNum n) => Eff.write (fun s => Conf.set s key (VNum n))
  | _ => Eff.throw schema_violation
  end.

Definition refresh_failed : Error :=
  new_Error
    "Failed to refresh token. Please login again using: nordigen auth login".

Definition not_authenticated : Error :=
  new_Error
    "Not authenticated. Please login using: nordigen auth login --secret-id <id> --secret-key <key>".

(** The body of the [try] block of [ensureAuth]: refresh, then save the
    new access token. *)
Definition refresh_and_save (remote : Remote) (api : NordigenAPI)
  (refreshToken : jsval) : M jsval :=
  (result <- LibApi.refreshToken remote api refreshToken ;;
   ms <- Eff.date_now ;;
   let now := LibConfig.seconds ms in
   access <- prop result "access" ;;
   set_string ["auth"; "access_token"] access ;;;
   access_expires <- prop result "access_expires" ;;
   set_number ["auth"; "access_expires"] (plus now access_expires) ;;;
   prop result "access")%eff.

(** [ensureAuth()] *)
Definition ensureAuth (remote : Remote) : M jsval :=
  (access_valid <- isAccessTokenValid ;;
   if access_valid : bool then
     Eff.read (fun s => Conf.get s ["auth"; "access_token"])
   else
     refresh_valid <- isRefreshTokenValid ;;
     if refresh_valid : bool then
       refreshToken <- Eff.read (fun s => Conf.get s ["auth"; "refresh_token"]) ;;
       api <- createClient None ;;
       Eff.try_catch
         (refresh_and_save remote api refreshToken)
         (fun _ => Eff.throw refresh_failed)
     else
       Eff.throw not_authenticated)%eff.

(** [login(secretId, secretKey)] *)
Definition login (remote : Remote) (secretId secretKey : string) : M value :=
  (api <- createClient None ;;
   result <- obtainToken remote api secretId secretKey ;;
   ms <- Eff.date_now ;;
   let now := LibConfig.seconds ms in
   set_string ["auth"; "secret_id"] (Some (VStr secretId)) ;;;
   set_string ["auth"; "secret_key"] (Some (VStr secretKey)) ;;;
   access <- prop result "access" ;;
   set_string ["auth"; "access_token"] access ;;;
   refresh <- prop result "refresh" ;;
   set_string ["auth"; "refresh_token"] refresh ;;;
   access_expires <- prop result "access_expires" ;;
   set_number ["auth"; "access_expires"] (plus now access_expires) ;;;
   refresh_expires <- prop result "refresh_expires" ;;
   set_number ["auth"; "refresh_expires"] (plus now refresh_expires) ;;;
   Eff.ret result)%eff.

(** [logout()] *)
Definition logout : M unit :=
  Eff.write (fun s => Conf.delete s ["auth"]).

(** [isAuthenticated()] *)
Definition isAuthenticated : M bool :=
  (a <- isAccessTokenValid ;;
   if a : bool then Eff.ret true else isRefreshTokenValid)%eff.


(** The object that [getAuthStatus] returns. *)
Record AuthStatus : Type := mkAuthStatus {
  authenticated : bool;
  hasAccessToken : bool;
  hasRefreshToken : bool;
  accessTokenValid : bool;
  refreshTokenValid : bool;
  accessExpiresIn : Z;
  refreshExpiresIn : Z
}.

(** [expires ? Math.max(0, expires - now) : 0].  The schema makes a stored
    expiry a number. *)
Definition expires_in (expires : jsval) (now : Z) : Z :=
  if truthy expires then
    match expires with
    | Some (VNum e) => Z.max 0 (e - now)
    | _ => 0
    end
  else 0.

(** [getAuthStatus()] *)
Definition getAuthStatus : M AuthStatus :=
  (accessToken <- Eff.read (fun s => Conf.get s ["auth"; "access_token"]) ;;
   refreshToken <- Eff.read (fun s => Conf.get s ["auth"; "refresh_token"]) ;;
   accessExpires <- Eff.read (fun s => Conf.get s ["auth"; "access_expires"]) ;;
   refreshExpires <- Eff.read (fun s => Conf.get s ["auth"; "refresh_expires"]) ;;
   ms <- Eff.date_now ;;
   let now := LibConfig.seconds ms in
   authenticated <- isAuthenticated ;;
   accessTokenValid <- isAccessTokenValid ;;
   refreshTokenValid <- isRefreshTokenValid ;;
   Eff.ret (mkAuthStatus authenticated
              (truthy accessToken) (truthy refreshToken)
              accessTokenValid refreshTokenValid
              (expires_in accessExpires now)
              (expires_in refreshExpires now)))%eff.

End LibAuth.

(** ** The resource methods of [src/lib/api.js], one by one

    [Operation] names a resource method together with its arguments, and
    [perform] calls it. *)

Module Resources.
Import Js.
Import LibApi.

Inductive Operation : Type :=
| GetAccount (accountId : string)
| GetAccountBalances (accountId : string)
| GetAccountDetails (accountId : string)
| GetAccountTransactions (accountId : string) (params : list (string * jsval))
| GetPremiumTransactions (accountId : string) (country : jsval)
    (params : list (string * jsval))
| ListInstitutions (country : jsval) (params : list (string * jsval))
| GetInstitution (institutionId : string)
| ListAgreements (params : list (string * jsval))
| CreateAgreement (data : value)
| GetAgreement (agreementId : string)
| DeleteAgreement (agreementId : string)
| AcceptAgreement (agreementId : string) (data : value)
| ListRequisitions (params : list (string * jsval))
| CreateRequisition (data : value)
| GetRequisition (requisitionId : string)
| DeleteRequisition (requisitionId : string)
| ListPayments (params : list (string * jsval))
| CreatePayment (data : value)
| GetPayment (paymentId : string)
| DeletePayment (paymentId : string)
| ListCreditorAccounts (params : list (string * jsval))
| ListCreditors (params : list (string * jsval))
| CreateCreditor (data : value)
| GetCreditor (creditorId : string)
| DeleteCreditor (creditorId : string)
| GetPaymentFields (institutionId : string).

Definition perform (remote : Remote) (self : NordigenAPI) (op : Operation)
  : M value :=
  match op with
  | GetAccount id => getAccount remote self id
  | GetAccountBalances id => getAccountBalances remote self id
  | GetAccountDetails id => getAccountDetails remote self id
  | GetAccountTransactions id params =>
      getAccountTransactions remote self id params
  | GetPremiumTransactions id country params =>
      getPremiumTransactions remote self id country params
  | ListInstitutions country params =>
      listInstitutions remote self country params
  | GetInstitution id => getInstitution remote self id
  | ListAgreements params => listAgreements remote self params
  | CreateAgreement data => createAgreement remote self data
  | GetAgreement id => getAgreement remote self id
  | DeleteAgreement id => deleteAgreement remote self id
  | AcceptAgreement id data => acceptAgreement remote self id data
  | ListRequisitions params => listRequisitions remote self params
  | CreateRequisition data => createRequisition remote self data
  | GetRequisition id => getRequisition remote self id
  | DeleteRequisition id => deleteRequisition remote self id
  | ListPayments params => listPayments remote self params
  | CreatePayment data => createPayment remote self data
  | GetPayment id => getPayment remote self id
  | DeletePayment id => deletePayment remote self id
  | ListCreditorAccounts params => listCreditorAccounts remote self params
  | ListCreditors params => listCreditors remote self params
  | CreateCreditor data => createCreditor remote self data
  | GetCreditor id => getCreditor remote self id
  | DeleteCreditor id => deleteCreditor remote self id
  | GetPaymentFields id => getPaymentFields remote self id
  end.

(** The identifier that a method splices into its path. *)
Definition identifier (op : Operation) : option string :=
  match op with
  | GetAccount id | GetAccountBalances id | GetAccountDetails id
  | GetAccountTransactions id _ | GetPremiumTransactions id _ _
  | GetInstitution id | GetAgreement id | DeleteAgreement id
  | AcceptAgreement id _ | GetRequisition id | DeleteRequisition id
  | GetPayment id | DeletePayment id | GetCreditor id | DeleteCreditor id
  | GetPaymentFields id => Some id
  | _ => None
  end.

(** Characters that stand for themselves in the path of a URL and cannot
    form a dot segment: ASCII letters and digits, [-] and [_]. *)
Definition plain_char (c : ascii) : bool :=
  let n := N_of_ascii c in
  ((48 <=? n) && (n <=? 57) || (65 <=? n) && (n <=? 90)
   || (97 <=? n) && (n <=? 122) || (n =? 45) || (n =? 95))%N.

Fixpoint plain (s : string) : bool :=
  match s with
  | EmptyString => true
  | String c rest => plain_char c && plain rest
  end.

Definition plain_identifier (op : Operation) : bool :=
  match identifier op with
  | Some id => plain id
  | None => true
  end.

(** An endpoint that [new URL(base + endpoint)] leaves as it is: it starts
    with a slash and consists of such characters and slashes, so that it
    has no dot segment, nothing to escape and neither query nor
    fragment. *)
Fixpoint plain_segments (s : string) : bool :=
  match s with
  | EmptyString => true
  | String c rest =>
      (plain_char c || (N_of_ascii c =? 47)%N) && plain_segments rest
  end.

Definition plain_path (endpoint : string) : bool :=
  prefix "/" endpoint && plain_segments endpoint.


(** [params[key]] for the entries of an object: nothing when the object
    has no such key, the value, which may itself be undefined, when it
    has. *)
Fixpoint entry (key : string) (entries : list (string * jsval))
  : option jsval :=
  match entries with
  | [] => None
  | (k, v) :: rest => if (key =? k)%string then Some v else entry key rest
  end.

(** The entries of an object but for one key. *)
Definition without (key : string) (entries : list (string * jsval))
  : list (string * jsval) :=
  filter (fun kv => negb (fst kv =? key)%string) entries.

(** An object lists the keys that are array indices before its other keys,
    whatever the order in which they were written; the other keys keep the
    order of writing.  Every string of digits is taken for an index here. *)
Definition digit (c : ascii) : bool :=
  let n := N_of_ascii c in ((48 <=? n) && (n <=? 57))%N.

Fixpoint digits (s : string) : bool :=
  match s with
  | EmptyString => true
  | String c rest => digit c && digits rest
  end.

Definition index_key (k : string) : bool := negb (k =? "")%string && digits k.

(** Entries that an object keeps in the order of writing. *)
Definition insertion_ordered (entries : list (string * jsval)) : bool :=
  forallb (fun kv => negb (index_key (fst kv))) entries.

End Resources.

(** ** The commands of the [nordigen] client ([src/commands/*.js]) *)

Module LibCommands.
Import Js.
Import LibApi.

(** [await ensureAuth(); const api = createClient();]: how every command
    that talks to the API begins. *)
Definition authenticated_client (remote : Remote) : M NordigenAPI :=
  (LibAuth.ensureAuth remote ;;; createClient None)%eff.

(** [inst.name.toLowerCase().includes(query.toLowerCase())], the test of
    [institutions search].  An institution without a name, or with a name
    that is not a string, makes it throw. *)
Definition name_matches (query : string) (inst : value) : M bool :=
  match inst with
  | VNull =>
      Eff.throw (new_Error "Cannot read properties of null (reading 'name')")
  | _ =>
      match member inst "name" with
      | Some (VStr name) =>
          Eff.ret (includes (toLowerCase name) (toLowerCase query))
      | Some VNull =>
          Eff.throw
            (new_Error
               "Cannot read properties of null (reading 'toLowerCase')")
      | None =>
          Eff.throw
            (new_Error
               "Cannot read properties of undefined (reading 'toLowerCase')")
      | Some _ =>
          Eff.throw (new_Error "inst.name.toLowerCase is not a function")
      end
  end.

(** [items.filter(test)] for a test that may throw: the items are tested
    in their order and the first failure ends the filter. *)
Fixpoint filter_by (test : value -> M bool) (items : list value)
  : M (list value) :=
  match items with
  | [] => Eff.ret []
  | item :: rest =>
      (keep <- test item ;;
       kept <- filter_by test rest ;;
       Eff.ret (if keep : bool then item :: kept else kept))%eff
  end.

(** [institutions.filter((inst) => ...)] on what the API returned. *)
Definition search_results (institutions : value) (query : string)
  : M (list value) :=
  match institutions with
  | VArr items => filter_by (name_matches query) items
  | VNull =>
      Eff.throw
        (new_Error "Cannot read properties of null (reading 'filter')")
  | _ => Eff.throw (new_Error "institutions.filter is not a function")
  end.

(** The requests and the filter of [institutions search <query> -c
    <country>]. *)
Definition institutions_search (remote : Remote) (country : jsval)
  (query : string) : M (list value) :=
  (api <- authenticated_client remote ;;
   institutions <- listInstitutions remote api country [] ;;
   search_results institutions query)%eff.


(** Whether an institution has a name that is a string, and whether that
    name contains the query, letter case apart. *)
Definition named (inst : value) : bool :=
  match member inst "name" with
  | Some (VStr _) => true
  | _ => false
  end.

Definition name_contains (query : string) (inst : value) : bool :=
  match member inst "name" with
  | Some (VStr name) => includes (toLowerCase name) (toLowerCase query)
  | _ => false
  end.

(** Institutions and query in ASCII. *)
Definition ascii_name (inst : value) : bool :=
  match member inst "name" with
  | Some (VStr name) => is_ascii name
  | _ => true
  end.

End LibCommands.

(** ** [src/lib/output.js]

    The console is the list of the strings handed to [console.log], one per
    call, oldest first.  Terminal styling is left out: the [chalk] functions
    are the identity, as they are when colours are off. *)

Module Output.
Import Js.

Definition chalk (s : string) : string := s.

Fixpoint spaces (n : nat) : string :=
  match n with
  | O => ""
  | S m => String " " (spaces m)
  end.

(** [label.padEnd(width)] *)
Definition padEnd (label : string) (width : nat) : string :=
  label ++ spaces (width - String.length label).

(** [printJSON(data)], pretty printing being the default. *)
Definition printJSON (data : value) : list string :=
  [stringify true data].

(** [printRow(label, value)], the label width being 20 by default. *)
Definition printRow (label : string) (v : jsval) : list string :=
  let paddedLabel := padEnd label 20 in
  [chalk paddedLabel ++ " " ++ show v].

(** [printSection(title)] *)
Definition printSection (title : string) : list string :=
  [""; chalk title; ""].


(** [n !== 1 ? 's' : ''] *)
Definition plural (n : Z) : string := if n =? 1 then "" else "s".

(** [formatDuration(seconds)], for a whole number of seconds. *)
Definition formatDuration (seconds : Z) : string :=
  if seconds <? 60 then dec seconds ++ " second" ++ plural seconds
  else if seconds <? 3600 then
    let mins := seconds / 60 in
    dec mins ++ " minute" ++ plural mins
  else if seconds <? 86400 then
    let hours := seconds / 3600 in
    dec hours ++ " hour" ++ plural hours
  else
    let days := seconds / 86400 in
    dec days ++ " day" ++ plural days.

(** [str.substring(0, n)]: an end below zero counts as zero, one beyond the
    string as its length. *)
Definition substring0 (str : string) (n : Z) : string :=
  String.substring 0 (Z.to_nat n) str.

(** [truncate(str, maxLength = 50)], for a string or nothing.  Lengths are
    counted in characters, which is what [str.length] counts for the ASCII
    text that the model's strings hold. *)
Definition truncate (str : option string) (maxLength : option Z) : string :=
  let maxLength := match maxLength with Some m => m | None => 50 end in
  match str with
  | None => ""
  | Some s =>
      if (s =? "")%string then ""
      else if Z.of_nat (String.length s) <=? maxLength then s
      else substring0 s (maxLength - 3) ++ "..."
  end.


(** The check mark and the cross, in UTF-8. *)
Definition check_mark : string :=
  String (ascii_of_N 226) (String (ascii_of_N 156) (String (ascii_of_N 147) "")).

Definition cross_mark : string :=
  String (ascii_of_N 226) (String (ascii_of_N 156) (String (ascii_of_N 151) "")).

(** [printSuccess(message)], on standard output. *)
Definition printSuccess (message : string) : list string :=
  [chalk check_mark ++ " " ++ message].

(** [printError(message, error)], on standard error, [DEBUG] not being
    set. *)
Definition printError (message : string) : list string :=
  [chalk cross_mark ++ " " ++ message].

(** What the action of a command leaves on the terminal: the lines on
    standard output and on standard error, oldest first, and the code when
    it ends in [process.exit(code)].  The lines of the spinner are left
    out. *)
Record Run : Type := mkRun {
  printed : list string;
  complaints : list string;
  exit_code : option Z
}.

(** An option of the command line that is given and not empty. *)
Definition given (option : option string) : bool :=
  truthy (option_map VStr option).

End Output.

(** ** [src/commands/config.js] *)

Module CmdConfig.
Import Js.
Import Output.

Record ShowOptions : Type := mkShowOptions {
  json : bool;
  showSecrets : bool
}.

Definition REDACTED : value := VStr "***REDACTED***".
Definition NOT_SET : value := VStr "Not set".

(** [if (safe.auth.key) safe.auth.key = '***REDACTED***'] *)
Definition redact_member (key : string) (safe : value) : value :=
  if truthy (Conf.get safe ["auth"; key])
  then Conf.set safe ["auth"; key] REDACTED
  else safe.

(** The copy that the JSON form prints when secrets are not shown.
    [JSON.parse(JSON.stringify(data))] gives back the document itself. *)
Definition redact (data : value) : value :=
  let safe := data in
  if truthy (Conf.get safe ["auth"]) then
    redact_member "refresh_token"
      (redact_member "access_token"
         (redact_member "secret_key" safe))
  else safe.

(** [data.auth.key], once [data.auth] is known to be truthy. *)
Definition auth_member (data : value) (key : string) : jsval :=
  Conf.get data ["auth"; key].

Definition defaults_member (data : value) (key : string) : jsval :=
  Conf.get data ["defaults"; key].

(** The action of [config show]: what it prints for the stored document
    [data], the path of the configuration file being [configPath]. *)
Definition show_action (options : ShowOptions) (data : value)
  (configPath : string) : list string :=
  if json options then
    if showSecrets options then printJSON data
    else printJSON (redact data)
  else
    printSection "Configuration"
    ++ printRow "Config File" (Some (VStr configPath))
    ++ [""]
    ++ [chalk "Authentication:"]
    ++ (if truthy (Conf.get data ["auth"]) then
          printRow "  Secret ID" (js_or (auth_member data "secret_id") (Some NOT_SET))
          ++ printRow "  Secret Key"
               (if showSecrets options then auth_member data "secret_key"
                else Some REDACTED)
          ++ printRow "  Access Token"
               (if truthy (auth_member data "access_token")
                then (if showSecrets options
                      then auth_member data "access_token"
                      else Some REDACTED)
                else Some NOT_SET)
          ++ printRow "  Refresh Token"
               (if truthy (auth_member data "refresh_token")
                then (if showSecrets options
                      then auth_member data "refresh_token"
                      else Some REDACTED)
                else Some NOT_SET)
        else [chalk "  Not configured"])
    ++ [""]
    ++ [chalk "Defaults:"]
    ++ (if truthy (Conf.get data ["defaults"]) then
          printRow "  Country" (js_or (defaults_member data "country") (Some NOT_SET))
          ++ printRow "  Institution ID"
               (js_or (defaults_member data "institution_id") (Some NOT_SET))
        else [chalk "  Not configured"]).

(** The action of [config clear --yes] *)
Definition clear_action (s : Conf.store) : Conf.store := LibConfig.clear s.


(** The action of [config set-country <code>]: the document it leaves and
    the line it prints. *)
Definition set_country_action (code : string) (s : Conf.store)
  : Conf.store * list string :=
  (LibConfig.set s ["defaults"; "country"] (VStr (toUpperCase code)),
   printSuccess ("Default country set to " ++ toUpperCase code)).

End CmdConfig.

(** ** [src/commands/auth.js] *)

Module CmdAuth.
Import Js.
Import Output.

(** [valid ? chalk.green('Valid') : chalk.yellow('Expired')] *)
Definition validity (valid : bool) : jsval :=
  Some (VStr (if valid then chalk "Valid" else chalk "Expired")).

(** What [auth status] prints for the status that [getAuthStatus()]
    returned. *)
Definition status_lines (status : LibAuth.AuthStatus) : list string :=
  (printSection "Authentication Status"
   ++ (if LibAuth.authenticated status then
         printRow "Status" (Some (VStr (chalk "Authenticated")))
         ++ printRow "Access Token" (validity (LibAuth.accessTokenValid status))
         ++ printRow "Refresh Token"
              (validity (LibAuth.refreshTokenValid status))
         ++ (if LibAuth.accessTokenValid status then
               printRow "Access Expires In"
                 (Some (VStr (formatDuration (LibAuth.accessExpiresIn status))))
             else [])
         ++ (if LibAuth.refreshTokenValid status then
               printRow "Refresh Expires In"
                 (Some (VStr (formatDuration (LibAuth.refreshExpiresIn status))))
             else [])
       else
         printRow "Status" (Some (VStr (chalk "Not Authenticated")))
         ++ [""]
         ++ [("Login with: "
              ++ chalk "nordigen auth login --secret-id <id> --secret-key <key>")%string]))%list.

(** The action of [auth status]. *)
Definition status_action : LibApi.M Run :=
  Eff.try_catch
    (status <- LibAuth.getAuthStatus ;;
     Eff.ret (mkRun (status_lines status) [] None))%eff
    (fun error =>
       Eff.ret (mkRun [] (printError "Failed to get auth status") (Some 1))).

End CmdAuth.

(** ** [src/commands/accounts.js] *)

Module CmdAccounts.
Import Js.
Import LibApi.
Import Output.

(** The options of [accounts transactions]. *)
Record TransactionsOptions : Type := mkTransactionsOptions {
  from : option string;
  to : option string;
  premium : bool;
  country : option string;
  json : bool
}.

(** [const params = {}; if (options.from) params.date_from = options.from;
    if (options.to) params.date_to = options.to;] *)
Definition transactions_params (options : TransactionsOptions)
  : list (string * jsval) :=
  ((if given (from options)
    then [("date_from", option_map VStr (from options))] else [])
   ++ (if given (to options)
       then [("date_to", option_map VStr (to options))] else []))%list.

(** The listing of the table form, from [printSection('Transactions')] to
    the line of totals.  It formats dates and amounts with [date-fns] and
    [Intl], which are not part of this repository and may throw: it is
    given here as the lines that it prints for the data and the error with
    which it stops, if it stops. *)
Definition Listing : Type := value -> list string * option Error.

(** The action of [accounts transactions <account-id>]. *)
Definition transactions_action (listing : Listing) (remote : Remote)
  (accountId : string) (options : TransactionsOptions) : M Run :=
  Eff.try_catch
    (api <- LibCommands.authenticated_client remote ;;
     let params := transactions_params options in
     let show_data (data : value) : M Run :=
       if json options then Eff.ret (mkRun (printJSON data) [] None)
       else
         match listing data with
         | (lines, None) => Eff.ret (mkRun lines [] None)
         | (lines, Some error) =>
             Eff.ret (mkRun lines (printError (message error)) (Some 1))
         end in
     if premium options then
       if negb (given (country options)) then
         Eff.ret
           (mkRun [] (printError "Use --country <code> to specify country")
              (Some 1))
       else
         data <- getPremiumTransactions remote api accountId
                   (option_map VStr (country options)) params ;;
         show_data data
     else
       data <- getAccountTransactions remote api accountId params ;;
       show_data data)%eff
    (fun error => Eff.ret (mkRun [] (printError (message error)) (Some 1))).

End CmdAccounts.

(** ** The [delete] commands of [src/commands/agreements.js],
    [src/commands/payments.js] and [src/commands/requisitions.js] *)

Module CmdDeletion.
Import Js.
Import LibApi.
Import Output.

(** The three actions are the same text but for the noun and the method
    of the client that they call. *)
Definition confirm_and_delete (remote : Remote) (noun Noun : string)
  (method : Remote -> NordigenAPI -> string -> M value)
  (id : string) (yes : bool) : M Run :=
  if negb yes then
    Eff.ret
      (mkRun [chalk ("Warning: This will permanently delete the " ++ noun);
              "Use --yes to confirm deletion"]
         [] (Some 0))
  else
    Eff.try_catch
      (api <- LibCommands.authenticated_client remote ;;
       method remote api id ;;;
       Eff.ret (mkRun (printSuccess (Noun ++ " deleted successfully")) [] None))%eff
      (fun error => Eff.ret (mkRun [] (printError (message error)) (Some 1))).

(** [agreements delete <agreement-id> [--yes]] *)
Definition agreements_delete (remote : Remote) : string -> bool -> M Run :=
  confirm_and_delete remote "agreement" "Agreement" deleteAgreement.

(** [payments delete <payment-id> [--yes]] *)
Definition payments_delete (remote : Remote) : string -> bool -> M Run :=
  confirm_and_delete remote "payment" "Payment" deletePayment.

(** [requisitions delete <requisition-id> [--yes]] *)
Definition requisitions_delete (remote : Remote) : string -> bool -> M Run :=
  confirm_and_delete remote "requisition" "Requisition" deleteRequisition.

(** The commands that delete, and the part of the API that each deletes
    from. *)
Inductive Command : Type := AgreementsDelete | PaymentsDelete | RequisitionsDelete.

Definition action (remote : Remote) (c : Command) : string -> bool -> M Run :=
  match c with
  | AgreementsDelete => agreements_delete remote
  | PaymentsDelete => payments_delete remote
  | RequisitionsDelete => requisitions_delete remote
  end.

Definition collection (c : Command) : string :=
  match c with
  | AgreementsDelete => "/api/v2/agreements/enduser/"
  | PaymentsDelete => "/api/v2/payments/"
  | RequisitionsDelete => "/api/v2/requisitions/"
  end.

End CmdDeletion.

(** ** [src/config.js] (the [nordigencom] client) *)

Module ComConfig.
Import Js.

(** The defaults of the schema; [conf] lays them under the stored document,
    so a member that was never written reads as its default. *)
Definition defaults : Conf.store :=
  VObj [("secretId", VStr ""); ("secretKey", VStr "");
        ("accessToken", VStr ""); ("refreshToken", VStr "");
        ("tokenExpiry", VNum 0)].

(** [getConfig(key)] *)
Definition getConfig (s : Conf.store) (key : string) : jsval :=
  match Conf.get s [key] with
  | Some v => Some v
  | None => Conf.get defaults [key]
  end.

(** [setConfig(key, value)] *)
Definition setConfig (s : Conf.store) (key : string) (v : value) : Conf.store :=
  Conf.set s [key] v.

(** [getAllConfig()] *)
Definition getAllConfig (s : Conf.store) : Conf.store := s.

(** [clearConfig()] *)
Definition clearConfig (s : Conf.store) : Conf.store := Conf.clear defaults s.

(** [isConfigured()] *)
Definition isConfigured (s : Conf.store) : bool :=
  let secretId := getConfig s "secretId" in
  let secretKey := getConfig s "secretKey" in
  truthy secretId && truthy secretKey.

(** [hasValidToken()]; the expiry is kept in milliseconds. *)
Definition hasValidToken (s : Conf.store) (clock_ms : Z) : bool :=
  let accessToken := getConfig s "accessToken" in
  let tokenExpiry := getConfig s "tokenExpiry" in
  if negb (truthy accessToken) then false
  else LibConfig.later_than tokenExpiry (clock_ms + 60000).


(** The schema handed to [conf]: five members, typed. *)
Definition schema (s : Conf.store) : bool :=
  match s with
  | VObj _ =>
      Conf.opt_string (Conf.get s ["secretId"])
      && Conf.opt_string (Conf.get s ["secretKey"])
      && Conf.opt_string (Conf.get s ["accessToken"])
      && Conf.opt_string (Conf.get s ["refreshToken"])
      && Conf.opt_number (Conf.get s ["tokenExpiry"])
  | _ => false
  end.

End ComConfig.

(** ** [src/api.js] (the [nordigencom] client) *)

Module ComApi.
Import Js.

Definition NORDIGEN_BASE_URL : string := "https://ob.nordigen.com/api/v2".

(** The request configuration handed to [axios]. *)
Record AxiosCall : Type := mkCall {
  method : string;
  url : string;
  headers : list (string * string);
  params : jsval;
  data : jsval
}.

Record AxiosResponse : Type := mkResponse {
  status : Z;
  response_data : jsval
}.

(** A thrown error object: [new Error(message)] has neither [response] nor
    [request]; an error of [axios] has [response] when the server answered
    outside 2xx, and [request] alone when no answer came. *)
Record Error : Type := mkError {
  message : string;
  response : option AxiosResponse;
  request : bool
}.

Definition new_Error (msg : string) : Error := mkError msg None false.

Inductive AxiosReply : Type :=
| Resolved (r : AxiosResponse)
| Rejected (e : Error).

Definition World : Type := Eff.World AxiosCall.
Definition M (A : Type) : Type := Eff.M AxiosCall Error A.
Definition Remote : Type := Eff.Remote AxiosCall AxiosReply.

(** [axios.post(url, data)] and [axios(config)] *)
Definition axios (remote : Remote) (config : AxiosCall) : M AxiosResponse :=
  (reply <- Eff.await remote config ;;
   match reply with
   | Resolved r => Eff.ret r
   | Rejected e => Eff.throw e
   end)%eff.

Definition axios_post (remote : Remote) (url : string) (data : value)
  : M AxiosResponse :=
  axios remote (mkCall "post" url [] None (Some data)).

Definition getConfig (key : string) : M jsval :=
  Eff.read (fun s => ComConfig.getConfig s key).

(** [setConfig(key, v)] for a key that the schema types as a string. *)
Definition set_string (key : string) (v : jsval) : M unit :=
  match v with
  | Some (VStr x) => Eff.write (fun s => ComConfig.setConfig s key (VStr x))
  | _ => Eff.throw (new_Error "Config schema violation")
  end.

(** [setConfig(key, v)] for a key that the schema types as a number. *)
Definition set_number (key : string) (v : jsval) : M unit :=
  match v with
  | Some (VNum n) => Eff.write (fun s => ComConfig.setConfig s key (VNum n))
  | _ => Eff.throw (new_Error "Config schema violation")
  end.

(** [data.key] with [data] possibly null or undefined ([data?.key]). *)
Definition member (data : jsval) (key : string) : jsval :=
  match data with
  | Some (VObj ms) => lookup key ms
  | _ => None
  end.

(** [const { access, ... } = response.data]: destructuring null or
    undefined throws. *)
Definition destructure (data : jsval) : M unit :=
  match data with
  | None =>
      Eff.throw
        (new_Error
           "Cannot destructure property 'access' of 'response.data' as it is undefined.")
  | Some VNull =>
      Eff.throw
        (new_Error
           "Cannot destructure property 'access' of 'response.data' as it is null.")
  | _ => Eff.ret tt
  end.

(** [Date.now() + (access_expires * 1000)].  The remote API gives
    [access_expires] as a number of seconds; a value that is no number,
    boolean or null is not converted here and leaves no number to store. *)
Definition expiry (now : Z) (access_expires : jsval) : jsval :=
  match access_expires with
  | Some (VNum n) => Some (VNum (now + n * 1000))
  | Some VNull => Some (VNum now)
  | Some (VBool b) => Some (VNum (now + (if b then 1000 else 0)))
  | _ => None
  end.

(** The body of the [try] block of [obtainAccessToken]. *)
Definition acquire_and_save (remote : Remote) (secretId secretKey : jsval)
  : M jsval :=
  (response <- axios_post remote (NORDIGEN_BASE_URL ++ "/token/new/")
                 (VObj (match secretId with
                        | Some v => [("secret_id", v)] | None => [] end
                        ++ match secretKey with
                           | Some v => [("secret_key", v)] | None => [] end)) ;;
   destructure (response_data response) ;;;
   let access := member (response_data response) "access" in
   let refresh := member (response_data response) "refresh" in
   let access_expires := member (response_data response) "access_expires" in
   set_string "accessToken" access ;;;
   (if truthy refresh then set_string "refreshToken" refresh
    else Eff.ret tt) ;;;
   now <- Eff.date_now ;;
   set_number "tokenExpiry" (expiry now access_expires) ;;;
   Eff.ret access)%eff.

(** The error that the [catch] block of [obtainAccessToken] throws. *)
Definition token_request_failed (error : Error) : Error :=
  let msg := js_or (member (match response error with
                            | Some r => response_data r
                            | None => None
                            end) "summary")
                   (Some (VStr (message error))) in
  new_Error ("Token request failed: " ++ show msg).

Definition credentials_not_configured : Error :=
  new_Error
    "Credentials not configured. Run: nordigencom config set --secret-id <id> --secret-key <key>".

(** [obtainAccessToken()] *)
Definition obtainAccessToken (remote : Remote) : M jsval :=
  (secretId <- getConfig "secretId" ;;
   secretKey <- getConfig "secretKey" ;;
   if negb (truthy secretId) || negb (truthy secretKey) then
     Eff.throw credentials_not_configured
   else
     Eff.try_catch
       (acquire_and_save remote secretId secretKey)
       (fun error => Eff.throw (token_request_failed error)))%eff.

(** The body of the [try] block of [refreshAccessToken]. *)
Definition refresh_and_save (remote : Remote) (refreshToken : jsval)
  : M jsval :=
  (response <- axios_post remote (NORDIGEN_BASE_URL ++ "/token/refresh/")
                 (VObj (match refreshToken with
                        | Some v => [("refresh", v)] | None => [] end)) ;;
   destructure (response_data response) ;;;
   let access := member (response_data response) "access" in
   let access_expires := member (response_data response) "access_expires" in
   set_string "accessToken" access ;;;
   now <- Eff.date_now ;;
   set_number "tokenExpiry" (expiry now access_expires) ;;;
   Eff.ret access)%eff.

(** [refreshAccessToken()] *)
Definition refreshAccessToken (remote : Remote) : M jsval :=
  (refreshToken <- getConfig "refreshToken" ;;
   if negb (truthy refreshToken) then obtainAccessToken remote
   else
     Eff.try_catch
       (refresh_and_save remote refreshToken)
       (fun _ => obtainAccessToken remote))%eff.

(** [getAccessToken()] *)
Definition getAccessToken (remote : Remote) : M jsval :=
  (now <- Eff.date_now ;;
   valid <- Eff.read (fun s => ComConfig.hasValidToken s now) ;;
   if valid : bool then getConfig "accessToken"
   else refreshAccessToken remote)%eff.

(** The errors of [handleApiError] with a fixed message. *)
Definition authentication_failed : Error :=
  new_Error "Authentication failed. Run: nordigencom auth login".

Definition access_forbidden : Error :=
  new_Error "Access forbidden. Check your API permissions.".

Definition resource_not_found : Error := new_Error "Resource not found.".

Definition rate_limit_exceeded : Error :=
  new_Error "Rate limit exceeded. Please wait before retrying.".

Definition no_response : Error :=
  new_Error "No response from Nordigen API. Check your internet connection.".

(** The error for any other status:
    [data?.summary || data?.detail || data?.message || JSON.stringify(data)]
    after the status. *)
Definition api_error (status : Z) (data : jsval) : Error :=
  let message :=
    js_or (js_or (js_or (member data "summary") (member data "detail"))
                 (member data "message"))
          (option_map (fun v => VStr (stringify false v)) data) in
  new_Error ("API Error (" ++ dec status ++ "): " ++ show message).

(** [handleApiError(error)] *)
Definition handleApiError (error : Error) : M unit :=
  match response error with
  | Some r =>
      let status := status r in
      let data := response_data r in
      if status =? 401 then Eff.throw authentication_failed
      else if status =? 403 then Eff.throw access_forbidden
      else if status =? 404 then Eff.throw resource_not_found
      else if status =? 429 then Eff.throw rate_limit_exceeded
      else Eff.throw (api_error status data)
  | None =>
      if request error then Eff.throw no_response
      else Eff.throw error
  end.

(** The request configuration that [apiRequest] builds for a token. *)
Definition request_config (token : jsval) (method endpoint : string)
  (data params : jsval) : AxiosCall :=
  mkCall method (NORDIGEN_BASE_URL ++ endpoint)
    [("Authorization", "Bearer " ++ show token);
     ("Accept", "application/json");
     ("Content-Type", "application/json")]
    (if truthy params then params else None)
    (if truthy data then data else None).

(** [apiRequest(method, endpoint, data = null, params = null)] *)
Definition apiRequest (remote : Remote) (method endpoint : string)
  (data params : jsval) : M jsval :=
  (token <- getAccessToken remote ;;
   let config := request_config token method endpoint data params in
   Eff.try_catch
     (response <- axios remote config ;;
      Eff.ret (response_data response))
     (fun error => handleApiError error ;;; Eff.ret None))%eff.


(** *** The functions that the module exports

    An argument that the caller leaves out is undefined; a member of a
    request body that is undefined is left out of the body, as it is when
    the body is sent. *)

(** A parameter with a default value. *)
Definition or_default (default : value) (argument : jsval) : value :=
  match argument with
  | Some v => v
  | None => default
  end.

Definition optional (key : string) (v : jsval) : list (string * value) :=
  match v with
  | Some x => [(key, x)]
  | None => []
  end.

(** Institutions *)
Definition listInstitutions (remote : Remote) (country : jsval) : M jsval :=
  (let params := VObj (if truthy country then optional "country" country
                       else []) in
   data <- apiRequest remote "GET" "/institutions/" (Some VNull) (Some params) ;;
   Eff.ret (js_or data (Some (VArr []))))%eff.

Definition getInstitution (remote : Remote) (institutionId : string)
  : M jsval :=
  apiRequest remote "GET" ("/institutions/" ++ institutionId ++ "/")
    (Some VNull) (Some VNull).

(** Agreements *)
Definition listAgreements (remote : Remote) (limit offset : jsval) : M jsval :=
  (let params := VObj [("limit", or_default (VNum 100) limit);
                       ("offset", or_default (VNum 0) offset)] in
   data <- apiRequest remote "GET" "/agreements/enduser/" (Some VNull)
             (Some params) ;;
   Eff.ret (js_or (member data "results") (Some (VArr []))))%eff.

Definition getAgreement (remote : Remote) (agreementId : string) : M jsval :=
  apiRequest remote "GET" ("/agreements/enduser/" ++ agreementId ++ "/")
    (Some VNull) (Some VNull).

(** [createAgreement({ institutionId, maxHistoricalDays = 90,
    accessValidForDays = 90, accessScope = [] })], the scope being a list
    when it is given. *)
Definition createAgreement (remote : Remote)
  (institutionId maxHistoricalDays accessValidForDays : jsval)
  (accessScope : option (list value)) : M jsval :=
  let accessScope := match accessScope with Some scope => scope | None => [] end in
  let body :=
    (optional "institution_id" institutionId
     ++ [("max_historical_days", or_default (VNum 90) maxHistoricalDays);
         ("access_valid_for_days", or_default (VNum 90) accessValidForDays)])%list
  in
  let body := if (0 <? Z.of_nat (length accessScope))
              then (body ++ [("access_scope", VArr accessScope)])%list
              else body in
  apiRequest remote "POST" "/agreements/enduser/" (Some (VObj body))
    (Some VNull).

Definition deleteAgreement (remote : Remote) (agreementId : string)
  : M jsval :=
  apiRequest remote "DELETE" ("/agreements/enduser/" ++ agreementId ++ "/")
    (Some VNull) (Some VNull).

Definition acceptAgreement (remote : Remote) (agreementId : string)
  (userAgent ipAddress : jsval) : M jsval :=
  let body := (optional "user_agent" userAgent
               ++ optional "ip_address" ipAddress)%list in
  apiRequest remote "PUT"
    ("/agreements/enduser/" ++ agreementId ++ "/accept/")
    (Some (VObj body)) (Some VNull).

(** Requisitions *)
Definition listRequisitions (remote : Remote) (limit offset : jsval)
  : M jsval :=
  (let params := VObj [("limit", or_default (VNum 100) limit);
                       ("offset", or_default (VNum 0) offset)] in
   data <- apiRequest remote "GET" "/requisitions/" (Some VNull)
             (Some params) ;;
   Eff.ret (js_or (member data "results") (Some (VArr []))))%eff.

Definition getRequisition (remote : Remote) (requisitionId : string)
  : M jsval :=
  apiRequest remote "GET" ("/requisitions/" ++ requisitionId ++ "/")
    (Some VNull) (Some VNull).

(** [createRequisition({ redirect, institutionId, reference, agreementId,
    userLanguage = 'EN' })] *)
Definition createRequisition (remote : Remote)
  (redirect institutionId reference agreementId userLanguage : jsval)
  : M jsval :=
  let body :=
    (optional "redirect" redirect
     ++ optional "institution_id" institutionId
     ++ optional "reference" reference
     ++ [("user_language", or_default (VStr "EN") userLanguage)])%list in
  let body := if truthy agreementId
              then (body ++ optional "agreement" agreementId)%list
              else body in
  apiRequest remote "POST" "/requisitions/" (Some (VObj body)) (Some VNull).

Definition deleteRequisition (remote : Remote) (requisitionId : string)
  : M jsval :=
  apiRequest remote "DELETE" ("/requisitions/" ++ requisitionId ++ "/")
    (Some VNull) (Some VNull).

(** Accounts *)
Definition getAccountMetadata (remote : Remote) (accountId : string)
  : M jsval :=
  apiRequest remote "GET" ("/accounts/" ++ accountId ++ "/")
    (Some VNull) (Some VNull).

Definition getAccountBalances (remote : Remote) (accountId : string)
  : M jsval :=
  apiRequest remote "GET" ("/accounts/" ++ accountId ++ "/balances/")
    (Some VNull) (Some VNull).

Definition getAccountDetails (remote : Remote) (accountId : string)
  : M jsval :=
  apiRequest remote "GET" ("/accounts/" ++ accountId ++ "/details/")
    (Some VNull) (Some VNull).

Definition getAccountTransactions (remote : Remote) (accountId : string)
  : M jsval :=
  apiRequest remote "GET" ("/accounts/" ++ accountId ++ "/transactions/")
    (Some VNull) (Some VNull).

End ComApi.

(** ** The [nordigencom] command line ([src/index.js])

    An action leaves lines on the console and possibly ends the process
    with an exit code.  A line is what one call of [console.log] or
    [console.error] is given; the spinner, which only draws on the
    terminal, is left out, and so is terminal styling. *)

Module ComCli.
Import Js.
Import ComApi.

Inductive Line : Type :=
| Out (text : string)    (* [console.log] *)
| Err (text : string).   (* [console.error] *)

Record Run : Type := mkRun {
  printed : list Line;
  exit_code : option Z     (* [process.exit(code)], if the action calls it *)
}.

(** The check mark and the cross, in UTF-8. *)
Definition check_mark : string :=
  String (ascii_of_N 226) (String (ascii_of_N 156) (String (ascii_of_N 147) "")).

Definition cross_mark : string :=
  String (ascii_of_N 226) (String (ascii_of_N 156) (String (ascii_of_N 151) "")).

Definition printSuccess (message : string) : list Line :=
  [Out (check_mark ++ " " ++ message)].

Definition printError (message : string) : list Line :=
  [Err (cross_mark ++ " " ++ message)].

(** *** [config set] *)

Record SetOptions : Type := mkSetOptions {
  secretId : option string;
  secretKey : option string
}.

(** An option that is given and not empty. *)
Definition given (option : option string) : bool :=
  truthy (option_map VStr option).

Definition config_set_action (options : SetOptions) : M (list Line) :=
  (l1 <- match secretId options with
         | Some id =>
             if given (Some id) then
               Eff.write (fun s => ComConfig.setConfig s "secretId" (VStr id)) ;;;
               Eff.ret (printSuccess "Secret ID set")
             else Eff.ret []
         | None => Eff.ret []
         end ;;
   l2 <- match secretKey options with
         | Some key =>
             if given (Some key) then
               Eff.write (fun s => ComConfig.setConfig s "secretKey" (VStr key)) ;;;
               Eff.ret (printSuccess "Secret Key set")
             else Eff.ret []
         | None => Eff.ret []
         end ;;
   let l3 := if negb (given (secretId options))
                && negb (given (secretKey options))
             then printError
                    "No options provided. Use --secret-id or --secret-key"
             else [] in
   Eff.ret (l1 ++ l2 ++ l3)%list)%eff.

(** *** [auth status]

    [toLocaleString] is how the terminal's locale writes the date that is
    so many milliseconds after the epoch. *)
Definition auth_status_action (toLocaleString : Z -> string) : M Run :=
  (accessToken <- getConfig "accessToken" ;;
   let hasToken := truthy accessToken in
   tokenExpiry <- getConfig "tokenExpiry" ;;
   if negb hasToken then
     Eff.ret (mkRun (printError "Not authenticated. Run: nordigencom auth login")
                (Some 1))
   else
     now <- Eff.date_now ;;
     let isValid := LibConfig.later_than tokenExpiry now in
     if isValid then
       Eff.ret
         (mkRun
            (printSuccess "Authenticated with Nordigen"
             ++ [Out ("Token expires: "
                      ++ match tokenExpiry with
                         | Some (VNum e) => toLocaleString e
                         | _ => "Invalid Date"
                         end)])%list
            None)
     else
       Eff.ret (mkRun (printError "Token expired. Run: nordigencom auth login")
                  (Some 1)))%eff.

(** *** [auth login] *)
Definition auth_login_action (remote : Remote) : M Run :=
  (configured <- Eff.read ComConfig.isConfigured ;;
   if negb configured then
     Eff.ret
       (mkRun
          (printError "Please configure your credentials first:"
           ++ [Out "  nordigencom config set --secret-id <id> --secret-key <key>"])%list
          (Some 1))
   else
     Eff.try_catch
       (listInstitutions remote (Some (VStr "GB")) ;;;
        Eff.ret (mkRun (printSuccess "Successfully authenticated with Nordigen")
                   None))
       (fun error => Eff.ret (mkRun (printError (message error)) (Some 1))))%eff.

(** *** [printTable]

    A column has a key, a label and possibly a function that formats the
    member of a row, which may throw but has no effect and gives the same
    result each time.  The rows are what the API listed: objects or null;
    a key is taken not to name a member that every object inherits.  A
    computation that may throw gives the error on the left, the value on
    the right. *)

Record Column : Type := mkColumn {
  key : string;
  label : string;
  format : option (jsval -> value -> Error + jsval)
}.

Definition TypeError (message : string) : Error := new_Error message.

(** The members that every object inherits: [row[key]] finds them in a row
    that does not list them, and [widths[key] = n] does not store under
    [__proto__]. *)
Definition inherited : list string :=
  ["__proto__"; "constructor"; "hasOwnProperty"; "isPrototypeOf";
   "propertyIsEnumerable"; "toLocaleString"; "toString"; "valueOf";
   "__defineGetter__"; "__defineSetter__"; "__lookupGetter__";
   "__lookupSetter__"].

Definition own_key (k : string) : bool :=
  negb (existsb (String.eqb k) inherited).

(** The rows of a table: objects, or null. *)
Definition is_record (row : value) : bool :=
  match row with
  | VObj _ | VNull => true
  | _ => false
  end.

(** [row[key]]: reading a member of null throws. *)
Definition index (row : value) (key : string) : Error + jsval :=
  match row with
  | VNull =>
      inl (TypeError
             ("Cannot read properties of null (reading '" ++ key ++ "')"))
  | VObj members => inr (lookup key members)
  | _ => inr None
  end.

(** [String(col.format ? col.format(row[col.key], row)
            : (row[col.key] ?? ''))] *)
Definition cell (col : Column) (row : value) : Error + string :=
  match index row (key col) with
  | inl e => inl e
  | inr v =>
      match format col with
      | Some f =>
          match f v row with
          | inl e => inl e
          | inr formatted => inr (show formatted)
          end
      | None =>
          inr (match v with
               | None | Some VNull => ""
               | Some x => toString x
               end)
      end
  end.

(** [widths[key] = n] and [widths[key]] *)
Fixpoint set_width (key : string) (n : nat) (widths : list (string * nat))
  : list (string * nat) :=
  match widths with
  | [] => [(key, n)]
  | (k, m) :: rest =>
      if (key =? k)%string then (key, n) :: rest
      else (k, m) :: set_width key n rest
  end.

Fixpoint width_of (key : string) (widths : list (string * nat)) : nat :=
  match widths with
  | [] => 0
  | (k, m) :: rest => if (key =? k)%string then m else width_of key rest
  end.

(** The inner loop over the rows: the width grows to the longest cell. *)
Fixpoint widest (col : Column) (rows : list value) (width : nat)
  : Error + nat :=
  match rows with
  | [] => inr width
  | row :: rest =>
      match cell col row with
      | inl e => inl e
      | inr val =>
          widest col rest
            (if (width <? String.length val)%nat then String.length val
             else width)
      end
  end.

(** The loop over the columns. *)
Fixpoint measure (columns : list Column) (rows : list value)
  (widths : list (string * nat)) : Error + list (string * nat) :=
  match columns with
  | [] => inr widths
  | col :: rest =>
      match widest col rows (String.length (label col)) with
      | inl e => inl e
      | inr width =>
          measure rest rows (set_width (key col) (Nat.min width 50) widths)
      end
  end.

Definition header_of (columns : list Column) (widths : list (string * nat))
  : string :=
  join "  "
    (map (fun col => Output.padEnd (label col) (width_of (key col) widths))
         columns).

(** The cells of one row, cut and padded to the widths. *)
Fixpoint cells_of (columns : list Column) (widths : list (string * nat))
  (row : value) : Error + list string :=
  match columns with
  | [] => inr []
  | col :: rest =>
      match cell col row with
      | inl e => inl e
      | inr val =>
          let width := width_of (key col) widths in
          match cells_of rest widths row with
          | inl e => inl e
          | inr cells =>
              inr (Output.padEnd (String.substring 0 width val) width :: cells)
          end
      end
  end.

(** The loop that prints the rows: the lines printed and the error, if a
    row throws. *)
Fixpoint print_rows (columns : list Column) (widths : list (string * nat))
  (rows : list value) : list Line * option Error :=
  match rows with
  | [] => ([], None)
  | row :: rest =>
      match cells_of columns widths row with
      | inl e => ([], Some e)
      | inr cells =>
          let (lines, thrown) := print_rows columns widths rest in
          (Out (join "  " cells) :: lines, thrown)
      end
  end.

(** The box-drawing dash, in UTF-8, and [dash.repeat(n)]. *)
Definition dash : string :=
  String (ascii_of_N 226) (String (ascii_of_N 148) (String (ascii_of_N 128) "")).

Fixpoint repeat_string (s : string) (n : nat) : string :=
  match n with
  | O => ""
  | S m => s ++ repeat_string s m
  end.

(** [printTable(data, columns)]: the lines it prints and the error it
    throws, if it throws. *)
Definition printTable (data : jsval) (columns : list Column)
  : list Line * option Error :=
  if negb (truthy data) then ([Out "No results found."], None)
  else
    match data with
    | Some (VArr []) => ([Out "No results found."], None)
    | Some (VArr rows) =>
        match measure columns rows [] with
        | inl e => ([], Some e)
        | inr widths =>
            let header := header_of columns widths in
            let top := [Out header;
                        Out (repeat_string dash (String.length header))] in
            match print_rows columns widths rows with
            | (lines, Some e) => (top ++ lines, Some e)%list
            | (lines, None) =>
                (top ++ lines
                 ++ [Out (newline ++ dec (Z.of_nat (length rows))
                            ++ " result(s)")],
                 None)%list
            end
        end
    | _ =>
        match columns with
        | [] =>
            ([Out ""; Out ""],
             Some (TypeError "data.forEach is not a function"))
        | _ => ([], Some (TypeError "data.forEach is not a function"))
        end
    end.

End ComCli.

(** ** The functions of [src/api.js], one by one *)

Module ComResources.
Import Js.
Import ComApi.

Inductive Operation : Type :=
| ListInstitutions (country : jsval)
| GetInstitution (institutionId : string)
| ListAgreements (limit offset : jsval)
| GetAgreement (agreementId : string)
| CreateAgreement (institutionId maxHistoricalDays accessValidForDays : jsval)
    (accessScope : option (list value))
| DeleteAgreement (agreementId : string)
| AcceptAgreement (agreementId : string) (userAgent ipAddress : jsval)
| ListRequisitions (limit offset : jsval)
| GetRequisition (requisitionId : string)
| CreateRequisition
    (redirect institutionId reference agreementId userLanguage : jsval)
| DeleteRequisition (requisitionId : string)
| GetAccountMetadata (accountId : string)
| GetAccountBalances (accountId : string)
| GetAccountDetails (accountId : string)
| GetAccountTransactions (accountId : string).

Definition perform (remote : Remote) (op : Operation) : M jsval :=
  match op with
  | ListInstitutions country => listInstitutions remote country
  | GetInstitution id => getInstitution remote id
  | ListAgreements limit offset => listAgreements remote limit offset
  | GetAgreement id => getAgreement remote id
  | CreateAgreement institutionId maxHistoricalDays accessValidForDays
      accessScope =>
      createAgreement remote institutionId maxHistoricalDays
        accessValidForDays accessScope
  | DeleteAgreement id => deleteAgreement remote id
  | AcceptAgreement id userAgent ipAddress =>
      acceptAgreement remote id userAgent ipAddress
  | ListRequisitions limit offset => listRequisitions remote limit offset
  | GetRequisition id => getRequisition remote id
  | CreateRequisition redirect institutionId reference agreementId
      userLanguage =>
      createRequisition remote redirect institutionId reference agreementId
        userLanguage
  | DeleteRequisition id => deleteRequisition remote id
  | GetAccountMetadata id => getAccountMetadata remote id
  | GetAccountBalances id => getAccountBalances remote id
  | GetAccountDetails id => getAccountDetails remote id
  | GetAccountTransactions id => getAccountTransactions remote id
  end.

(** The functions that return a list. *)
Definition lists (op : Operation) : bool :=
  match op with
  | ListInstitutions _ | ListAgreements _ _ | ListRequisitions _ _ => true
  | _ => false
  end.


Definition identifier (op : Operation) : option string :=
  match op with
  | GetInstitution id | GetAgreement id | DeleteAgreement id
  | AcceptAgreement id _ _ | GetRequisition id | DeleteRequisition id
  | GetAccountMetadata id | GetAccountBalances id | GetAccountDetails id
  | GetAccountTransactions id => Some id
  | _ => None
  end.

Definition plain_identifier (op : Operation) : bool :=
  match identifier op with
  | Some id => Resources.plain id
  | None => true
  end.

End ComResources.

(** ** The calls expected on the wire *)

Module Wire.
Import Js.

Definition json_headers : list (string * string) :=
  [("Content-Type", "application/json"); ("Accept", "application/json")].

(** The acquisition call of the [nordigen] client. *)
Definition lib_token_new (secretId secretKey : string) : LibApi.FetchCall :=
  LibApi.mkCall "https://ob.nordigen.com/api/v2/token/new/" "POST"
    json_headers
    (Some (stringify false
             (VObj [("secret_id", VStr secretId);
                    ("secret_key", VStr secretKey)]))).

(** The refresh call of the [nordigen] client. *)
Definition lib_token_refresh (token : value) : LibApi.FetchCall :=
  LibApi.mkCall "https://ob.nordigen.com/api/v2/token/refresh/" "POST"
    json_headers
    (Some (stringify false (VObj [("refresh", token)]))).

(** The acquisition call of the [nordigencom] client. *)
Definition com_token_new (secretId secretKey : value) : ComApi.AxiosCall :=
  ComApi.mkCall "post" "https://ob.nordigen.com/api/v2/token/new/" [] None
    (Some (VObj [("secret_id", secretId); ("secret_key", secretKey)])).


(** Whether a call goes to the acquisition endpoint, to the refresh
    endpoint. *)
Definition lib_is_acquisition (c : LibApi.FetchCall) : bool :=
  includes (LibApi.url c) "/token/new/".

Definition lib_is_refresh (c : LibApi.FetchCall) : bool :=
  includes (LibApi.url c) "/token/refresh/".

Definition com_is_acquisition (c : ComApi.AxiosCall) : bool :=
  includes (ComApi.url c) "/token/new/".

Definition com_is_refresh (c : ComApi.AxiosCall) : bool :=
  includes (ComApi.url c) "/token/refresh/".

(** The document of the [nordigencom] client once a grant has been saved:
    the access token, the refresh token when the grant carries a non-empty
    one, and the expiry of the access token in milliseconds. *)
Definition com_saved (s : Conf.store) (access : string) (refresh : jsval)
  (expiry_ms : Z) : Conf.store :=
  let s1 := ComConfig.setConfig s "accessToken" (VStr access) in
  let s2 := match refresh with
            | Some (VStr x) =>
                if truthy refresh
                then ComConfig.setConfig s1 "refreshToken" (VStr x) else s1
            | _ => s1
            end in
  ComConfig.setConfig s2 "tokenExpiry" (VNum expiry_ms).

(** A refresh member of a grant that [conf] accepts: none, a falsy one, or
    a string. *)
Definition storable_refresh (refresh : jsval) : Prop :=
  truthy refresh = false \/ exists x, refresh = Some (VStr x).

(** A value of a query that [request] puts into the URL: neither
    undefined nor null. *)
Definition defined (v : jsval) : bool :=
  match v with
  | None | Some VNull => false
  | Some _ => true
  end.

(** The number of calls to the acquisition endpoint among [calls]. *)
Definition com_acquisitions (calls : list ComApi.AxiosCall) : nat :=
  length (filter com_is_acquisition calls).

Definition lib_acquisitions (calls : list LibApi.FetchCall) : nat :=
  length (filter lib_is_acquisition calls).


Definition com_refreshes (calls : list ComApi.AxiosCall) : nat :=
  length (filter com_is_refresh calls).

End Wire.

(** ** What a step may change *)

Module Frame.
Import Js.

(** Of the document [s], only [auth.access_token] and [auth.access_expires]
    may read differently in [s']. *)
Definition access_only (s s' : Conf.store) : Prop :=
  (forall key rest,
      key <> "auth" -> Conf.get s' (key :: rest) = Conf.get s (key :: rest))
  /\ (forall k,
         k <> "access_token" -> k <> "access_expires" ->
         Conf.get s' ["auth"; k] = Conf.get s ["auth"; k]).

(** The same between two worlds of the [nordigen] client, no call being
    made and no time passing. *)
Definition lib_access_only (w w' : LibApi.World) : Prop :=
  Eff.sent w' = Eff.sent w /\ Eff.clock w' = Eff.clock w
  /\ access_only (Eff.conf w) (Eff.conf w').

(** The document still satisfies the schema of the [nordigen] client if it
    did. *)
Definition keeps_schema (w w' : LibApi.World) : Prop :=
  LibConfig.schema (Eff.conf w) = true ->
  LibConfig.schema (Eff.conf w') = true.

(** Of the document [s], only the members listed may read differently in
    [s']. *)
Definition members_only (members : list string) (s s' : Conf.store) : Prop :=
  forall key rest,
    ~ In key members -> Conf.get s' (key :: rest) = Conf.get s (key :: rest).

(** The same between two worlds of the [nordigencom] client, no call being
    made and no time passing. *)
Definition com_members_only (members : list string) (w w' : ComApi.World)
  : Prop :=
  Eff.sent w' = Eff.sent w /\ Eff.clock w' = Eff.clock w
  /\ members_only members (Eff.conf w) (Eff.conf w').

End Frame.

(** ** Documents that differ in their secrets only *)

Module Secrets.
Import Js.



End Secrets.

(** ** Sample documents, clocks and remote sides *)

Module Sample.
Import Js.

(** A document holding the token [tok1] with the given expiry. *)
Definition store_expiring (expires : Z) : Conf.store :=
  VObj [("auth", VObj [("access_token", VStr "tok1");
                       ("access_expires", VNum expires)])].

(** A document with credentials, a token pair and a default country. *)
Definition store_full : Conf.store :=
  VObj [("auth", VObj [("secret_id", VStr "A"); ("secret_key", VStr "B");
                       ("access_token", VStr "tok1");
                       ("refresh_token", VStr "ref1");
                       ("access_expires", VNum 1700003600);
                       ("refresh_expires", VNum 1702592000)]);
        ("defaults", VObj [("country", VStr "GB")])].



(** The grant of the scenario of the specification, and the answer to a
    refresh. *)
Definition grant : value :=
  VObj [("access", VStr "tok1"); ("refresh", VStr "ref1");
        ("access_expires", VNum 3600); ("refresh_expires", VNum 2592000)].

Definition refreshed : value :=
  VObj [("access", VStr "tok2"); ("access_expires", VNum 3600)].

Definition json_response (data : value) : LibApi.Response :=
  LibApi.mkResponse 200 "OK" (Some "application/json") (LibApi.Json data).

(** A remote side that grants what it is asked for, each round trip taking
    a quarter of a second. *)
Definition lib_granting : LibApi.Remote :=
  fun _ c =>
    if Wire.lib_is_acquisition c
    then (LibApi.Responded (json_response grant), 250)
    else if Wire.lib_is_refresh c
    then (LibApi.Responded (json_response refreshed), 250)
    else (LibApi.Responded (json_response (VArr [])), 250).

Definition com_granting : ComApi.Remote :=
  fun _ c =>
    if Wire.com_is_acquisition c
    then (ComApi.Resolved (ComApi.mkResponse 200 (Some grant)), 250)
    else if Wire.com_is_refresh c
    then (ComApi.Resolved (ComApi.mkResponse 200 (Some refreshed)), 250)
    else (ComApi.Resolved (ComApi.mkResponse 200 (Some (VArr []))), 250).


(** The answer of the error-handling test of [test/api.test.js]. *)
Definition unauthorized : LibApi.Response :=
  LibApi.mkResponse 401 "Unauthorized" (Some "application/json")
    (LibApi.Json (VObj [("status_code", VNum 401);
                        ("summary", VStr "Invalid token");
                        ("detail", VStr "Token is invalid or expired")])).

Definition lib_unauthorized : LibApi.Remote :=
  fun _ _ => (LibApi.Responded unauthorized, 250).





(** A valid access token in the [nordigencom] client. *)
Definition com_valid_access : Conf.store :=
  VObj [("secretId", VStr "A"); ("secretKey", VStr "B");
        ("accessToken", VStr "tok1"); ("refreshToken", VStr "ref1");
        ("tokenExpiry", VNum 1700003600000)].

(** The clock of the samples, in milliseconds. *)
Definition noon : Z := 1700000000000.

(** Credentials and nothing else, in the [nordigen] client. *)
Definition lib_credentials_only : Conf.store :=
  VObj [("auth", VObj [("secret_id", VStr "A"); ("secret_key", VStr "B")])].

(** An access token that has expired and a refresh token that has not. *)
Definition lib_expired_access : Conf.store :=
  VObj [("auth", VObj [("secret_id", VStr "A"); ("secret_key", VStr "B");
                       ("access_token", VStr "tok0");
                       ("refresh_token", VStr "ref1");
                       ("access_expires", VNum 1699999000);
                       ("refresh_expires", VNum 1702592000)])].

Definition lib_world (s : Conf.store) : LibApi.World := Eff.mkWorld s noon [].

(** The document of the [nordigencom] client with credentials and the
    defaults of its schema for the rest. *)
Definition com_credentials_only : Conf.store :=
  VObj [("secretId", VStr "A"); ("secretKey", VStr "B");
        ("accessToken", VStr ""); ("refreshToken", VStr "");
        ("tokenExpiry", VNum 0)].


Definition com_world (s : Conf.store) : ComApi.World := Eff.mkWorld s noon [].


(** Three institutions, as [GET /api/v2/institutions/?country=GB] lists
    them. *)
Definition institution (id name bic : string) : value :=
  VObj [("id", VStr id); ("name", VStr name); ("bic", VStr bic)].

Definition institutions : list value :=
  [institution "BARCLAYS_BUKBGB22" "Barclays Personal" "BUKBGB22";
   institution "REVOLUT_REVOGB21" "Revolut" "REVOGB21";
   institution "BARCLAYCARD_BUKBGB22" "Barclaycard UK" "BUKBGB22"].


(** The first columns of [institutions list]. *)
Definition columns : list ComCli.Column :=
  [ComCli.mkColumn "id" "ID" None;
   ComCli.mkColumn "name" "Name" None;
   ComCli.mkColumn "bic" "BIC" None;
   ComCli.mkColumn "transaction_total_days" "Transaction Days" None].

End Sample.

(** * Properties *)

(** ** Objects and dotted paths *)

Section Members.
Import Js.

Lemma lookup_assign_same (k : string) (v : value) (ms : list (string * value)) :
  lookup k (assign k v ms) = Some v.
Proof.
  induction ms as [|[k' v'] rest IH]; simpl.
  - now rewrite String.eqb_refl.
  - destruct (k =? k')%string eqn:E; simpl.
    + now rewrite String.eqb_refl.
    + now rewrite E.
Qed.

Lemma lookup_assign_other (k k' : string) (v : value)
  (ms : list (string * value)) :
  k <> k' -> lookup k' (assign k v ms) = lookup k' ms.
Proof.
  intros Hne.
  induction ms as [|[k0 v0] rest IH]; simpl.
  - destruct (k' =? k)%string eqn:E; [|reflexivity].
    apply String.eqb_eq in E. congruence.
  - destruct (k =? k0)%string eqn:E; simpl.
    + apply String.eqb_eq in E. subst k0.
      destruct (k' =? k)%string eqn:E'; [|reflexivity].
      apply String.eqb_eq in E'. congruence.
    + now rewrite IH.
Qed.

Lemma lookup_remove_same (k : string) (ms : list (string * value)) :
  lookup k (remove k ms) = None.
Proof.
  induction ms as [|[k' v'] rest IH]; simpl; [reflexivity|].
  destruct (k =? k')%string eqn:E; simpl; [assumption|].
  now rewrite E.
Qed.

Lemma lookup_remove_other (k k' : string) (ms : list (string * value)) :
  k <> k' -> lookup k' (remove k ms) = lookup k' ms.
Proof.
  intros Hne.
  induction ms as [|[k0 v0] rest IH]; simpl; [reflexivity|].
  destruct (k =? k0)%string eqn:E; simpl.
  - apply String.eqb_eq in E. subst k0.
    destruct (k' =? k)%string eqn:E'; [|assumption].
    apply String.eqb_eq in E'. congruence.
  - now rewrite IH.
Qed.

Lemma assign_assign_same (k : string) (v v' : value)
  (ms : list (string * value)) :
  assign k v' (assign k v ms) = assign k v' ms.
Proof.
  induction ms as [|[k0 v0] rest IH]; simpl.
  - now rewrite String.eqb_refl.
  - destruct (k =? k0)%string eqn:E; simpl.
    + now rewrite String.eqb_refl.
    + now rewrite E, IH.
Qed.


(** Reading back the path that was written. *)
Lemma get_set_same (path : list string) (s v : value) :
  Conf.get (Conf.set s path v) path = Some v.
Proof.
  revert s. induction path as [|k rest IH]; intros s; simpl; [reflexivity|].
  rewrite lookup_assign_same. apply IH.
Qed.

(** A write below one member of the document leaves the others alone. *)
Lemma get_set_other_head (k k' : string) (rest rest' : list string)
  (ms : list (string * value)) (v : value) :
  k <> k' ->
  Conf.get (Conf.set (VObj ms) (k :: rest) v) (k' :: rest')
  = Conf.get (VObj ms) (k' :: rest').
Proof.
  intros Hne. simpl. now rewrite lookup_assign_other.
Qed.

(** A write to one member of an object below [parent] leaves its siblings
    alone. *)
Lemma get_set_sibling (parent k k' : string) (s v : value) :
  k <> k' ->
  Conf.get (Conf.set s [parent; k] v) [parent; k']
  = Conf.get s [parent; k'].
Proof.
  intros Hne.
  cbn [Conf.set Conf.get]. rewrite lookup_assign_same.
  rewrite lookup_assign_other by assumption.
  destruct s as [|b|n|s0|items|ms]; try reflexivity.
  cbn [Conf.members_of].
  destruct (lookup parent ms) as [[|b|n|s0|items|c]|]; reflexivity.
Qed.

Lemma get_set_other_top (k k' : string) (rest rest' : list string)
  (s v : value) :
  k <> k' ->
  Conf.get (Conf.set s (k :: rest) v) (k' :: rest')
  = Conf.get s (k' :: rest').
Proof.
  intros Hne.
  destruct s as [|b|n|s0|items|ms]; try apply get_set_other_head; try assumption;
    simpl; rewrite lookup_assign_other by assumption; reflexivity.
Qed.

End Members.

(** ** The validity predicates of the token store *)

Section Validity.
Import Js.

Lemma opt_string_truthy (v : jsval) :
  Conf.opt_string v = true -> truthy v = true ->
  exists t, v = Some (VStr t) /\ t <> "".
Proof.
  destruct v as [[|b|n|t|items|ms]|]; simpl; try discriminate.
  intros _ H. exists t. split; [reflexivity|].
  intros ->. discriminate.
Qed.

Lemma opt_number_truthy (v : jsval) :
  Conf.opt_number v = true -> truthy v = true ->
  exists n, v = Some (VNum n) /\ n <> 0.
Proof.
  destruct v as [[|b|n|t|items|ms]|]; simpl; try discriminate.
  intros _ H. exists n. split; [reflexivity|].
  intros ->. discriminate.
Qed.

Lemma truthy_nonempty (t : string) : t <> "" -> truthy (Some (VStr t)) = true.
Proof.
  intros H. simpl. destruct (String.eqb_spec t ""); [contradiction|reflexivity].
Qed.

Lemma schema_access_token (s : Conf.store) :
  LibConfig.schema s = true ->
  Conf.opt_string (Conf.get s ["auth"; "access_token"]) = true.
Proof.
  unfold LibConfig.schema. destruct s; try discriminate.
  intros H. repeat (apply andb_prop in H; destruct H as [H ?]). assumption.
Qed.

Lemma schema_access_expires (s : Conf.store) :
  LibConfig.schema s = true ->
  Conf.opt_number (Conf.get s ["auth"; "access_expires"]) = true.
Proof.
  unfold LibConfig.schema. destruct s; try discriminate.
  intros H. repeat (apply andb_prop in H; destruct H as [H ?]). assumption.
Qed.

Lemma seconds_nonneg (clock_ms : Z) : 0 <= clock_ms -> 0 <= LibConfig.seconds clock_ms.
Proof. intros H. unfold LibConfig.seconds. apply Z.div_pos; lia. Qed.

(** C2.  For every stored document that the schema admits and every clock
    at or after the epoch, [isAccessTokenValid()] answers true exactly when
    an access token is stored (a string that is not empty), an expiry is
    stored, and the expiry is greater than now plus sixty seconds, now being
    the clock in whole seconds.  An expiry of exactly now plus sixty seconds
    is not valid, and neither is a document with no token or no expiry. *)
Theorem isAccessTokenValid_iff (s : Conf.store) (clock_ms : Z) :
  LibConfig.schema s = true ->
  0 <= clock_ms ->
  (LibConfig.isAccessTokenValid s clock_ms = true <->
   exists token expires,
     Conf.get s ["auth"; "access_token"] = Some (VStr token)
     /\ token <> ""
     /\ Conf.get s ["auth"; "access_expires"] = Some (VNum expires)
     /\ expires > LibConfig.seconds clock_ms + 60)
  /\ (forall token,
        Conf.get s ["auth"; "access_token"] = Some (VStr token) ->
        Conf.get s ["auth"; "access_expires"]
        = Some (VNum (LibConfig.seconds clock_ms + 60)) ->
        LibConfig.isAccessTokenValid s clock_ms = false)
  /\ (Conf.get s ["auth"; "access_token"] = None
      \/ Conf.get s ["auth"; "access_expires"] = None ->
      LibConfig.isAccessTokenValid s clock_ms = false).
Proof.
  intros Hschema Hclock.
  pose proof (schema_access_token s Hschema) as Htok.
  pose proof (schema_access_expires s Hschema) as Hexp.
  pose proof (seconds_nonneg clock_ms Hclock) as Hnow.
  unfold LibConfig.isAccessTokenValid.
  repeat split.
  - intros H.
    destruct (truthy (Conf.get s ["auth"; "access_token"])) eqn:Et;
      [|discriminate].
    destruct (truthy (Conf.get s ["auth"; "access_expires"])) eqn:Ee;
      [|discriminate].
    destruct (opt_string_truthy _ Htok Et) as (token & Ht & Hne).
    destruct (opt_number_truthy _ Hexp Ee) as (expires & He & _).
    exists token, expires. rewrite Ht, He in *. simpl in H.
    apply Z.ltb_lt in H. repeat split; try assumption; try reflexivity. lia.
  - intros (token & expires & Ht & Hne & He & Hgt).
    rewrite Ht, He. rewrite truthy_nonempty by assumption.
    assert (Hnz : truthy (Some (VNum expires)) = true).
    { simpl. destruct (Z.eqb_spec expires 0); [lia|reflexivity]. }
    rewrite Hnz. simpl. apply Z.ltb_lt. lia.
  - intros token Ht He. rewrite Ht, He.
    destruct (truthy (Some (VStr token))); [|reflexivity].
    destruct (truthy (Some (VNum (LibConfig.seconds clock_ms + 60))));
      [|reflexivity].
    simpl. apply Z.ltb_irrefl.
  - intros [H|H]; rewrite H; simpl; [reflexivity|].
    now rewrite orb_true_r.
Qed.

Lemma isAccessTokenValid_iff_witness :
  LibConfig.isAccessTokenValid (Sample.store_expiring 1700003600) 1700000000000 = true
  /\ LibConfig.isAccessTokenValid (Sample.store_expiring 1700000030) 1700000000000
     = false
  /\ LibConfig.isAccessTokenValid (Sample.store_expiring 1700000060) 1700000000000
     = false.
Proof.
  split; [|split].
  - apply (proj1 (isAccessTokenValid_iff (Sample.store_expiring 1700003600)
                    1700000000000 eq_refl ltac:(lia))).
    exists "tok1", 1700003600.
    split; [reflexivity|]. split; [discriminate|].
    split; [reflexivity|]. vm_compute. reflexivity.
  - reflexivity.
  - apply (proj1 (proj2 (isAccessTokenValid_iff (Sample.store_expiring 1700000060)
                           1700000000000 eq_refl ltac:(lia))) "tok1");
      reflexivity.
Defined.

End Validity.

(** ** Clearing the token store *)

Section Clearing.
Import Js.

Lemma get_delete_same (s : value) (key : string) (path : list string) :
  Conf.get (Conf.delete s [key]) (key :: path) = None.
Proof.
  destruct s as [|b|n|s0|items|ms]; try reflexivity.
  simpl. now rewrite lookup_remove_same.
Qed.

Lemma get_delete_other (s : value) (key key' : string) (path : list string) :
  key <> key' ->
  Conf.get (Conf.delete s [key]) (key' :: path) = Conf.get s (key' :: path).
Proof.
  intros Hne. destruct s as [|b|n|s0|items|ms]; try reflexivity.
  simpl. now rewrite lookup_remove_other.
Qed.

(** C5, as the code has it.  [logout()] removes the [auth] member of the
    persisted document, so that no credential and no token can be read
    afterwards, and leaves every member outside [auth] (the default country,
    say) as it was; it touches neither the clock nor the network.
    [clear()], the action of [config clear], empties the whole document,
    the members outside [auth] included. *)
Theorem logout_keeps_other_members (w : LibApi.World) :
  (exists w',
      LibAuth.logout w = (Eff.Returned tt, w')
      /\ (forall path, Conf.get (Eff.conf w') ("auth" :: path) = None)
      /\ (forall key path,
             key <> "auth" ->
             Conf.get (Eff.conf w') (key :: path)
             = Conf.get (Eff.conf w) (key :: path))
      /\ Eff.clock w' = Eff.clock w
      /\ Eff.sent w' = Eff.sent w)
  /\ (forall s key path, Conf.get (LibConfig.clear s) (key :: path) = None).
Proof.
  split.
  - eexists. split; [reflexivity|]. simpl. repeat split.
    + intros path. apply get_delete_same.
    + intros key path Hne. apply get_delete_other. congruence.
  - reflexivity.
Qed.

Lemma logout_keeps_other_members_witness :
  Conf.get
    (Eff.conf (snd (LibAuth.logout (Sample.lib_world Sample.store_full))))
    ["defaults"; "country"]
  = Some (VStr "GB")
  /\ Conf.get
       (Eff.conf (snd (LibAuth.logout (Sample.lib_world Sample.store_full))))
       ["auth"; "access_token"]
     = None.
Proof.
  destruct (proj1 (logout_keeps_other_members
                     (Sample.lib_world Sample.store_full)))
    as (w' & Hrun & Hauth & Hother & _).
  rewrite Hrun. cbn [snd]. split.
  - rewrite (Hother "defaults" ["country"]) by discriminate. reflexivity.
  - apply Hauth.
Defined.

(** C5 as stated fails for [clear()]: a default country set before it is
    gone after it. *)
Lemma clear_drops_default_country :
  Conf.get Sample.store_full ["defaults"; "country"] = Some (VStr "GB")
  /\ Conf.get (LibConfig.clear Sample.store_full) ["defaults"; "country"]
     = None
  /\ Conf.get (CmdConfig.clear_action Sample.store_full)
       ["defaults"; "country"] = None.
Proof. repeat split. Qed.

End Clearing.

(** ** What [config show] reveals *)

Section ConfigShow.
Import Js.
Import CmdConfig.

Lemma set_set_same2 (parent k : string) (d v v' : value) :
  Conf.set (Conf.set d [parent; k] v) [parent; k] v'
  = Conf.set d [parent; k] v'.
Proof.
  cbn [Conf.set Conf.members_of]. rewrite lookup_assign_same.
  cbn [Conf.members_of].
  now rewrite !assign_assign_same.
Qed.




















End ConfigShow.

(** ** The request pipeline of [src/lib/api.js] *)

Section LibRequest.
Import Js.
Import LibApi.

Variable remote : Remote.

Lemma includes_nonempty (ct : string) :
  includes ct "application/json" = true -> (ct =? "")%string = false.
Proof. destruct ct; [discriminate|reflexivity]. Qed.

Lemma read_data_world (r : Response) (w : World) :
  snd (read_data r w) = w.
Proof.
  unfold read_data.
  destruct (contentType r) as [ct|]; [|reflexivity].
  destruct (negb (ct =? "")%string && includes ct "application/json");
    [|reflexivity].
  destruct (payload r); reflexivity.
Qed.

Lemma handle_response_world (r : Response) (w : World) :
  snd (handle_response r w) = w.
Proof.
  unfold handle_response, Eff.bind.
  pose proof (read_data_world r w) as H.
  destruct (read_data r w) as [[data|e] w']; simpl in H; subst w';
    [|reflexivity].
  destruct (negb (ok r)); [|reflexivity].
  destruct data; reflexivity.
Qed.

Lemma handle_response_delivers (r : Response) (data : value) (w : World) :
  delivers r data -> handle_response r w = (Eff.Returned data, w).
Proof.
  intros (Hok & (ct & Hct & Hinc) & Hp).
  unfold handle_response, Eff.bind, read_data.
  rewrite Hct, Hinc, (includes_nonempty ct Hinc), Hp, Hok. reflexivity.
Qed.


(** [request] issues exactly one call, whatever comes back, and never
    writes the persisted document. *)
Lemma request_world (self : NordigenAPI) (method endpoint : string)
  (options : Options) (w : World) :
  snd (request remote self method endpoint options w)
  = Eff.settled remote (outgoing self method endpoint options) w.
Proof.
  unfold request, Eff.bind, Eff.await.
  destruct (Eff.answer remote _ w) as [r|e]; [|reflexivity].
  apply handle_response_world.
Qed.

Lemma request_responded (self : NordigenAPI) (method endpoint : string)
  (options : Options) (w : World) (r : Response) :
  Eff.answer remote (outgoing self method endpoint options) w = Responded r ->
  request remote self method endpoint options w
  = handle_response r
      (Eff.settled remote (outgoing self method endpoint options) w).
Proof.
  intros H. unfold request, Eff.bind, Eff.await. now rewrite H.
Qed.


End LibRequest.

(** ** The token lifecycle of [src/lib/auth.js] *)

Section LibLifecycle.
Import Js.
Import LibApi.

Variable remote : Remote.

(** The token calls carry no Authorization header, whatever token the
    client holds. *)
Lemma outgoing_token_new (self : NordigenAPI) (secretId secretKey : string) :
  baseURL self = BASE_URL ->
  outgoing self "POST" "/api/v2/token/new/"
    (mkOptions (Some (VObj [("secret_id", VStr secretId);
                            ("secret_key", VStr secretKey)])) None false)
  = Wire.lib_token_new secretId secretKey.
Proof. intros H. unfold outgoing. rewrite H. reflexivity. Qed.

Lemma outgoing_token_refresh (self : NordigenAPI) (token : value) :
  baseURL self = BASE_URL ->
  outgoing self "POST" "/api/v2/token/refresh/"
    (mkOptions (Some (VObj [("refresh", token)])) None false)
  = Wire.lib_token_refresh token.
Proof. intros H. unfold outgoing. rewrite H. reflexivity. Qed.

(** With a valid access token [ensureAuth] returns the stored token and
    leaves the world as it is. *)
Lemma ensureAuth_valid (w : World) :
  LibConfig.isAccessTokenValid (Eff.conf w) (Eff.clock w) = true ->
  LibAuth.ensureAuth remote w
  = (Eff.Returned (Conf.get (Eff.conf w) ["auth"; "access_token"]), w).
Proof.
  intros H. unfold LibAuth.ensureAuth, LibAuth.isAccessTokenValid, Eff.bind,
    Eff.date_now, Eff.read. now rewrite H.
Qed.

(** With neither token valid [ensureAuth] throws without any call. *)
Lemma ensureAuth_no_token (w : World) :
  LibConfig.isAccessTokenValid (Eff.conf w) (Eff.clock w) = false ->
  LibConfig.isRefreshTokenValid (Eff.conf w) (Eff.clock w) = false ->
  LibAuth.ensureAuth remote w = (Eff.Thrown LibAuth.not_authenticated, w).
Proof.
  intros Ha Hr. unfold LibAuth.ensureAuth, LibAuth.isAccessTokenValid,
    LibAuth.isRefreshTokenValid, Eff.bind, Eff.date_now, Eff.read.
  now rewrite Ha, Hr.
Qed.

Lemma refresh_valid_token (s : Conf.store) (clock_ms : Z) :
  LibConfig.isRefreshTokenValid s clock_ms = true ->
  exists token, Conf.get s ["auth"; "refresh_token"] = Some token.
Proof.
  unfold LibConfig.isRefreshTokenValid.
  destruct (Conf.get s ["auth"; "refresh_token"]) as [token|];
    [eauto|discriminate].
Qed.

End LibLifecycle.

(** ** Running a sequence of effects *)

Section Running.

Context {Call Err : Type}.

Lemma bind_returned {A B} (m : Eff.M Call Err A) (k : A -> Eff.M Call Err B)
  (w w' : Eff.World Call) (a : A) :
  m w = (Eff.Returned a, w') -> Eff.bind m k w = k a w'.
Proof. intros H. unfold Eff.bind. now rewrite H. Qed.

Lemma bind_thrown {A B} (m : Eff.M Call Err A) (k : A -> Eff.M Call Err B)
  (w w' : Eff.World Call) (e : Err) :
  m w = (Eff.Thrown e, w') -> Eff.bind m k w = (Eff.Thrown e, w').
Proof. intros H. unfold Eff.bind. now rewrite H. Qed.

Lemma try_catch_returned {A} (m : Eff.M Call Err A)
  (h : Err -> Eff.M Call Err A) (w w' : Eff.World Call) (a : A) :
  m w = (Eff.Returned a, w') -> Eff.try_catch m h w = (Eff.Returned a, w').
Proof. intros H. unfold Eff.try_catch. now rewrite H. Qed.


(** A relation between the world before and the world after that every
    step of a sequence maintains is maintained by the sequence. *)
Variable R : Eff.World Call -> Eff.World Call -> Prop.
Hypothesis R_refl : forall w, R w w.
Hypothesis R_trans : forall w1 w2 w3, R w1 w2 -> R w2 w3 -> R w1 w3.

Lemma maintains_ret {A} (a : A) :
  Eff.maintains R (@Eff.ret Call Err A a).
Proof. intros w. apply R_refl. Qed.

Lemma maintains_throw {A} (e : Err) :
  Eff.maintains R (@Eff.throw Call Err A e).
Proof. intros w. apply R_refl. Qed.

Lemma maintains_read {A} (f : Conf.store -> A) :
  Eff.maintains R (@Eff.read Call Err A f).
Proof. intros w. apply R_refl. Qed.

Lemma maintains_date_now : Eff.maintains R (@Eff.date_now Call Err).
Proof. intros w. apply R_refl. Qed.

Lemma maintains_bind {A B} (m : Eff.M Call Err A)
  (k : A -> Eff.M Call Err B) :
  Eff.maintains R m -> (forall a, Eff.maintains R (k a)) ->
  Eff.maintains R (Eff.bind m k).
Proof.
  intros Hm Hk w. unfold Eff.bind.
  specialize (Hm w). destruct (m w) as [[a|e] w1]; simpl in *.
  - eapply R_trans; [exact Hm|apply Hk].
  - exact Hm.
Qed.

Lemma maintains_try_catch {A} (m : Eff.M Call Err A)
  (h : Err -> Eff.M Call Err A) :
  Eff.maintains R m -> (forall e, Eff.maintains R (h e)) ->
  Eff.maintains R (Eff.try_catch m h).
Proof.
  intros Hm Hh w. unfold Eff.try_catch.
  specialize (Hm w). destruct (m w) as [[a|e] w1]; simpl in *.
  - exact Hm.
  - eapply R_trans; [exact Hm|apply Hh].
Qed.

End Running.

(** ** Refreshing in [src/lib/auth.js] *)

Section LibRefresh.
Import Js.
Import LibApi.

Variable remote : Remote.

Lemma access_only_refl (s : Conf.store) : Frame.access_only s s.
Proof. split; reflexivity. Qed.

Lemma access_only_trans (s1 s2 s3 : Conf.store) :
  Frame.access_only s1 s2 -> Frame.access_only s2 s3 ->
  Frame.access_only s1 s3.
Proof.
  intros [H1 H2] [H3 H4]. split.
  - intros key rest Hne. now rewrite H3, H1.
  - intros k Ha He. now rewrite H4, H2.
Qed.

Lemma lib_access_only_refl (w : World) : Frame.lib_access_only w w.
Proof. repeat split. Qed.

Lemma lib_access_only_trans (w1 w2 w3 : World) :
  Frame.lib_access_only w1 w2 -> Frame.lib_access_only w2 w3 ->
  Frame.lib_access_only w1 w3.
Proof.
  intros (Hs & Hc & Ha) (Hs' & Hc' & Ha'). split; [congruence|].
  split; [congruence|]. eapply access_only_trans; eassumption.
Qed.

Lemma access_only_set (s v : value) (k : string) :
  k = "access_token" \/ k = "access_expires" ->
  Frame.access_only s (Conf.set s ["auth"; k] v).
Proof.
  intros Hk. split.
  - intros key rest Hne. apply get_set_other_top. congruence.
  - intros k' Ha He. apply get_set_sibling. destruct Hk; congruence.
Qed.

Lemma maintains_prop (data : value) (key : string) :
  Eff.maintains Frame.lib_access_only (LibAuth.prop data key).
Proof.
  intros w. destruct data; apply lib_access_only_refl.
Qed.

Lemma maintains_set_string (k : string) (v : jsval) :
  k = "access_token" \/ k = "access_expires" ->
  Eff.maintains Frame.lib_access_only (LibAuth.set_string ["auth"; k] v).
Proof.
  intros Hk w. unfold LibAuth.set_string.
  destruct v as [[|b|n|x|items|ms]|]; try apply lib_access_only_refl.
  split; [reflexivity|]. split; [reflexivity|]. now apply access_only_set.
Qed.

Lemma maintains_set_number (k : string) (v : jsval) :
  k = "access_token" \/ k = "access_expires" ->
  Eff.maintains Frame.lib_access_only (LibAuth.set_number ["auth"; k] v).
Proof.
  intros Hk w. unfold LibAuth.set_number.
  destruct v as [[|b|n|x|items|ms]|]; try apply lib_access_only_refl.
  split; [reflexivity|]. split; [reflexivity|]. now apply access_only_set.
Qed.

(** Whatever the remote side answers, the [try] block of [ensureAuth]
    issues the refresh call and nothing else, and writes nothing but the
    access token and its expiry. *)
Lemma refresh_and_save_world (api : NordigenAPI) (token : value) (w : World) :
  baseURL api = BASE_URL ->
  Frame.lib_access_only
    (Eff.settled remote (Wire.lib_token_refresh token) w)
    (snd (LibAuth.refresh_and_save remote api (Some token) w)).
Proof.
  intros Hbase. unfold LibAuth.refresh_and_save, LibApi.refreshToken, post.
  cbn [opt_query opt_auth].
  pose proof (request_world remote api "POST" "/api/v2/token/refresh/"
                (mkOptions (Some (VObj [("refresh", token)])) None false) w)
    as Hw.
  rewrite outgoing_token_refresh in Hw by assumption.
  unfold Eff.bind at 1.
  destruct (request remote api "POST" "/api/v2/token/refresh/" _ w)
    as [[result|e] w1]; simpl in Hw; subst w1;
    [|apply lib_access_only_refl].
  apply (maintains_bind Frame.lib_access_only lib_access_only_trans).
  { apply maintains_date_now, lib_access_only_refl. }
  intros ms.
  repeat (first
    [ apply (maintains_bind Frame.lib_access_only lib_access_only_trans);
      [|intros ?]
    | apply maintains_prop
    | apply maintains_set_string; auto
    | apply maintains_set_number; auto ]).
Qed.

(** The refresh branch of [ensureAuth]. *)
Lemma ensureAuth_refresh_branch (w : World) (token : value) :
  LibConfig.isAccessTokenValid (Eff.conf w) (Eff.clock w) = false ->
  LibConfig.isRefreshTokenValid (Eff.conf w) (Eff.clock w) = true ->
  Conf.get (Eff.conf w) ["auth"; "refresh_token"] = Some token ->
  exists api,
    baseURL api = BASE_URL
    /\ LibAuth.ensureAuth remote w
       = Eff.try_catch (LibAuth.refresh_and_save remote api (Some token))
           (fun _ => Eff.throw LibAuth.refresh_failed) w.
Proof.
  intros Ha Hr Ht. eexists. split; [|].
  2: { unfold LibAuth.ensureAuth, LibAuth.isAccessTokenValid,
         LibAuth.isRefreshTokenValid.
       unfold Eff.bind at 1. unfold Eff.bind at 1.
       cbn [Eff.date_now Eff.read]. rewrite Ha.
       unfold Eff.bind at 1. unfold Eff.bind at 1.
       cbn [Eff.date_now Eff.read]. rewrite Hr.
       unfold Eff.bind at 1. cbn [Eff.read]. rewrite Ht.
       unfold Eff.bind at 1. cbn [createClient constructor Eff.read].
       reflexivity. }
  reflexivity.
Qed.

Lemma member_object (data : value) (key : string) (v : value) :
  member data key = Some v -> exists ms, data = VObj ms.
Proof. destruct data; try discriminate. eauto. Qed.



End LibRefresh.

(** ** The token lifecycle of [src/api.js] *)

Section ComLifecycle.
Import Js.
Import ComApi.

Variable remote : Remote.

Lemma axios_resolved (c : AxiosCall) (w : World) (r : AxiosResponse) :
  Eff.answer remote c w = Resolved r ->
  axios remote c w = (Eff.Returned r, Eff.settled remote c w).
Proof.
  intros H. unfold axios, Eff.bind, Eff.await. now rewrite H.
Qed.


Lemma axios_world (c : AxiosCall) (w : World) :
  snd (axios remote c w) = Eff.settled remote c w.
Proof.
  unfold axios, Eff.bind, Eff.await.
  destruct (Eff.answer remote c w); reflexivity.
Qed.

Lemma members_only_refl (members : list string) (s : Conf.store) :
  Frame.members_only members s s.
Proof. intros key rest _. reflexivity. Qed.

Lemma members_only_trans (members : list string) (s1 s2 s3 : Conf.store) :
  Frame.members_only members s1 s2 -> Frame.members_only members s2 s3 ->
  Frame.members_only members s1 s3.
Proof.
  intros H1 H2 key rest Hn. now rewrite H2, H1.
Qed.

Lemma com_members_only_refl (members : list string) (w : World) :
  Frame.com_members_only members w w.
Proof. split; [reflexivity|]. split; [reflexivity|]. apply members_only_refl. Qed.

Lemma com_members_only_trans (members : list string) (w1 w2 w3 : World) :
  Frame.com_members_only members w1 w2 ->
  Frame.com_members_only members w2 w3 ->
  Frame.com_members_only members w1 w3.
Proof.
  intros (Hs & Hc & Ha) (Hs' & Hc' & Ha'). split; [congruence|].
  split; [congruence|]. eapply members_only_trans; eassumption.
Qed.

Lemma members_only_set (members : list string) (s v : value) (k : string) :
  In k members ->
  Frame.members_only members s (ComConfig.setConfig s k v).
Proof.
  intros Hin key rest Hn. unfold ComConfig.setConfig.
  apply get_set_other_top. intros ->. contradiction.
Qed.

Lemma maintains_com_set_string (members : list string) (k : string)
  (v : jsval) :
  In k members ->
  Eff.maintains (Frame.com_members_only members) (set_string k v).
Proof.
  intros Hk w. unfold set_string.
  destruct v as [[|b|n|x|items|ms]|]; try apply com_members_only_refl.
  split; [reflexivity|]. split; [reflexivity|]. now apply members_only_set.
Qed.

Lemma maintains_com_set_number (members : list string) (k : string)
  (v : jsval) :
  In k members ->
  Eff.maintains (Frame.com_members_only members) (set_number k v).
Proof.
  intros Hk w. unfold set_number.
  destruct v as [[|b|n|x|items|ms]|]; try apply com_members_only_refl.
  split; [reflexivity|]. split; [reflexivity|]. now apply members_only_set.
Qed.

Lemma maintains_destructure (members : list string) (data : jsval) :
  Eff.maintains (Frame.com_members_only members) (destructure data).
Proof.
  intros w. destruct data as [[|b|n|x|items|ms]|];
    apply com_members_only_refl.
Qed.

(** Whatever the remote side answers, the [try] block of
    [obtainAccessToken] issues the acquisition call and nothing else, and
    writes nothing but the access token, the refresh token and the expiry
    of the access token. *)
Lemma acquire_and_save_world (secretId secretKey : value) (w : World) :
  Frame.com_members_only ["accessToken"; "refreshToken"; "tokenExpiry"]
    (Eff.settled remote (Wire.com_token_new secretId secretKey) w)
    (snd (acquire_and_save remote (Some secretId) (Some secretKey) w)).
Proof.
  unfold acquire_and_save, axios_post.
  pose proof (axios_world (Wire.com_token_new secretId secretKey) w) as Hw.
  unfold Eff.bind at 1. unfold Wire.com_token_new in *.
  cbn [app NORDIGEN_BASE_URL append] in *.
  destruct (axios remote _ w) as [[response|e] w1]; simpl in Hw; subst w1;
    [|apply com_members_only_refl].
  set (R := Frame.com_members_only
              ["accessToken"; "refreshToken"; "tokenExpiry"]).
  assert (Htrans : forall w1 w2 w3, R w1 w2 -> R w2 w3 -> R w1 w3)
    by apply com_members_only_trans.
  assert (Hrefl : forall w0, R w0 w0) by apply com_members_only_refl.
  repeat (first
    [ apply (maintains_bind R Htrans); [|intros ?]
    | apply maintains_destructure
    | apply maintains_com_set_string; simpl; tauto
    | apply maintains_com_set_number; simpl; tauto
    | apply maintains_date_now; assumption
    | apply maintains_ret; assumption
    | match goal with
      | |- Eff.maintains _ (if ?b then _ else _) => destruct b
      end ]).
Qed.


Lemma com_member_object (data : value) (key : string) (v : value) :
  member (Some data) key = Some v -> exists ms, data = VObj ms.
Proof. destruct data; try discriminate. eauto. Qed.

(** When the acquisition call is answered with a grant, the [try] block
    saves it, the expiry being counted from the moment the answer arrived,
    and returns the access token. *)
Lemma acquire_and_save_success (secretId secretKey : value) (w : World)
  (r : AxiosResponse) (data : value) (a : string) (n : Z) :
  Eff.answer remote (Wire.com_token_new secretId secretKey) w = Resolved r ->
  response_data r = Some data ->
  member (Some data) "access" = Some (VStr a) ->
  member (Some data) "access_expires" = Some (VNum n) ->
  Wire.storable_refresh (member (Some data) "refresh") ->
  acquire_and_save remote (Some secretId) (Some secretKey) w
  = (Eff.Returned (Some (VStr a)),
     let w1 := Eff.settled remote (Wire.com_token_new secretId secretKey) w in
     Eff.mkWorld
       (Wire.com_saved (Eff.conf w) a (member (Some data) "refresh")
          (Eff.clock w1 + n * 1000))
       (Eff.clock w1) (Eff.sent w1)).
Proof.
  intros Hr Hd Ha Hn Hrf.
  destruct (com_member_object _ _ _ Ha) as (ms & ->).
  unfold acquire_and_save, axios_post.
  change (mkCall "post" (NORDIGEN_BASE_URL ++ "/token/new/") [] None
            (Some (VObj ([("secret_id", secretId)] ++ [("secret_key", secretKey)]))))
    with (Wire.com_token_new secretId secretKey).
  rewrite (bind_returned _ _ _ _ _ (axios_resolved _ w r Hr)).
  rewrite Hd. unfold Eff.bind, destructure. cbn [Eff.ret].
  rewrite Ha. cbn [set_string Eff.write]. rewrite Hn.
  unfold Wire.com_saved.
  destruct Hrf as [Hf|(x & Hx)].
  - rewrite Hf. destruct (member (Some (VObj ms)) "refresh") as [[|b|m|x|items|ms']|];
      reflexivity.
  - rewrite Hx. destruct (truthy (Some (VStr x))); reflexivity.
Qed.


Lemma obtainAccessToken_no_credentials (w : World) :
  ComConfig.isConfigured (Eff.conf w) = false ->
  obtainAccessToken remote w = (Eff.Thrown credentials_not_configured, w).
Proof.
  unfold ComConfig.isConfigured, obtainAccessToken, Eff.bind, getConfig,
    Eff.read.
  intros H.
  destruct (truthy (ComConfig.getConfig (Eff.conf w) "secretId"));
    destruct (truthy (ComConfig.getConfig (Eff.conf w) "secretKey"));
    try discriminate; reflexivity.
Qed.

Lemma obtainAccessToken_configured (w : World) (secretId secretKey : value) :
  ComConfig.getConfig (Eff.conf w) "secretId" = Some secretId ->
  ComConfig.getConfig (Eff.conf w) "secretKey" = Some secretKey ->
  ComConfig.isConfigured (Eff.conf w) = true ->
  obtainAccessToken remote w
  = Eff.try_catch
      (acquire_and_save remote (Some secretId) (Some secretKey))
      (fun error => Eff.throw (token_request_failed error)) w.
Proof.
  unfold ComConfig.isConfigured, obtainAccessToken, Eff.bind, getConfig,
    Eff.read.
  intros -> -> H. apply andb_prop in H. destruct H as [-> ->]. reflexivity.
Qed.

Lemma getAccessToken_valid (w : World) :
  ComConfig.hasValidToken (Eff.conf w) (Eff.clock w) = true ->
  getAccessToken remote w
  = (Eff.Returned (ComConfig.getConfig (Eff.conf w) "accessToken"), w).
Proof.
  intros H. unfold getAccessToken, Eff.bind, Eff.date_now, Eff.read.
  now rewrite H.
Qed.

Lemma getAccessToken_no_refresh (w : World) :
  ComConfig.hasValidToken (Eff.conf w) (Eff.clock w) = false ->
  truthy (ComConfig.getConfig (Eff.conf w) "refreshToken") = false ->
  getAccessToken remote w = obtainAccessToken remote w.
Proof.
  intros H Hr. unfold getAccessToken, refreshAccessToken, getConfig,
    Eff.bind, Eff.date_now, Eff.read.
  now rewrite H, Hr.
Qed.


Lemma getConfig_set_same (s v : value) (k : string) :
  ComConfig.getConfig (ComConfig.setConfig s k v) k = Some v.
Proof.
  unfold ComConfig.getConfig, ComConfig.setConfig.
  now rewrite get_set_same.
Qed.

Lemma getConfig_set_other (s v : value) (k k' : string) :
  k <> k' ->
  ComConfig.getConfig (ComConfig.setConfig s k v) k'
  = ComConfig.getConfig s k'.
Proof.
  intros Hne. unfold ComConfig.getConfig, ComConfig.setConfig.
  now rewrite get_set_other_top.
Qed.

(** What can be read from the saved grant. *)
Lemma com_saved_reads (s : Conf.store) (a : string) (refresh : jsval)
  (expiry_ms : Z) :
  let s' := Wire.com_saved s a refresh expiry_ms in
  ComConfig.getConfig s' "accessToken" = Some (VStr a)
  /\ ComConfig.getConfig s' "tokenExpiry" = Some (VNum expiry_ms)
  /\ (forall x, refresh = Some (VStr x) -> x <> "" ->
                ComConfig.getConfig s' "refreshToken" = Some (VStr x))
  /\ (truthy refresh = false ->
      ComConfig.getConfig s' "refreshToken"
      = ComConfig.getConfig s "refreshToken")
  /\ Frame.members_only ["accessToken"; "refreshToken"; "tokenExpiry"] s s'.
Proof.
  unfold Wire.com_saved. cbv zeta.
  repeat split.
  - rewrite getConfig_set_other by discriminate.
    destruct refresh as [[|b|n|x|items|ms]|];
      try (apply getConfig_set_same).
    destruct (truthy (Some (VStr x))).
    + rewrite getConfig_set_other by discriminate. apply getConfig_set_same.
    + apply getConfig_set_same.
  - apply getConfig_set_same.
  - intros x -> Hx. rewrite getConfig_set_other by discriminate.
    rewrite truthy_nonempty by assumption. apply getConfig_set_same.
  - intros Hf. rewrite getConfig_set_other by discriminate.
    destruct refresh as [[|b|n|x|items|ms]|];
      try (apply getConfig_set_other; discriminate).
    rewrite Hf. apply getConfig_set_other. discriminate.
  - eapply members_only_trans; [|apply members_only_set; simpl; tauto].
    eapply members_only_trans; [apply members_only_set; simpl; tauto|].
    destruct refresh as [[|b|n|x|items|ms]|]; try apply members_only_refl.
    destruct (truthy (Some (VStr x))); [|apply members_only_refl].
    apply members_only_set. simpl. tauto.
Qed.


(** With credentials stored, [obtainAccessToken] makes the acquisition
    call and no other, whatever comes back. *)
Lemma obtainAccessToken_calls (w : World) (secretId secretKey : value) :
  ComConfig.getConfig (Eff.conf w) "secretId" = Some secretId ->
  ComConfig.getConfig (Eff.conf w) "secretKey" = Some secretKey ->
  ComConfig.isConfigured (Eff.conf w) = true ->
  Eff.sent (snd (obtainAccessToken remote w))
  = (Eff.sent w ++ [Wire.com_token_new secretId secretKey])%list.
Proof.
  intros Hid Hkey Hconf.
  rewrite (obtainAccessToken_configured w _ _ Hid Hkey Hconf).
  pose proof (acquire_and_save_world secretId secretKey w) as (Hsent & _).
  unfold Eff.try_catch.
  destruct (acquire_and_save remote (Some secretId) (Some secretKey) w)
    as [[v|e] w1]; exact Hsent.
Qed.



End ComLifecycle.

(** ** Acquiring a token when none is usable *)

Section Acquisition.
Import Js.

Lemma acquisitions_snoc_com (calls : list ComApi.AxiosCall)
  (c : ComApi.AxiosCall) :
  Wire.com_acquisitions (calls ++ [c])
  = (Wire.com_acquisitions calls
     + (if Wire.com_is_acquisition c then 1 else 0))%nat.
Proof.
  unfold Wire.com_acquisitions. rewrite filter_app, length_app. simpl.
  destruct (Wire.com_is_acquisition c); reflexivity.
Qed.

(** C1, as the code has it.  With no valid access token and no valid
    refresh token, [ensureAuth] of the [nordigen] client throws
    [Not authenticated] whether or not credentials are stored, and makes no
    call; acquisition is left to [login].  [getAccessToken] of the
    [nordigencom] client, with no valid access token and no refresh token,
    makes exactly one call, to the acquisition endpoint with the stored
    credentials, whatever comes back, and on a grant saves the access token
    with its expiry and the refresh token (when the grant has a non-empty
    one) and returns the access token; without credentials it throws
    [Credentials not configured] and makes no call. *)
Theorem acquisition_when_no_token :
  (forall (remote : LibApi.Remote) (w : LibApi.World),
      LibConfig.isAccessTokenValid (Eff.conf w) (Eff.clock w) = false ->
      LibConfig.isRefreshTokenValid (Eff.conf w) (Eff.clock w) = false ->
      LibAuth.ensureAuth remote w
      = (Eff.Thrown LibAuth.not_authenticated, w))
  /\ (forall (remote : ComApi.Remote) (w : ComApi.World)
             (secretId secretKey : value) (r : ComApi.AxiosResponse)
             (data : value) (a : string) (n : Z),
         ComConfig.hasValidToken (Eff.conf w) (Eff.clock w) = false ->
         truthy (ComConfig.getConfig (Eff.conf w) "refreshToken") = false ->
         ComConfig.getConfig (Eff.conf w) "secretId" = Some secretId ->
         ComConfig.getConfig (Eff.conf w) "secretKey" = Some secretKey ->
         ComConfig.isConfigured (Eff.conf w) = true ->
         Eff.answer remote (Wire.com_token_new secretId secretKey) w
         = ComApi.Resolved r ->
         ComApi.response_data r = Some data ->
         ComApi.member (Some data) "access" = Some (VStr a) ->
         ComApi.member (Some data) "access_expires" = Some (VNum n) ->
         Wire.storable_refresh (ComApi.member (Some data) "refresh") ->
         exists w',
           ComApi.getAccessToken remote w = (Eff.Returned (Some (VStr a)), w')
           /\ Eff.sent w'
              = (Eff.sent w ++ [Wire.com_token_new secretId secretKey])%list
           /\ Wire.com_acquisitions (Eff.sent w')
              = S (Wire.com_acquisitions (Eff.sent w))
           /\ Eff.conf w'
              = Wire.com_saved (Eff.conf w) a
                  (ComApi.member (Some data) "refresh")
                  (Eff.clock w' + n * 1000)
           /\ ComConfig.getConfig (Eff.conf w') "accessToken"
              = Some (VStr a)
           /\ ComConfig.getConfig (Eff.conf w') "tokenExpiry"
              = Some (VNum (Eff.clock w' + n * 1000)))
  /\ (forall (remote : ComApi.Remote) (w : ComApi.World)
             (secretId secretKey : value),
         ComConfig.hasValidToken (Eff.conf w) (Eff.clock w) = false ->
         truthy (ComConfig.getConfig (Eff.conf w) "refreshToken") = false ->
         ComConfig.getConfig (Eff.conf w) "secretId" = Some secretId ->
         ComConfig.getConfig (Eff.conf w) "secretKey" = Some secretKey ->
         ComConfig.isConfigured (Eff.conf w) = true ->
         Eff.sent (snd (ComApi.getAccessToken remote w))
         = (Eff.sent w ++ [Wire.com_token_new secretId secretKey])%list)
  /\ (forall (remote : ComApi.Remote) (w : ComApi.World),
         ComConfig.hasValidToken (Eff.conf w) (Eff.clock w) = false ->
         truthy (ComConfig.getConfig (Eff.conf w) "refreshToken") = false ->
         ComConfig.isConfigured (Eff.conf w) = false ->
         ComApi.getAccessToken remote w
         = (Eff.Thrown ComApi.credentials_not_configured, w)).
Proof.
  split; [|split; [|split]].
  - intros remote w Ha Hr. now apply ensureAuth_no_token.
  - intros remote w secretId secretKey r data a n Hv Hrf Hid Hkey Hconf
      Hans Hdata Hacc Hexp Hstor.
    rewrite (getAccessToken_no_refresh remote w Hv Hrf).
    rewrite (obtainAccessToken_configured remote w _ _ Hid Hkey Hconf).
    rewrite (try_catch_returned _ _ _ _ _
               (acquire_and_save_success remote _ _ w r data a n
                  Hans Hdata Hacc Hexp Hstor)).
    eexists. split; [reflexivity|]. cbn [Eff.sent Eff.conf Eff.clock Eff.settled].
    split; [reflexivity|]. split.
    { rewrite acquisitions_snoc_com. cbn. lia. }
    split; [reflexivity|].
    pose proof (com_saved_reads (Eff.conf w) a
                  (ComApi.member (Some data) "refresh")
                  (Eff.clock w
                   + snd (remote (Eff.sent w)
                            (Wire.com_token_new secretId secretKey))
                   + n * 1000)) as Hreads.
    cbv zeta in Hreads. destruct Hreads as (H1 & H2 & _).
    split; assumption.
  - intros remote w secretId secretKey Hv Hrf Hid Hkey Hconf.
    rewrite (getAccessToken_no_refresh remote w Hv Hrf).
    now apply obtainAccessToken_calls.
  - intros remote w Hv Hrf Hconf.
    rewrite (getAccessToken_no_refresh remote w Hv Hrf).
    now apply obtainAccessToken_no_credentials.
Qed.

Lemma acquisition_when_no_token_witness :
  exists w',
    ComApi.getAccessToken Sample.com_granting
      (Sample.com_world Sample.com_credentials_only)
    = (Eff.Returned (Some (VStr "tok1")), w')
    /\ Eff.sent w' = [Wire.com_token_new (VStr "A") (VStr "B")]
    /\ ComConfig.getConfig (Eff.conf w') "accessToken" = Some (VStr "tok1")
    /\ ComConfig.getConfig (Eff.conf w') "refreshToken" = Some (VStr "ref1")
    /\ ComConfig.getConfig (Eff.conf w') "tokenExpiry"
       = Some (VNum (Sample.noon + 250 + 3600 * 1000)).
Proof.
  destruct (proj1 (proj2 acquisition_when_no_token)
              Sample.com_granting
              (Sample.com_world Sample.com_credentials_only)
              (VStr "A") (VStr "B")
              (ComApi.mkResponse 200 (Some Sample.grant)) Sample.grant
              "tok1" 3600
              eq_refl eq_refl eq_refl eq_refl eq_refl eq_refl eq_refl
              eq_refl eq_refl
              (or_intror (ex_intro _ "ref1" eq_refl)))
    as (w' & Hrun & Hsent & _ & Hconf & Htok & Hexp).
  exists w'. split; [exact Hrun|]. split; [exact Hsent|].
  split; [exact Htok|]. split.
  - rewrite Hconf. reflexivity.
  - rewrite Hexp.
    assert (Hclock : Eff.clock w' = Sample.noon + 250).
    { pose proof (f_equal (fun p => Eff.clock (snd p)) Hrun) as Hc.
      cbn [snd] in Hc. rewrite <- Hc. reflexivity. }
    rewrite Hclock. reflexivity.
Defined.

(** C1 as stated fails for [ensureAuth]: with credentials stored and no
    token, it throws [Not authenticated] and calls nothing, though the
    remote side would grant a token. *)
Lemma ensureAuth_ignores_credentials :
  Conf.get Sample.lib_credentials_only ["auth"; "secret_id"] = Some (VStr "A")
  /\ Conf.get Sample.lib_credentials_only ["auth"; "secret_key"]
     = Some (VStr "B")
  /\ LibAuth.ensureAuth Sample.lib_granting
       (Sample.lib_world Sample.lib_credentials_only)
     = (Eff.Thrown LibAuth.not_authenticated,
        Sample.lib_world Sample.lib_credentials_only)
  /\ Wire.lib_acquisitions
       (Eff.sent (snd (LibAuth.ensureAuth Sample.lib_granting
                         (Sample.lib_world Sample.lib_credentials_only))))
     = 0%nat.
Proof. repeat split. Qed.

End Acquisition.

(** ** Refreshing an expired access token *)

Section Refreshing.
Import Js.

Lemma acquisitions_snoc_lib (calls : list LibApi.FetchCall)
  (c : LibApi.FetchCall) :
  Wire.lib_acquisitions (calls ++ [c])
  = (Wire.lib_acquisitions calls
     + (if Wire.lib_is_acquisition c then 1 else 0))%nat.
Proof.
  unfold Wire.lib_acquisitions. rewrite filter_app, length_app. simpl.
  destruct (Wire.lib_is_acquisition c); reflexivity.
Qed.


Lemma refreshes_snoc_com (calls : list ComApi.AxiosCall)
  (c : ComApi.AxiosCall) :
  Wire.com_refreshes (calls ++ [c])
  = (Wire.com_refreshes calls + (if Wire.com_is_refresh c then 1 else 0))%nat.
Proof.
  unfold Wire.com_refreshes. rewrite filter_app, length_app. simpl.
  destruct (Wire.com_is_refresh c); reflexivity.
Qed.

(** Whatever the remote side answers, the refresh branch of [ensureAuth]
    makes the refresh call and no other, writes nothing but the access
    token and its expiry, and throws nothing but [Failed to refresh
    token]. *)
Lemma ensureAuth_refresh_any (remote : LibApi.Remote) (w : LibApi.World)
  (token : value) :
  LibConfig.isAccessTokenValid (Eff.conf w) (Eff.clock w) = false ->
  LibConfig.isRefreshTokenValid (Eff.conf w) (Eff.clock w) = true ->
  Conf.get (Eff.conf w) ["auth"; "refresh_token"] = Some token ->
  Eff.sent (snd (LibAuth.ensureAuth remote w))
  = (Eff.sent w ++ [Wire.lib_token_refresh token])%list
  /\ Frame.access_only (Eff.conf w)
       (Eff.conf (snd (LibAuth.ensureAuth remote w)))
  /\ (forall e, fst (LibAuth.ensureAuth remote w) = Eff.Thrown e ->
                e = LibAuth.refresh_failed).
Proof.
  intros Ha Hr Ht.
  destruct (ensureAuth_refresh_branch remote w token Ha Hr Ht)
    as (api & Hbase & ->).
  pose proof (refresh_and_save_world remote api token w Hbase)
    as (Hsent & _ & Hconf).
  unfold Eff.try_catch.
  destruct (LibAuth.refresh_and_save remote api (Some token) w)
    as [[v|e] w1]; cbn [fst snd Eff.throw] in *.
  - split; [exact Hsent|]. split; [exact Hconf|]. discriminate.
  - split; [exact Hsent|]. split; [exact Hconf|].
    intros e' He'. congruence.
Qed.




End Refreshing.

(** ** Saving a grant and keeping its expiries *)

Section Saving.
Import Js.

Lemma obtainToken_delivers (remote : LibApi.Remote) (api : LibApi.NordigenAPI)
  (secretId secretKey : string) (w : LibApi.World) (r : LibApi.Response)
  (data : value) :
  LibApi.baseURL api = LibApi.BASE_URL ->
  Eff.answer remote (Wire.lib_token_new secretId secretKey) w
  = LibApi.Responded r ->
  LibApi.delivers r data ->
  LibApi.obtainToken remote api secretId secretKey w
  = (Eff.Returned data,
     Eff.settled remote (Wire.lib_token_new secretId secretKey) w).
Proof.
  intros Hbase Hr Hd. unfold LibApi.obtainToken, LibApi.post.
  cbn [LibApi.opt_query LibApi.opt_auth].
  rewrite <- (outgoing_token_new api secretId secretKey Hbase) in *.
  rewrite (request_responded remote _ _ _ _ _ r Hr).
  now apply handle_response_delivers.
Qed.

(** The six writes of [login], in the order of the source. *)
Lemma login_success (remote : LibApi.Remote) (w : LibApi.World)
  (secretId secretKey : string) (r : LibApi.Response) (data : value)
  (a rf : string) (ae re : Z) :
  Eff.answer remote (Wire.lib_token_new secretId secretKey) w
  = LibApi.Responded r ->
  LibApi.delivers r data ->
  LibApi.member data "access" = Some (VStr a) ->
  LibApi.member data "refresh" = Some (VStr rf) ->
  LibApi.member data "access_expires" = Some (VNum ae) ->
  LibApi.member data "refresh_expires" = Some (VNum re) ->
  LibAuth.login remote secretId secretKey w
  = (Eff.Returned data,
     let w1 := Eff.settled remote (Wire.lib_token_new secretId secretKey) w in
     let now := LibConfig.seconds (Eff.clock w1) in
     Eff.mkWorld
       (Conf.set
          (Conf.set
             (Conf.set
                (Conf.set
                   (Conf.set
                      (Conf.set (Eff.conf w) ["auth"; "secret_id"]
                         (VStr secretId))
                      ["auth"; "secret_key"] (VStr secretKey))
                   ["auth"; "access_token"] (VStr a))
                ["auth"; "refresh_token"] (VStr rf))
             ["auth"; "access_expires"] (VNum (now + ae)))
          ["auth"; "refresh_expires"] (VNum (now + re)))
       (Eff.clock w1) (Eff.sent w1)).
Proof.
  intros Hr Hd Ha Hrf Hae Hre.
  destruct (member_object _ _ _ Ha) as (ms & ->).
  unfold LibAuth.login.
  unfold Eff.bind at 1.
  cbn [LibApi.createClient LibApi.constructor Eff.read].
  match goal with
  | |- context [LibApi.obtainToken remote ?api _ _] =>
      rewrite (bind_returned _ _ _ _ _
                 (obtainToken_delivers remote api secretId secretKey w r _
                    eq_refl Hr Hd))
  end.
  unfold Eff.bind, Eff.date_now, LibAuth.prop.
  cbn [Eff.ret LibAuth.set_string Eff.write].
  rewrite Ha. cbn [LibAuth.set_string Eff.write].
  rewrite Hrf. cbn [LibAuth.set_string Eff.write].
  rewrite Hae. cbn [LibAuth.plus LibAuth.set_number Eff.write].
  rewrite Hre. reflexivity.
Qed.

Lemma snoc_longer {A} (l : list A) (x : A) : (l ++ [x])%list <> l.
Proof.
  intros H. apply (f_equal (@length A)) in H.
  rewrite length_app in H. simpl in H. lia.
Qed.

(** [ensureAuth] never writes anything but the access token and its
    expiry, and writes nothing at all unless it makes a call. *)
Lemma ensureAuth_frame (remote : LibApi.Remote) (w : LibApi.World) :
  Frame.access_only (Eff.conf w) (Eff.conf (snd (LibAuth.ensureAuth remote w)))
  /\ (Eff.sent (snd (LibAuth.ensureAuth remote w)) = Eff.sent w ->
      Eff.conf (snd (LibAuth.ensureAuth remote w)) = Eff.conf w).
Proof.
  destruct (LibConfig.isAccessTokenValid (Eff.conf w) (Eff.clock w)) eqn:Ha.
  { rewrite (ensureAuth_valid remote w Ha). split; [apply access_only_refl|].
    reflexivity. }
  destruct (LibConfig.isRefreshTokenValid (Eff.conf w) (Eff.clock w)) eqn:Hr.
  - destruct (refresh_valid_token _ _ Hr) as (token & Ht).
    destruct (ensureAuth_refresh_any remote w token Ha Hr Ht)
      as (Hsent & Hconf & _).
    split; [exact Hconf|]. rewrite Hsent. intros H.
    now apply snoc_longer in H.
  - rewrite (ensureAuth_no_token remote w Ha Hr).
    split; [apply access_only_refl|reflexivity].
Qed.

(** C6, as the code has it.  A successful [login] of the [nordigen] client
    makes exactly one call, to the acquisition endpoint, and saves the
    credentials and both tokens, each expiry being the clock in whole
    seconds at the moment the answer arrived plus the number of seconds the
    server gave.  A successful [obtainAccessToken] of the [nordigencom]
    client makes exactly one acquisition call and saves the access token
    with the clock in milliseconds plus a thousand times the seconds given,
    and the refresh token when it is not empty; it saves no expiry for the
    refresh token: every other member of the document reads as before.
    Later operations keep the stored expiries: [request] never writes the
    document, [getAccessToken] and [ensureAuth] leave it alone while the
    access token is valid, and [ensureAuth] never writes anything but the
    access token and its expiry, and only when it makes the refresh
    call. *)
Theorem grant_saved_with_expiries :
  (forall (remote : LibApi.Remote) (w : LibApi.World)
          (secretId secretKey : string) (r : LibApi.Response) (data : value)
          (a rf : string) (ae re : Z),
      Eff.answer remote (Wire.lib_token_new secretId secretKey) w
      = LibApi.Responded r ->
      LibApi.delivers r data ->
      LibApi.member data "access" = Some (VStr a) ->
      LibApi.member data "refresh" = Some (VStr rf) ->
      LibApi.member data "access_expires" = Some (VNum ae) ->
      LibApi.member data "refresh_expires" = Some (VNum re) ->
      exists w',
        LibAuth.login remote secretId secretKey w = (Eff.Returned data, w')
        /\ Eff.sent w'
           = (Eff.sent w ++ [Wire.lib_token_new secretId secretKey])%list
        /\ Wire.lib_acquisitions (Eff.sent w')
           = S (Wire.lib_acquisitions (Eff.sent w))
        /\ Eff.clock w'
           = Eff.clock w
             + snd (remote (Eff.sent w)
                      (Wire.lib_token_new secretId secretKey))
        /\ Conf.get (Eff.conf w') ["auth"; "secret_id"]
           = Some (VStr secretId)
        /\ Conf.get (Eff.conf w') ["auth"; "secret_key"]
           = Some (VStr secretKey)
        /\ Conf.get (Eff.conf w') ["auth"; "access_token"] = Some (VStr a)
        /\ Conf.get (Eff.conf w') ["auth"; "refresh_token"] = Some (VStr rf)
        /\ Conf.get (Eff.conf w') ["auth"; "access_expires"]
           = Some (VNum (LibConfig.seconds (Eff.clock w') + ae))
        /\ Conf.get (Eff.conf w') ["auth"; "refresh_expires"]
           = Some (VNum (LibConfig.seconds (Eff.clock w') + re)))
  /\ (forall (remote : ComApi.Remote) (w : ComApi.World)
             (secretId secretKey : value) (r : ComApi.AxiosResponse)
             (data : value) (a : string) (n : Z),
         ComConfig.getConfig (Eff.conf w) "secretId" = Some secretId ->
         ComConfig.getConfig (Eff.conf w) "secretKey" = Some secretKey ->
         ComConfig.isConfigured (Eff.conf w) = true ->
         Eff.answer remote (Wire.com_token_new secretId secretKey) w
         = ComApi.Resolved r ->
         ComApi.response_data r = Some data ->
         ComApi.member (Some data) "access" = Some (VStr a) ->
         ComApi.member (Some data) "access_expires" = Some (VNum n) ->
         Wire.storable_refresh (ComApi.member (Some data) "refresh") ->
         exists w',
           ComApi.obtainAccessToken remote w
           = (Eff.Returned (Some (VStr a)), w')
           /\ Eff.sent w'
              = (Eff.sent w ++ [Wire.com_token_new secretId secretKey])%list
           /\ Wire.com_acquisitions (Eff.sent w')
              = S (Wire.com_acquisitions (Eff.sent w))
           /\ ComConfig.getConfig (Eff.conf w') "accessToken"
              = Some (VStr a)
           /\ ComConfig.getConfig (Eff.conf w') "tokenExpiry"
              = Some (VNum (Eff.clock w' + n * 1000))
           /\ (forall x, ComApi.member (Some data) "refresh" = Some (VStr x) ->
                         x <> "" ->
                         ComConfig.getConfig (Eff.conf w') "refreshToken"
                         = Some (VStr x))
           /\ Frame.members_only ["accessToken"; "refreshToken"; "tokenExpiry"]
                (Eff.conf w) (Eff.conf w'))
  /\ (forall (remote : LibApi.Remote) (self : LibApi.NordigenAPI)
             (method endpoint : string) (options : LibApi.Options)
             (w : LibApi.World),
         Eff.conf (snd (LibApi.request remote self method endpoint options w))
         = Eff.conf w)
  /\ (forall (remote : LibApi.Remote) (w : LibApi.World),
         (LibConfig.isAccessTokenValid (Eff.conf w) (Eff.clock w) = true ->
          snd (LibAuth.ensureAuth remote w) = w)
         /\ Frame.access_only (Eff.conf w)
              (Eff.conf (snd (LibAuth.ensureAuth remote w)))
         /\ Conf.get (Eff.conf (snd (LibAuth.ensureAuth remote w)))
              ["auth"; "refresh_expires"]
            = Conf.get (Eff.conf w) ["auth"; "refresh_expires"]
         /\ (Eff.sent (snd (LibAuth.ensureAuth remote w)) = Eff.sent w ->
             Eff.conf (snd (LibAuth.ensureAuth remote w)) = Eff.conf w))
  /\ (forall (remote : ComApi.Remote) (w : ComApi.World),
         ComConfig.hasValidToken (Eff.conf w) (Eff.clock w) = true ->
         snd (ComApi.getAccessToken remote w) = w).
Proof.
  split; [|split; [|split; [|split]]].
  - intros remote w secretId secretKey r data a rf ae re Hr Hd Ha Hrf Hae Hre.
    rewrite (login_success remote w secretId secretKey r data a rf ae re
               Hr Hd Ha Hrf Hae Hre).
    eexists. split; [reflexivity|].
    cbv zeta. cbn [Eff.sent Eff.conf Eff.clock Eff.settled].
    split; [reflexivity|]. split.
    { rewrite acquisitions_snoc_lib. cbn. lia. }
    split; [reflexivity|].
    repeat split;
      repeat first [ apply get_set_same
                   | rewrite get_set_sibling by discriminate ].
  - intros remote w secretId secretKey r data a n Hid Hkey Hconf Hans Hdata
      Hacc Hexp Hstor.
    rewrite (obtainAccessToken_configured remote w _ _ Hid Hkey Hconf).
    rewrite (try_catch_returned _ _ _ _ _
               (acquire_and_save_success remote _ _ w r data a n
                  Hans Hdata Hacc Hexp Hstor)).
    eexists. split; [reflexivity|].
    cbn [Eff.sent Eff.conf Eff.clock Eff.settled].
    split; [reflexivity|]. split.
    { rewrite acquisitions_snoc_com. cbn. lia. }
    pose proof (com_saved_reads (Eff.conf w) a
                  (ComApi.member (Some data) "refresh")
                  (Eff.clock w
                   + snd (remote (Eff.sent w)
                            (Wire.com_token_new secretId secretKey))
                   + n * 1000)) as Hreads.
    cbv zeta in Hreads. destruct Hreads as (H1 & H2 & H3 & _ & H5).
    repeat split; assumption.
  - intros remote self method endpoint options w.
    now rewrite request_world.
  - intros remote w.
    destruct (ensureAuth_frame remote w) as [Hframe Hquiet].
    split; [|split; [exact Hframe|split; [|exact Hquiet]]].
    + intros Ha. now rewrite (ensureAuth_valid remote w Ha).
    + apply Hframe; discriminate.
  - intros remote w Hv. now rewrite (getAccessToken_valid remote w Hv).
Qed.

Lemma grant_saved_with_expiries_witness :
  exists w',
    LibAuth.login Sample.lib_granting "A" "B" (Sample.lib_world Conf.empty)
    = (Eff.Returned Sample.grant, w')
    /\ Eff.sent w' = [Wire.lib_token_new "A" "B"]
    /\ Conf.get (Eff.conf w') ["auth"; "access_token"] = Some (VStr "tok1")
    /\ Conf.get (Eff.conf w') ["auth"; "refresh_token"] = Some (VStr "ref1")
    /\ Conf.get (Eff.conf w') ["auth"; "access_expires"]
       = Some (VNum (LibConfig.seconds (Eff.clock w') + 3600))
    /\ Conf.get (Eff.conf w') ["auth"; "refresh_expires"]
       = Some (VNum (LibConfig.seconds (Eff.clock w') + 2592000)).
Proof.
  destruct (proj1 grant_saved_with_expiries
              Sample.lib_granting (Sample.lib_world Conf.empty) "A" "B"
              (Sample.json_response Sample.grant) Sample.grant
              "tok1" "ref1" 3600 2592000 eq_refl
              (conj eq_refl
                 (conj (ex_intro _ "application/json" (conj eq_refl eq_refl))
                    eq_refl))
              eq_refl eq_refl eq_refl eq_refl)
    as (w' & Hrun & Hsent & _ & _ & _ & _ & Hat & Hrt & Hae & Hre).
  exists w'. repeat split; assumption.
Defined.

(** C6 as stated fails for [obtainAccessToken]: the grant of the scenario
    is saved without any expiry for the refresh token, and a grant with
    another [refresh_expires] leaves the same document. *)
Lemma obtainAccessToken_saves_no_refresh_expiry :
  Eff.conf (snd (ComApi.obtainAccessToken Sample.com_granting
                   (Sample.com_world Sample.com_credentials_only)))
  = VObj [("secretId", VStr "A"); ("secretKey", VStr "B");
          ("accessToken", VStr "tok1"); ("refreshToken", VStr "ref1");
          ("tokenExpiry", VNum 1700003600250)]
  /\ Eff.conf
       (snd (ComApi.obtainAccessToken
               (fun _ _ =>
                  (ComApi.Resolved
                     (ComApi.mkResponse 200
                        (Some (VObj [("access", VStr "tok1");
                                     ("refresh", VStr "ref1");
                                     ("access_expires", VNum 3600);
                                     ("refresh_expires", VNum 60)]))),
                   250))
               (Sample.com_world Sample.com_credentials_only)))
     = Eff.conf (snd (ComApi.obtainAccessToken Sample.com_granting
                        (Sample.com_world Sample.com_credentials_only))).
Proof. split; reflexivity. Qed.

End Saving.

(** ** Requests and their errors *)

Section Requests.
Import Js.

(** [handleApiError] throws in every branch and leaves the world alone. *)
Lemma handleApiError_throws (error : ComApi.Error) (w : ComApi.World) :
  exists e, ComApi.handleApiError error w = (Eff.Thrown e, w).
Proof.
  unfold ComApi.handleApiError.
  destruct (ComApi.response error) as [r|].
  - destruct (ComApi.status r =? 401); [eexists; reflexivity|].
    destruct (ComApi.status r =? 403); [eexists; reflexivity|].
    destruct (ComApi.status r =? 404); [eexists; reflexivity|].
    destruct (ComApi.status r =? 429); eexists; reflexivity.
  - destruct (ComApi.request error); eexists; reflexivity.
Qed.

(** Once the token is resolved, [apiRequest] issues the primary request,
    and nothing after it. *)
Lemma apiRequest_after_token (remote : ComApi.Remote) (method endpoint : string)
  (data params token : jsval) (w w1 : ComApi.World) :
  ComApi.getAccessToken remote w = (Eff.Returned token, w1) ->
  snd (ComApi.apiRequest remote method endpoint data params w)
  = Eff.settled remote
      (ComApi.request_config token method endpoint data params) w1.
Proof.
  intros Ht. unfold ComApi.apiRequest.
  rewrite (bind_returned _ _ _ _ _ Ht).
  unfold Eff.try_catch, Eff.bind at 1.
  pose proof (axios_world remote
                (ComApi.request_config token method endpoint data params) w1)
    as Hw.
  destruct (ComApi.axios remote _ w1) as [[r|e] w2]; simpl in Hw; subst w2.
  - reflexivity.
  - unfold Eff.bind.
    destruct (handleApiError_throws e
                (Eff.settled remote
                   (ComApi.request_config token method endpoint data params)
                   w1)) as (e' & ->).
    reflexivity.
Qed.

(** C4, as the code has it.  [apiRequest] of the [nordigencom] client
    resolves a token through [getAccessToken] first: when that throws, the
    error is passed on and no request is issued; otherwise the primary
    request is issued after whatever calls the resolution made, and carries
    the resolved token in its [Authorization: Bearer] header.  [request] of
    the [nordigen] client resolves nothing: it issues the primary request
    and no other call and never writes the document; the request carries
    [Authorization: Bearer] with the token the client object holds when
    [auth] is not switched off and that token is not empty, and no
    [Authorization] header otherwise. *)
Theorem request_and_token :
  (forall (remote : ComApi.Remote) (method endpoint : string)
          (data params : jsval) (w w1 : ComApi.World) (e : ComApi.Error),
      ComApi.getAccessToken remote w = (Eff.Thrown e, w1) ->
      ComApi.apiRequest remote method endpoint data params w
      = (Eff.Thrown e, w1))
  /\ (forall (remote : ComApi.Remote) (method endpoint : string)
             (data params token : jsval) (w w1 : ComApi.World),
         ComApi.getAccessToken remote w = (Eff.Returned token, w1) ->
         let call := ComApi.request_config token method endpoint data params in
         Eff.sent (snd (ComApi.apiRequest remote method endpoint data params w))
         = (Eff.sent w1 ++ [call])%list
         /\ In ("Authorization", "Bearer " ++ show token)
               (ComApi.headers call))
  /\ (forall (remote : LibApi.Remote) (self : LibApi.NordigenAPI)
             (method endpoint : string) (options : LibApi.Options)
             (w : LibApi.World),
         let call := LibApi.outgoing self method endpoint options in
         snd (LibApi.request remote self method endpoint options w)
         = Eff.settled remote call w
         /\ Eff.sent (snd (LibApi.request remote self method endpoint options w))
            = (Eff.sent w ++ [call])%list
         /\ Eff.conf (snd (LibApi.request remote self method endpoint options w))
            = Eff.conf w
         /\ (LibApi.opt_auth options = true ->
             truthy (LibApi.accessToken self) = true ->
             LibApi.headers call
             = (Wire.json_headers
                  ++ [("Authorization",
                       ("Bearer " ++ show (LibApi.accessToken self))%string)])%list)
         /\ (LibApi.opt_auth options = false
             \/ truthy (LibApi.accessToken self) = false ->
             LibApi.headers call = Wire.json_headers)).
Proof.
  split; [|split].
  - intros remote method endpoint data params w w1 e Ht.
    unfold ComApi.apiRequest. now rewrite (bind_thrown _ _ _ _ _ Ht).
  - intros remote method endpoint data params token w w1 Ht call.
    rewrite (apiRequest_after_token remote method endpoint data params token
               w w1 Ht).
    split; [reflexivity|]. simpl. auto.
  - intros remote self method endpoint options w call. subst call.
    rewrite request_world. split; [reflexivity|].
    split; [reflexivity|]. split; [reflexivity|].
    unfold LibApi.outgoing, LibApi.request_headers. cbn [LibApi.headers].
    split.
    + intros -> ->. reflexivity.
    + intros [->| ->]; [reflexivity|]. now rewrite andb_false_r.
Qed.

Lemma request_and_token_witness :
  Eff.sent (snd (ComApi.apiRequest Sample.com_granting "GET" "/institutions/"
                   None (Some (VObj [("country", VStr "GB")]))
                   (Sample.com_world Sample.com_credentials_only)))
  = [Wire.com_token_new (VStr "A") (VStr "B");
     ComApi.mkCall "GET" "https://ob.nordigen.com/api/v2/institutions/"
       [("Authorization", "Bearer tok1"); ("Accept", "application/json");
        ("Content-Type", "application/json")]
       (Some (VObj [("country", VStr "GB")])) None].
Proof.
  exact (proj1 (proj1 (proj2 request_and_token)
                  Sample.com_granting "GET" "/institutions/" None
                  (Some (VObj [("country", VStr "GB")]))
                  (Some (VStr "tok1"))
                  (Sample.com_world Sample.com_credentials_only)
                  (snd (ComApi.getAccessToken Sample.com_granting
                          (Sample.com_world Sample.com_credentials_only)))
                  eq_refl)).
Defined.

(** C4 as stated fails for [request] of the [nordigen] client: with an
    expired access token and a valid refresh token stored, it sends the
    expired token and makes no other call, where [ensureAuth] would have
    refreshed the token first. *)
Lemma request_sends_stale_token :
  LibConfig.isAccessTokenValid Sample.lib_expired_access Sample.noon = false
  /\ fst (LibAuth.ensureAuth Sample.lib_granting
            (Sample.lib_world Sample.lib_expired_access))
     = Eff.Returned (Some (VStr "tok2"))
  /\ LibApi.createClient None (Sample.lib_world Sample.lib_expired_access)
     = (Eff.Returned
          (LibApi.mkClient LibApi.BASE_URL
             (LibApi.getStoredToken Sample.lib_expired_access)),
        Sample.lib_world Sample.lib_expired_access)
  /\ Eff.sent
       (snd (LibApi.request Sample.lib_granting
               (LibApi.mkClient LibApi.BASE_URL
                  (LibApi.getStoredToken Sample.lib_expired_access))
               "GET" "/api/v2/institutions/"
               (LibApi.mkOptions None (Some [("country", Some (VStr "GB"))])
                  true)
               (Sample.lib_world Sample.lib_expired_access)))
     = [LibApi.mkCall
          "https://ob.nordigen.com/api/v2/institutions/?country=GB" "GET"
          [("Content-Type", "application/json");
           ("Accept", "application/json");
           ("Authorization", "Bearer tok0")]
          None].
Proof. repeat split. Qed.


(** *** Errors *)








(** The error-handling test of [test/api.test.js]: the error has the status
    401 and the message [Invalid token]. *)
Example test_error_handling :
  exists e w',
    LibApi.get Sample.lib_unauthorized
      (LibApi.mkClient LibApi.BASE_URL (Some (VStr "test-token")))
      "/api/v2/accounts/test" LibApi.no_options
      (Eff.mkWorld Conf.empty Sample.noon [])
    = (Eff.Thrown e, w')
    /\ LibApi.error_status e = Some (VNum 401)
    /\ includes (LibApi.message e) "Invalid token" = true.
Proof. eexists. eexists. repeat split. Qed.


(** *** No answer at all *)






End Requests.

(** ** The query string *)

Section QueryString.
Import Js.
Import LibApi.

Lemma prefix_app (t r : string) : prefix t (t ++ r) = true.
Proof.
  induction t as [|c t IH]; simpl; [destruct r; reflexivity|].
  destruct (ascii_dec c c); [exact IH|contradiction].
Qed.

Lemma includes_here (s t : string) : prefix t s = true -> includes s t = true.
Proof. intros H. destruct s; cbn [includes]; rewrite H; reflexivity. Qed.

Lemma includes_later (c : ascii) (s t : string) :
  includes s t = true -> includes (String c s) t = true.
Proof. intros H. cbn [includes]. rewrite H. apply orb_true_r. Qed.

Lemma includes_app_left (p s t : string) :
  includes s t = true -> includes (p ++ s) t = true.
Proof.
  intros H. induction p as [|c p IH]; [exact H|].
  simpl append. now apply includes_later.
Qed.

Lemma includes_middle (p t q : string) : includes (p ++ t ++ q) t = true.
Proof. apply includes_app_left, includes_here, prefix_app. Qed.

Lemma append_assoc (a b c : string) : (a ++ b) ++ c = a ++ b ++ c.
Proof. induction a as [|x a IH]; simpl; [reflexivity|now rewrite IH]. Qed.

Lemma append_empty_r (a : string) : a ++ "" = a.
Proof. induction a as [|x a IH]; simpl; [reflexivity|now rewrite IH]. Qed.

(** An element of a joined list stands in the result as it is. *)
Lemma join_in (sep x : string) (xs : list string) :
  In x xs -> exists p q, join sep xs = p ++ x ++ q.
Proof.
  induction xs as [|y ys IH]; [contradiction|].
  intros [->|Hin].
  - exists "". destruct ys as [|z zs].
    + exists "". simpl. now rewrite append_empty_r.
    + exists (sep ++ join sep (z :: zs)). reflexivity.
  - destruct (IH Hin) as (p & q & Hpq).
    destruct ys as [|z zs]; [contradiction|].
    exists (y ++ sep ++ p), q.
    change (join sep (y :: z :: zs)) with (y ++ sep ++ join sep (z :: zs)).
    rewrite Hpq. now rewrite !append_assoc.
Qed.

(** The loop over the entries of the query appends the defined ones, in
    order, each with its value turned into a string. *)
Lemma append_entries_spec (params : list (string * string))
  (entries : list (string * jsval)) :
  append_entries params entries
  = (params
     ++ map (fun kv => (fst kv, show (snd kv)))
            (filter (fun kv => Wire.defined (snd kv)) entries))%list.
Proof.
  revert params. induction entries as [|[key v] rest IH]; intros params.
  - simpl. now rewrite app_nil_r.
  - destruct v as [[|b|n|s|items|ms]|]; simpl; rewrite IH;
      try reflexivity; now rewrite <- app_assoc.
Qed.

Lemma filter_defined_idem (entries : list (string * jsval)) :
  filter (fun kv => Wire.defined (snd kv))
    (filter (fun kv => Wire.defined (snd kv)) entries)
  = filter (fun kv => Wire.defined (snd kv)) entries.
Proof.
  induction entries as [|kv rest IH]; simpl; [reflexivity|].
  destruct (Wire.defined (snd kv)) eqn:E; simpl; [|exact IH].
  now rewrite E, IH.
Qed.

Lemma filter_none {A} (f : A -> bool) (l : list A) :
  (forall x, In x l -> f x = false) -> filter f l = [].
Proof.
  induction l as [|x l IH]; intros H; simpl; [reflexivity|].
  rewrite (H x (or_introl eq_refl)). apply IH.
  intros y Hy. apply H. now right.
Qed.

(** *** The encoding of keys and values *)

Lemma form_encode_cons (c : ascii) (s : string) :
  form_encode (String c s) = form_encode_char c ++ form_encode s.
Proof. reflexivity. Qed.

(** What stands for one character is written in letters, digits and the
    marks [* - . _ + %]. *)
Lemma form_encode_char_alphabet (c : ascii) :
  forallb
    (fun x =>
       existsb (Ascii.eqb x)
         (list_ascii_of_string
            "ABCDEFGHIJKLMNOPQRSTUVWXYZabcdefghijklmnopqrstuvwxyz0123456789*-._+%"))
    (list_ascii_of_string (form_encode_char c))
  = true.
Proof.
  destruct c as [[] [] [] [] [] [] [] []]; vm_compute; reflexivity.
Qed.

Lemma list_ascii_of_append (s t : string) :
  list_ascii_of_string (s ++ t)
  = (list_ascii_of_string s ++ list_ascii_of_string t)%list.
Proof. induction s as [|c s IH]; simpl; [reflexivity|now rewrite IH]. Qed.

Lemma form_encode_alphabet (s : string) (x : ascii) :
  In x (list_ascii_of_string (form_encode s)) ->
  In x
    (list_ascii_of_string
       "ABCDEFGHIJKLMNOPQRSTUVWXYZabcdefghijklmnopqrstuvwxyz0123456789*-._+%").
Proof.
  induction s as [|c s IH]; [intros []|].
  rewrite form_encode_cons, list_ascii_of_append, in_app_iff.
  intros [Hin|Hin]; [|now apply IH].
  pose proof (form_encode_char_alphabet c) as Hall.
  rewrite forallb_forall in Hall. specialize (Hall x Hin).
  apply existsb_exists in Hall. destruct Hall as (y & Hy & Heq).
  apply Ascii.eqb_eq in Heq. now subst y.
Qed.

(** What stands for a character tells which character it was, whatever
    comes after it. *)
Lemma form_encode_char_read :
  exists read : string -> option (ascii * string),
    forall (c : ascii) (rest : string),
      read (form_encode_char c ++ rest) = Some (c, rest).
Proof.
  pose (hex := fun h : ascii =>
                 let n := N_of_ascii h in
                 if (n <? 58)%N then (n - 48)%N else (n - 55)%N).
  exists (fun s =>
            match s with
            | EmptyString => None
            | String x rest =>
                if (N_of_ascii x =? 43)%N then Some (" "%char, rest)
                else if (N_of_ascii x =? 37)%N then
                  match rest with
                  | String h (String l rest') =>
                      Some (ascii_of_N (16 * hex h + hex l), rest')
                  | _ => None
                  end
                else Some (x, rest)
            end).
  intros c rest.
  destruct c as [[] [] [] [] [] [] [] []]; reflexivity.
Qed.

Lemma form_encode_injective (s t : string) :
  form_encode s = form_encode t -> s = t.
Proof.
  destruct form_encode_char_read as (read & Hread).
  assert (Hnonempty : forall c rest, form_encode_char c ++ rest <> "").
  { intros c rest H. pose proof (Hread c rest) as Hr. rewrite H in Hr.
    pose proof (Hread c "") as Hr'. destruct (form_encode_char c) eqn:E.
    - clear -E. destruct c as [[] [] [] [] [] [] [] []]; discriminate E.
    - discriminate H. }
  revert t. induction s as [|c s IH]; intros [|d t] H.
  - reflexivity.
  - rewrite form_encode_cons in H. symmetry in H.
    now apply Hnonempty in H.
  - rewrite form_encode_cons in H. now apply Hnonempty in H.
  - rewrite !form_encode_cons in H.
    pose proof (Hread c (form_encode s)) as Hc. rewrite H, Hread in Hc.
    injection Hc as <- Hst. f_equal. now apply IH.
Qed.

Lemma form_encode_plain (s : string) :
  Resources.plain s = true -> form_encode s = s.
Proof.
  induction s as [|c s IH]; [reflexivity|].
  cbn [Resources.plain]. intros H. apply andb_prop in H.
  destruct H as [Hc Hs]. rewrite form_encode_cons, (IH Hs).
  clear -Hc. destruct c as [[] [] [] [] [] [] [] []];
    first [reflexivity|discriminate Hc].
Qed.

(** C9.  The search parameters that [request] puts into the URL are the
    entries of the query whose value is neither undefined nor null, in
    their order, each value turned into a string: an entry with an
    undefined or null value leaves no trace in the outgoing call.  For a
    client of [createClient] and an endpoint that is a plain path, the URL
    is the base, the endpoint and, when such entries remain, a question
    mark and the pairs [key=value] joined by [&], keys and values
    form-urlencoded.  The encoding is written in letters, digits and [* -
    . _ + %] only, so that no [&] or [=] of a key or a value is taken for a
    separator; it loses nothing, leaves letters, digits, [-] and [_] as
    they are, writes a space as [+] and, for instance, [a&b=c] as
    [a%26b%3Dc].  For [request('GET', '/institutions/', {query: {country:
    'GB'}})] on a client created while the access token [t] is stored, the
    call goes to [https://ob.nordigen.com/institutions/?country=GB], a URL
    that contains [country=GB], and its [Authorization] header is [Bearer
    t]. *)
Theorem query_serialisation :
  (forall (entries : list (string * jsval)),
      searchParams (Some entries)
      = map (fun kv => (fst kv, show (snd kv)))
            (filter (fun kv => Wire.defined (snd kv)) entries))
  /\ (forall (self : NordigenAPI) (method endpoint : string) (body : jsval)
             (auth : bool) (entries : list (string * jsval)),
         outgoing self method endpoint (mkOptions body (Some entries) auth)
         = outgoing self method endpoint
             (mkOptions body
                (Some (filter (fun kv => Wire.defined (snd kv)) entries))
                auth))
  /\ (forall (self : NordigenAPI) (method endpoint : string) (body : jsval)
             (auth : bool) (entries : list (string * jsval)),
         baseURL self = BASE_URL ->
         Resources.plain_path endpoint = true ->
         let pairs := filter (fun kv => Wire.defined (snd kv)) entries in
         url (outgoing self method endpoint
                (mkOptions body (Some entries) auth))
         = "https://ob.nordigen.com" ++ endpoint
           ++ match pairs with
              | [] => ""
              | _ =>
                  "?" ++ join "&"
                           (map (fun kv =>
                                   form_encode (fst kv) ++ "="
                                   ++ form_encode (show (snd kv)))
                                pairs)
              end)
  /\ (forall (self : NordigenAPI) (method endpoint : string) (body : jsval)
             (auth : bool) (entries : list (string * jsval))
             (key : string) (v : value),
         baseURL self = BASE_URL ->
         Resources.plain_path endpoint = true ->
         In (key, Some v) entries ->
         v <> VNull ->
         includes
           (url (outgoing self method endpoint
                   (mkOptions body (Some entries) auth)))
           (form_encode key ++ "=" ++ form_encode (toString v))
         = true)
  /\ (forall (s : string) (x : ascii),
         In x (list_ascii_of_string (form_encode s)) ->
         In x
           (list_ascii_of_string
              "ABCDEFGHIJKLMNOPQRSTUVWXYZabcdefghijklmnopqrstuvwxyz0123456789*-._+%"))
  /\ (forall s t : string, form_encode s = form_encode t -> s = t)
  /\ (forall s : string, Resources.plain s = true -> form_encode s = s)
  /\ form_encode "a&b=c" = "a%26b%3Dc"
  /\ form_encode "New York" = "New+York"
  /\ form_encode "2024-01-31T10:00:00+01:00" = "2024-01-31T10%3A00%3A00%2B01%3A00"
  /\ (forall (remote : Remote) (w : World) (t : string),
         Conf.get (Eff.conf w) ["auth"; "access_token"] = Some (VStr t) ->
         t <> "" ->
         exists self,
           createClient None w = (Eff.Returned self, w)
           /\ Eff.sent
                (snd (request remote self "GET" "/institutions/"
                        (mkOptions None (Some [("country", Some (VStr "GB"))])
                           true) w))
              = (Eff.sent w
                 ++ [mkCall "https://ob.nordigen.com/institutions/?country=GB"
                       "GET"
                       [("Content-Type", "application/json");
                        ("Accept", "application/json");
                        ("Authorization", ("Bearer " ++ t)%string)]
                       None])%list
           /\ includes "https://ob.nordigen.com/institutions/?country=GB"
                "country=GB" = true).
Proof.
  assert (Hurl : forall (self : NordigenAPI) (method endpoint : string)
                        (body : jsval) (auth : bool)
                        (entries : list (string * jsval)),
             baseURL self = BASE_URL ->
             url (outgoing self method endpoint
                    (mkOptions body (Some entries) auth))
             = "https://ob.nordigen.com" ++ endpoint
               ++ match filter (fun kv => Wire.defined (snd kv)) entries with
                  | [] => ""
                  | _ =>
                      "?" ++ join "&"
                               (map (fun kv =>
                                       form_encode (fst kv) ++ "="
                                       ++ form_encode (show (snd kv)))
                                    (filter (fun kv => Wire.defined (snd kv))
                                            entries))
                  end).
  { intros self method endpoint body auth entries Hbase.
    unfold outgoing. cbn [opt_query url]. unfold searchParams.
    rewrite append_entries_spec, Hbase. cbn [app].
    unfold href, form_urlencoded, BASE_URL. rewrite map_map. cbn [fst snd].
    destruct (filter (fun kv => Wire.defined (snd kv)) entries) as [|p ps];
      [cbn [map]; now rewrite append_empty_r|reflexivity]. }
  split; [|split; [|split; [|split; [|split; [|split; [|split; [|split;
    [|split; [|split]]]]]]]]].
  - intros entries. unfold searchParams. now rewrite append_entries_spec.
  - intros self method endpoint body auth entries.
    unfold outgoing. cbn [opt_query opt_auth opt_body]. unfold searchParams.
    now rewrite !append_entries_spec, filter_defined_idem.
  - intros self method endpoint body auth entries Hbase _. cbv zeta.
    now apply Hurl.
  - intros self method endpoint body auth entries key v Hbase _ Hin Hnull.
    rewrite (Hurl self method endpoint body auth entries Hbase).
    assert (Hdef : Wire.defined (Some v) = true)
      by (destruct v; try reflexivity; contradiction).
    assert (Hmem : In (key, Some v)
                      (filter (fun kv => Wire.defined (snd kv)) entries))
      by (apply filter_In; split; [exact Hin|exact Hdef]).
    destruct (filter (fun kv => Wire.defined (snd kv)) entries) as [|p ps];
      [contradiction|].
    destruct (join_in "&" (form_encode key ++ "=" ++ form_encode (toString v))
                (map (fun kv => form_encode (fst kv) ++ "="
                                  ++ form_encode (show (snd kv))) (p :: ps)))
      as (pre & post & ->).
    { apply (in_map (fun kv => form_encode (fst kv) ++ "="
                                 ++ form_encode (show (snd kv)))
               _ (key, Some v)).
      exact Hmem. }
    rewrite <- (append_assoc endpoint).
    rewrite <- (append_assoc "https://ob.nordigen.com").
    rewrite <- (append_assoc ("https://ob.nordigen.com" ++ endpoint ++ "?")).
    apply includes_middle.
  - apply form_encode_alphabet.
  - apply form_encode_injective.
  - apply form_encode_plain.
  - reflexivity.
  - reflexivity.
  - reflexivity.
  - intros remote w t Ht Hne.
    pose proof (truthy_nonempty t Hne) as Htruthy.
    exists (mkClient BASE_URL (Some (VStr t))). split; [|split].
    + unfold createClient, constructor, Eff.read, getStoredToken.
      rewrite Ht. unfold js_or. cbn [truthy]. cbn [truthy] in Htruthy.
      now rewrite Htruthy.
    + rewrite request_world. cbn [Eff.settled Eff.sent]. f_equal. f_equal.
      unfold outgoing, request_headers.
      cbn [opt_query opt_auth opt_body accessToken baseURL andb].
      rewrite Htruthy. reflexivity.
    + reflexivity.
Qed.

Lemma query_serialisation_witness :
  url (outgoing (mkClient BASE_URL (Some (VStr "test-token"))) "GET"
         "/api/v2/institutions/"
         (mkOptions None
            (Some [("country", Some (VStr "GB")); ("skip", None);
                   ("q", Some (VStr "a&b=c")); ("limit", Some (VNum 10))])
            true))
  = "https://ob.nordigen.com/api/v2/institutions/?country=GB&q=a%26b%3Dc&limit=10".
Proof.
  exact (proj1 (proj2 (proj2 query_serialisation))
           (mkClient BASE_URL (Some (VStr "test-token"))) "GET"
           "/api/v2/institutions/" None true
           [("country", Some (VStr "GB")); ("skip", None);
            ("q", Some (VStr "a&b=c")); ("limit", Some (VNum 10))]
           eq_refl eq_refl).
Defined.

(** The query-parameter test of [test/api.test.js]: the URL contains
    [country=GB] and [limit=10]. *)
Example test_query_parameters :
  let call :=
    outgoing (mkClient BASE_URL (Some (VStr "test-token"))) "GET"
      "/api/v2/institutions/"
      (mkOptions None
         (Some [("country", Some (VStr "GB")); ("limit", Some (VNum 10))])
         true) in
  url call = "https://ob.nordigen.com/api/v2/institutions/?country=GB&limit=10"
  /\ includes (url call) "country=GB" = true
  /\ includes (url call) "limit=10" = true.
Proof. repeat split. Qed.

End QueryString.

(** ** The schema is kept

    [conf] refuses a write that breaks the schema.  The writes of
    [src/lib/auth.js] store strings and numbers where the schema asks for
    them, so a document that satisfies the schema still does after [login]
    and after [ensureAuth], whatever the remote side answers. *)

Section SchemaKept.
Import Js.

Lemma schema_unfold (s : Conf.store) :
  LibConfig.schema s = true <->
  (exists ms, s = VObj ms)
  /\ Conf.opt_object (Conf.get s ["auth"]) = true
  /\ Conf.opt_string (Conf.get s ["auth"; "secret_id"]) = true
  /\ Conf.opt_string (Conf.get s ["auth"; "secret_key"]) = true
  /\ Conf.opt_string (Conf.get s ["auth"; "access_token"]) = true
  /\ Conf.opt_string (Conf.get s ["auth"; "refresh_token"]) = true
  /\ Conf.opt_number (Conf.get s ["auth"; "access_expires"]) = true
  /\ Conf.opt_number (Conf.get s ["auth"; "refresh_expires"]) = true
  /\ Conf.opt_object (Conf.get s ["defaults"]) = true
  /\ Conf.opt_string (Conf.get s ["defaults"; "country"]) = true
  /\ Conf.opt_string (Conf.get s ["defaults"; "institution_id"]) = true.
Proof.
  unfold LibConfig.schema. destruct s as [|b|n|x|items|ms];
    try (split; [discriminate|intros ((ms & H) & _); discriminate]).
  rewrite !andb_true_iff. split.
  - intros H. split; [eauto|]. tauto.
  - intros (_ & H). tauto.
Qed.

Lemma get_auth_after_write (s v : value) (k : string) :
  Conf.opt_object (Conf.get (Conf.set s ["auth"; k] v) ["auth"]) = true.
Proof.
  cbn [Conf.set Conf.get]. now rewrite lookup_assign_same.
Qed.

Lemma member_after_write (s v : value) (k k' : string)
  (check : jsval -> bool) :
  check (Conf.get s ["auth"; k']) = true ->
  (k = k' -> check (Some v) = true) ->
  check (Conf.get (Conf.set s ["auth"; k] v) ["auth"; k']) = true.
Proof.
  intros Hold Hnew. destruct (String.eqb_spec k k') as [<-|Hne].
  - rewrite get_set_same. now apply Hnew.
  - now rewrite get_set_sibling.
Qed.

(** Writing a string to a member of [auth] that the schema types as a
    string keeps the schema. *)
Lemma schema_write_string (s : value) (k x : string) :
  LibConfig.schema s = true ->
  In k ["secret_id"; "secret_key"; "access_token"; "refresh_token"] ->
  LibConfig.schema (Conf.set s ["auth"; k] (VStr x)) = true.
Proof.
  intros Hs Hk. apply schema_unfold in Hs.
  destruct Hs as (_ & _ & H1 & H2 & H3 & H4 & H5 & H6 & H7 & H8 & H9).
  apply schema_unfold.
  split; [simpl; eauto|]. split; [apply get_auth_after_write|].
  rewrite !(get_set_other_top "auth" "defaults") by discriminate.
  repeat split; try assumption;
    (apply member_after_write; [assumption|]);
    try (intros _; reflexivity);
    intros ->; simpl in Hk; intuition discriminate.
Qed.

(** The same for a number and a member that the schema types as a
    number. *)
Lemma schema_write_number (s : value) (k : string) (n : Z) :
  LibConfig.schema s = true ->
  In k ["access_expires"; "refresh_expires"] ->
  LibConfig.schema (Conf.set s ["auth"; k] (VNum n)) = true.
Proof.
  intros Hs Hk. apply schema_unfold in Hs.
  destruct Hs as (_ & _ & H1 & H2 & H3 & H4 & H5 & H6 & H7 & H8 & H9).
  apply schema_unfold.
  split; [simpl; eauto|]. split; [apply get_auth_after_write|].
  rewrite !(get_set_other_top "auth" "defaults") by discriminate.
  repeat split; try assumption;
    (apply member_after_write; [assumption|]);
    try (intros _; reflexivity);
    intros ->; simpl in Hk; intuition discriminate.
Qed.

Lemma keeps_schema_refl (w : LibApi.World) : Frame.keeps_schema w w.
Proof. intros H. exact H. Qed.

Lemma keeps_schema_trans (w1 w2 w3 : LibApi.World) :
  Frame.keeps_schema w1 w2 -> Frame.keeps_schema w2 w3 ->
  Frame.keeps_schema w1 w3.
Proof. unfold Frame.keeps_schema. auto. Qed.

Lemma set_string_keeps_schema (k : string) (v : jsval) :
  In k ["secret_id"; "secret_key"; "access_token"; "refresh_token"] ->
  Eff.maintains Frame.keeps_schema (LibAuth.set_string ["auth"; k] v).
Proof.
  intros Hk w. unfold LibAuth.set_string.
  destruct v as [[|b|n|x|items|ms]|]; try apply keeps_schema_refl.
  intros Hs. now apply schema_write_string.
Qed.

Lemma set_number_keeps_schema (k : string) (v : jsval) :
  In k ["access_expires"; "refresh_expires"] ->
  Eff.maintains Frame.keeps_schema (LibAuth.set_number ["auth"; k] v).
Proof.
  intros Hk w. unfold LibAuth.set_number.
  destruct v as [[|b|n|x|items|ms]|]; try apply keeps_schema_refl.
  intros Hs. now apply schema_write_number.
Qed.

Lemma prop_keeps_schema (data : value) (key : string) :
  Eff.maintains Frame.keeps_schema (LibAuth.prop data key).
Proof. intros w. destruct data; apply keeps_schema_refl. Qed.

Lemma request_keeps_schema (remote : LibApi.Remote) (self : LibApi.NordigenAPI)
  (method endpoint : string) (options : LibApi.Options) :
  Eff.maintains Frame.keeps_schema
    (LibApi.request remote self method endpoint options).
Proof.
  intros w Hs. now rewrite request_world.
Qed.

Ltac keep_schema :=
  repeat first
    [ apply request_keeps_schema
    | apply (maintains_bind Frame.keeps_schema keeps_schema_trans);
      [|intros ?]
    | apply (maintains_try_catch Frame.keeps_schema keeps_schema_trans);
      [|intros ?]
    | apply prop_keeps_schema
    | apply set_string_keeps_schema; simpl; tauto
    | apply set_number_keeps_schema; simpl; tauto
    | apply maintains_date_now; apply keeps_schema_refl
    | apply maintains_read; apply keeps_schema_refl
    | apply maintains_ret; apply keeps_schema_refl
    | apply maintains_throw; apply keeps_schema_refl
    | match goal with
      | |- Eff.maintains _ (if ?b then _ else _) => destruct b
      end ].

(** [login] and [ensureAuth] leave a document that satisfies the schema. *)
Lemma login_keeps_schema (remote : LibApi.Remote) (secretId secretKey : string) :
  Eff.maintains Frame.keeps_schema (LibAuth.login remote secretId secretKey).
Proof.
  unfold LibAuth.login, LibApi.createClient, LibApi.constructor,
    LibApi.obtainToken, LibApi.post.
  keep_schema.
Qed.

Lemma ensureAuth_keeps_schema (remote : LibApi.Remote) :
  Eff.maintains Frame.keeps_schema (LibAuth.ensureAuth remote).
Proof.
  unfold LibAuth.ensureAuth, LibAuth.isAccessTokenValid,
    LibAuth.isRefreshTokenValid, LibAuth.refresh_and_save,
    LibApi.createClient, LibApi.constructor, LibApi.refreshToken, LibApi.post.
  keep_schema.
Qed.

End SchemaKept.

(** ** Who counts as authenticated *)

Section Authenticated.
Import Js.

Lemma isAuthenticated_run (w : LibApi.World) :
  LibAuth.isAuthenticated w
  = (Eff.Returned
       (LibConfig.isAccessTokenValid (Eff.conf w) (Eff.clock w)
        || LibConfig.isRefreshTokenValid (Eff.conf w) (Eff.clock w)),
     w).
Proof.
  unfold LibAuth.isAuthenticated, LibAuth.isAccessTokenValid,
    LibAuth.isRefreshTokenValid, Eff.bind, Eff.date_now, Eff.read, Eff.ret.
  destruct (LibConfig.isAccessTokenValid (Eff.conf w) (Eff.clock w));
    reflexivity.
Qed.

Lemma refresh_failed_is_not_not_authenticated :
  LibAuth.refresh_failed <> LibAuth.not_authenticated.
Proof. discriminate. Qed.

(** X1.  [ensureAuth] fails with the error "Not authenticated" in exactly
    the states in which [isAuthenticated()] answers false; it has then sent
    nothing and written nothing.  [isAuthenticated] itself never changes the
    state. *)
Theorem not_authenticated_iff (remote : LibApi.Remote) (w : LibApi.World) :
  (fst (LibAuth.ensureAuth remote w) = Eff.Thrown LibAuth.not_authenticated
   <-> fst (LibAuth.isAuthenticated w) = Eff.Returned false)
  /\ snd (LibAuth.isAuthenticated w) = w
  /\ (fst (LibAuth.ensureAuth remote w) = Eff.Thrown LibAuth.not_authenticated
      -> snd (LibAuth.ensureAuth remote w) = w).
Proof.
  rewrite isAuthenticated_run. cbn [fst snd].
  destruct (LibConfig.isAccessTokenValid (Eff.conf w) (Eff.clock w)) eqn:Ha.
  { rewrite (ensureAuth_valid remote w Ha). cbn [fst snd orb].
    split; [split; discriminate|]. split; [reflexivity|discriminate]. }
  destruct (LibConfig.isRefreshTokenValid (Eff.conf w) (Eff.clock w)) eqn:Hr.
  - destruct (refresh_valid_token _ _ Hr) as (token & Ht).
    destruct (ensureAuth_refresh_any remote w token Ha Hr Ht)
      as (_ & _ & Hthrown).
    assert (Hno : fst (LibAuth.ensureAuth remote w)
                  <> Eff.Thrown LibAuth.not_authenticated).
    { intros H. apply Hthrown in H.
      now apply refresh_failed_is_not_not_authenticated. }
    cbn [orb]. split; [split; [contradiction|discriminate]|].
    split; [reflexivity|contradiction].
  - rewrite (ensureAuth_no_token remote w Ha Hr). cbn [fst snd orb].
    repeat split.
Qed.

Lemma not_authenticated_iff_witness :
  fst (LibAuth.ensureAuth Sample.lib_granting
         (Sample.lib_world Sample.lib_credentials_only))
  = Eff.Thrown LibAuth.not_authenticated
  /\ snd (LibAuth.ensureAuth Sample.lib_granting
            (Sample.lib_world Sample.lib_credentials_only))
     = Sample.lib_world Sample.lib_credentials_only.
Proof.
  pose proof (not_authenticated_iff Sample.lib_granting
                (Sample.lib_world Sample.lib_credentials_only))
    as (Hiff & _ & Hsame).
  assert (H : fst (LibAuth.ensureAuth Sample.lib_granting
                     (Sample.lib_world Sample.lib_credentials_only))
              = Eff.Thrown LibAuth.not_authenticated)
    by (apply Hiff; reflexivity).
  split; [exact H|exact (Hsame H)].
Defined.

End Authenticated.

(** ** Validity as time passes *)

Section ValidityOverTime.
Import Js.

Lemma seconds_monotone (t t' : Z) :
  t <= t' -> LibConfig.seconds t <= LibConfig.seconds t'.
Proof. intros H. unfold LibConfig.seconds. apply Z.div_le_mono; lia. Qed.

Lemma later_than_earlier (expires : jsval) (b b' : Z) :
  b <= b' ->
  LibConfig.later_than expires b' = true ->
  LibConfig.later_than expires b = true.
Proof.
  intros Hb. destruct expires as [[| | e | | |]|]; simpl; try discriminate.
  rewrite !Z.ltb_lt. lia.
Qed.

Lemma later_than_bounded (expires : jsval) :
  exists bound, forall b, bound <= b -> LibConfig.later_than expires b = false.
Proof.
  destruct expires as [[| | e | | |]|];
    try (exists 0; intros ? _; reflexivity).
  exists e. intros b Hb. simpl. apply Z.ltb_ge. lia.
Qed.

(** X2.  For a stored document that the schema admits (expiries, when
    stored, are numbers): a token that is valid at some time was valid at
    every earlier time, so once [isAccessTokenValid()] or
    [isRefreshTokenValid()] has answered false for a document, it answers
    false for that document ever after.  And every stored token runs out:
    from some time on the answer is false. *)
Theorem token_validity_over_time :
  (forall (s : Conf.store) (t t' : Z),
      LibConfig.schema s = true ->
      t <= t' ->
      (LibConfig.isAccessTokenValid s t' = true ->
       LibConfig.isAccessTokenValid s t = true)
      /\ (LibConfig.isRefreshTokenValid s t' = true ->
          LibConfig.isRefreshTokenValid s t = true))
  /\ (forall (s : Conf.store),
         LibConfig.schema s = true ->
         exists T, forall t,
           T <= t ->
           LibConfig.isAccessTokenValid s t = false
           /\ LibConfig.isRefreshTokenValid s t = false).
Proof.
  split.
  - intros s t t' _ Ht.
    pose proof (seconds_monotone t t' Ht) as Hs.
    unfold LibConfig.isAccessTokenValid, LibConfig.isRefreshTokenValid.
    split; intros H.
    + destruct (negb (truthy (Conf.get s ["auth"; "access_token"]))
                || negb (truthy (Conf.get s ["auth"; "access_expires"])));
        [discriminate|].
      apply (later_than_earlier _ _ (LibConfig.seconds t' + 60)); [lia|exact H].
    + destruct (negb (truthy (Conf.get s ["auth"; "refresh_token"]))
                || negb (truthy (Conf.get s ["auth"; "refresh_expires"])));
        [discriminate|].
      apply (later_than_earlier _ _ (LibConfig.seconds t' + 60)); [lia|exact H].
  - intros s _.
    destruct (later_than_bounded (Conf.get s ["auth"; "access_expires"]))
      as (ba & Ha).
    destruct (later_than_bounded (Conf.get s ["auth"; "refresh_expires"]))
      as (br & Hr).
    exists (1000 * Z.max ba br). intros t Ht.
    assert (Hsec : Z.max ba br <= LibConfig.seconds t).
    { unfold LibConfig.seconds. apply Z.div_le_lower_bound; lia. }
    unfold LibConfig.isAccessTokenValid, LibConfig.isRefreshTokenValid.
    rewrite Ha by lia. rewrite Hr by lia.
    split.
    + destruct (negb (truthy (Conf.get s ["auth"; "access_token"]))
                || negb (truthy (Conf.get s ["auth"; "access_expires"])));
        reflexivity.
    + destruct (negb (truthy (Conf.get s ["auth"; "refresh_token"]))
                || negb (truthy (Conf.get s ["auth"; "refresh_expires"])));
        reflexivity.
Qed.

Lemma token_validity_over_time_witness :
  LibConfig.isAccessTokenValid (Sample.store_expiring 1700003600) 1699990000000
  = true.
Proof.
  apply (proj1 (proj1 token_validity_over_time
                  (Sample.store_expiring 1700003600)
                  1699990000000 1700000000000 eq_refl ltac:(lia))).
  reflexivity.
Defined.

End ValidityOverTime.

(** ** The refresh token and [isAuthenticated] *)

Section RefreshValidity.
Import Js.

Lemma schema_refresh_token (s : Conf.store) :
  LibConfig.schema s = true ->
  Conf.opt_string (Conf.get s ["auth"; "refresh_token"]) = true.
Proof.
  unfold LibConfig.schema. destruct s; try discriminate.
  intros H. repeat (apply andb_prop in H; destruct H as [H ?]). assumption.
Qed.

Lemma schema_refresh_expires (s : Conf.store) :
  LibConfig.schema s = true ->
  Conf.opt_number (Conf.get s ["auth"; "refresh_expires"]) = true.
Proof.
  unfold LibConfig.schema. destruct s; try discriminate.
  intros H. repeat (apply andb_prop in H; destruct H as [H ?]). assumption.
Qed.

(** The test shared by the two validity checks, for a token that is a
    string and an expiry that is a number whenever they are stored. *)
Lemma valid_iff (token expires : jsval) (bound : Z) :
  Conf.opt_string token = true ->
  Conf.opt_number expires = true ->
  0 <= bound ->
  ((if negb (truthy token) || negb (truthy expires) then false
    else LibConfig.later_than expires bound) = true
   <-> exists t e,
         token = Some (VStr t) /\ t <> ""
         /\ expires = Some (VNum e) /\ e > bound).
Proof.
  intros Htok Hexp Hb. split.
  - intros H.
    destruct (truthy token) eqn:Et; [|discriminate].
    destruct (truthy expires) eqn:Ee; [|discriminate].
    destruct (opt_string_truthy _ Htok Et) as (t & -> & Hne).
    destruct (opt_number_truthy _ Hexp Ee) as (e & -> & _).
    exists t, e. simpl in H. apply Z.ltb_lt in H.
    repeat split; try assumption; try reflexivity. lia.
  - intros (t & e & -> & Hne & -> & Hgt).
    rewrite truthy_nonempty by assumption.
    assert (Hnz : truthy (Some (VNum e)) = true).
    { simpl. destruct (Z.eqb_spec e 0); [lia|reflexivity]. }
    rewrite Hnz. simpl. apply Z.ltb_lt. lia.
Qed.

(** X3.  For every stored document that the schema admits and every clock at
    or after the epoch, [isRefreshTokenValid()] answers true exactly when a
    refresh token that is not empty is stored with an expiry greater than
    now plus sixty seconds (an expiry of exactly now plus sixty is not
    valid), and [isAuthenticated()] answers true exactly when the access
    token or the refresh token is stored, not empty, and expires later than
    now plus sixty seconds. *)
Theorem isAuthenticated_iff (w : LibApi.World) :
  LibConfig.schema (Eff.conf w) = true ->
  0 <= Eff.clock w ->
  let now := LibConfig.seconds (Eff.clock w) in
  let usable (token expiry : string) :=
    exists t e,
      Conf.get (Eff.conf w) ["auth"; token] = Some (VStr t) /\ t <> ""
      /\ Conf.get (Eff.conf w) ["auth"; expiry] = Some (VNum e)
      /\ e > now + 60 in
  (LibConfig.isRefreshTokenValid (Eff.conf w) (Eff.clock w) = true
   <-> usable "refresh_token" "refresh_expires")
  /\ (Conf.get (Eff.conf w) ["auth"; "refresh_expires"]
      = Some (VNum (now + 60)) ->
      LibConfig.isRefreshTokenValid (Eff.conf w) (Eff.clock w) = false)
  /\ (fst (LibAuth.isAuthenticated w) = Eff.Returned true
      <-> usable "access_token" "access_expires"
          \/ usable "refresh_token" "refresh_expires").
Proof.
  intros Hschema Hclock now usable.
  pose proof (seconds_nonneg _ Hclock) as Hnow. fold now in Hnow.
  assert (Ha : LibConfig.isAccessTokenValid (Eff.conf w) (Eff.clock w) = true
               <-> usable "access_token" "access_expires").
  { apply valid_iff;
      [now apply schema_access_token|now apply schema_access_expires|lia]. }
  assert (Hr : LibConfig.isRefreshTokenValid (Eff.conf w) (Eff.clock w) = true
               <-> usable "refresh_token" "refresh_expires").
  { apply valid_iff;
      [now apply schema_refresh_token|now apply schema_refresh_expires|lia]. }
  split; [exact Hr|]. split.
  - intros He. unfold LibConfig.isRefreshTokenValid. rewrite He. fold now.
    destruct (negb (truthy (Conf.get (Eff.conf w) ["auth"; "refresh_token"]))
              || negb (truthy (Some (VNum (now + 60))))); [reflexivity|].
    simpl. apply Z.ltb_irrefl.
  - rewrite isAuthenticated_run. cbn [fst].
    rewrite <- Ha, <- Hr.
    destruct (LibConfig.isAccessTokenValid (Eff.conf w) (Eff.clock w));
      destruct (LibConfig.isRefreshTokenValid (Eff.conf w) (Eff.clock w));
      cbn [orb]; split; intros H; auto; try discriminate.
    destruct H; discriminate.
Qed.

Lemma isAuthenticated_iff_witness :
  fst (LibAuth.isAuthenticated (Sample.lib_world Sample.lib_expired_access))
  = Eff.Returned true.
Proof.
  apply (proj2 (proj2 (isAuthenticated_iff
                         (Sample.lib_world Sample.lib_expired_access)
                         eq_refl ltac:(vm_compute; discriminate)))).
  right. exists "ref1", 1702592000.
  split; [reflexivity|]. split; [discriminate|]. split; [reflexivity|].
  vm_compute. reflexivity.
Defined.

End RefreshValidity.

(** ** Logging in, logging out, and what [ensureAuth] does next *)

Section AfterLogin.
Import Js.

Lemma remove_remove (k : string) (ms : list (string * value)) :
  remove k (remove k ms) = remove k ms.
Proof.
  induction ms as [|[k' v'] rest IH]; simpl; [reflexivity|].
  destruct (k =? k')%string eqn:E; [exact IH|].
  simpl. rewrite E. now rewrite IH.
Qed.

Lemma valid_after_delete (s : Conf.store) (t : Z) :
  LibConfig.isAccessTokenValid (Conf.delete s ["auth"]) t = false
  /\ LibConfig.isRefreshTokenValid (Conf.delete s ["auth"]) t = false.
Proof.
  unfold LibConfig.isAccessTokenValid, LibConfig.isRefreshTokenValid.
  rewrite !get_delete_same. split; reflexivity.
Qed.

(** X4.  After a successful [login] whose grant has a non-empty access token
    that lasts longer than sixty seconds, [ensureAuth] returns that token at
    once: it sends nothing, whatever the remote side would answer, and
    leaves the state as [login] left it.  A grant that lasts sixty seconds
    or less is never used: the stored access token is not valid the moment
    it has been saved. *)
Theorem login_then_ensureAuth (remote remote' : LibApi.Remote)
  (w : LibApi.World) (secretId secretKey : string) (r : LibApi.Response)
  (data : value) (a rf : string) (ae re : Z) :
  Eff.answer remote (Wire.lib_token_new secretId secretKey) w
  = LibApi.Responded r ->
  LibApi.delivers r data ->
  LibApi.member data "access" = Some (VStr a) ->
  LibApi.member data "refresh" = Some (VStr rf) ->
  LibApi.member data "access_expires" = Some (VNum ae) ->
  LibApi.member data "refresh_expires" = Some (VNum re) ->
  exists w',
    LibAuth.login remote secretId secretKey w = (Eff.Returned data, w')
    /\ (a <> "" -> 60 < ae -> 0 <= Eff.clock w' ->
        LibAuth.ensureAuth remote' w' = (Eff.Returned (Some (VStr a)), w')
        /\ LibAuth.isAuthenticated w' = (Eff.Returned true, w'))
    /\ (ae <= 60 ->
        LibConfig.isAccessTokenValid (Eff.conf w') (Eff.clock w') = false).
Proof.
  intros Hr Hd Ha Hrf Hae Hre.
  rewrite (login_success remote w secretId secretKey r data a rf ae re
             Hr Hd Ha Hrf Hae Hre).
  eexists. split; [reflexivity|].
  cbv zeta.
  set (w1 := Eff.settled remote (Wire.lib_token_new secretId secretKey) w).
  set (now := LibConfig.seconds (Eff.clock w1)).
  match goal with
  | |- context [Eff.mkWorld ?s (Eff.clock w1) (Eff.sent w1)] =>
      set (s' := s)
  end.
  assert (Htok : Conf.get s' ["auth"; "access_token"] = Some (VStr a)).
  { subst s'.
    repeat first [ apply get_set_same
                 | rewrite get_set_sibling by discriminate ]. }
  assert (Hexp : Conf.get s' ["auth"; "access_expires"]
                 = Some (VNum (now + ae))).
  { subst s'.
    repeat first [ apply get_set_same
                 | rewrite get_set_sibling by discriminate ]. }
  split.
  - intros Hne Hlong Hclock. cbn [Eff.clock] in Hclock.
    assert (Hvalid : LibConfig.isAccessTokenValid s' (Eff.clock w1) = true).
    { unfold LibConfig.isAccessTokenValid. rewrite Htok, Hexp.
      rewrite (truthy_nonempty a Hne).
      pose proof (seconds_nonneg _ Hclock) as Hnow. fold now in Hnow.
      assert (Hnz : truthy (Some (VNum (now + ae))) = true).
      { simpl. destruct (Z.eqb_spec (now + ae) 0); [lia|reflexivity]. }
      rewrite Hnz. cbn [negb orb LibConfig.later_than].
      apply Z.ltb_lt. unfold now in *. lia. }
    split.
    + rewrite (ensureAuth_valid remote'
                 (Eff.mkWorld s' (Eff.clock w1) (Eff.sent w1)) Hvalid).
      cbn [Eff.conf]. now rewrite Htok.
    + rewrite isAuthenticated_run. cbn [Eff.conf Eff.clock].
      now rewrite Hvalid.
  - intros Hshort. cbn [Eff.conf Eff.clock].
    unfold LibConfig.isAccessTokenValid. rewrite Htok, Hexp.
    destruct (negb (truthy (Some (VStr a)))
              || negb (truthy (Some (VNum (now + ae))))); [reflexivity|].
    cbn [LibConfig.later_than]. apply Z.ltb_ge. unfold now. lia.
Qed.

Lemma login_then_ensureAuth_witness :
  exists w',
    LibAuth.login Sample.lib_granting "A" "B" (Sample.lib_world Conf.empty)
    = (Eff.Returned Sample.grant, w')
    /\ LibAuth.ensureAuth Sample.lib_unauthorized w'
       = (Eff.Returned (Some (VStr "tok1")), w').
Proof.
  destruct (login_then_ensureAuth Sample.lib_granting Sample.lib_unauthorized
              (Sample.lib_world Conf.empty) "A" "B"
              (Sample.json_response Sample.grant) Sample.grant
              "tok1" "ref1" 3600 2592000)
    as (w' & Hlogin & Hnext & _); try reflexivity.
  { split; [reflexivity|]. split; [|reflexivity].
    exists "application/json". split; reflexivity. }
  exists w'. split; [exact Hlogin|].
  assert (Hw : w' = snd (LibAuth.login Sample.lib_granting "A" "B"
                           (Sample.lib_world Conf.empty)))
    by (now rewrite Hlogin).
  apply Hnext; [discriminate|lia|].
  rewrite Hw. vm_compute. discriminate.
Defined.

(** X5.  After [logout] nothing authenticates:  [ensureAuth] fails with "Not
    authenticated" without sending anything, [isAuthenticated()] answers
    false, a client created now holds no token, so that none of its requests
    carries an [Authorization] header, and a second [logout] changes
    nothing. *)
Theorem logout_then_unauthenticated (remote : LibApi.Remote)
  (w : LibApi.World) :
  let w' := snd (LibAuth.logout w) in
  LibAuth.ensureAuth remote w' = (Eff.Thrown LibAuth.not_authenticated, w')
  /\ LibAuth.isAuthenticated w' = (Eff.Returned false, w')
  /\ LibApi.createClient None w'
     = (Eff.Returned (LibApi.mkClient LibApi.BASE_URL (Some VNull)), w')
  /\ (forall (method endpoint : string) (options : LibApi.Options),
         LibApi.headers
           (LibApi.outgoing (LibApi.mkClient LibApi.BASE_URL (Some VNull))
              method endpoint options)
         = Wire.json_headers)
  /\ LibAuth.logout w' = (Eff.Returned tt, w').
Proof.
  cbv zeta. unfold LibAuth.logout, Eff.write.
  cbn [snd Eff.conf Eff.clock Eff.sent].
  set (w' := Eff.mkWorld (Conf.delete (Eff.conf w) ["auth"]) (Eff.clock w)
               (Eff.sent w)).
  destruct (valid_after_delete (Eff.conf w) (Eff.clock w)) as (Ha & Hr).
  split; [|split; [|split; [|split]]].
  - apply ensureAuth_no_token; assumption.
  - rewrite isAuthenticated_run. cbn [Eff.conf Eff.clock w'].
    now rewrite Ha, Hr.
  - unfold LibApi.createClient, LibApi.constructor, Eff.read,
      LibApi.getStoredToken.
    cbn [Eff.conf w']. rewrite get_delete_same. reflexivity.
  - intros method endpoint options. unfold LibApi.outgoing.
    cbn [LibApi.headers]. unfold LibApi.request_headers.
    cbn [LibApi.accessToken truthy]. now rewrite andb_false_r.
  - f_equal. unfold w'. f_equal.
    destruct (Eff.conf w); try reflexivity.
    cbn [Conf.delete]. now rewrite remove_remove.
Qed.

End AfterLogin.

(** ** The authentication status *)

Section Status.
Import Js.

Lemma getAuthStatus_run (w : LibApi.World) :
  let s := Eff.conf w in
  let now := LibConfig.seconds (Eff.clock w) in
  let access := LibConfig.isAccessTokenValid s (Eff.clock w) in
  let refresh := LibConfig.isRefreshTokenValid s (Eff.clock w) in
  LibAuth.getAuthStatus w
  = (Eff.Returned
       (LibAuth.mkAuthStatus (access || refresh)
          (truthy (Conf.get s ["auth"; "access_token"]))
          (truthy (Conf.get s ["auth"; "refresh_token"]))
          access refresh
          (LibAuth.expires_in (Conf.get s ["auth"; "access_expires"]) now)
          (LibAuth.expires_in (Conf.get s ["auth"; "refresh_expires"]) now)),
     w).
Proof.
  cbv zeta. unfold LibAuth.getAuthStatus.
  unfold Eff.bind at 1 2 3 4 5. cbn [Eff.read Eff.date_now].
  unfold Eff.bind at 1. rewrite isAuthenticated_run.
  unfold LibAuth.isAccessTokenValid, LibAuth.isRefreshTokenValid, Eff.bind,
    Eff.date_now, Eff.read, Eff.ret.
  reflexivity.
Qed.

Lemma expires_in_nonneg (expires : jsval) (now : Z) :
  0 <= LibAuth.expires_in expires now.
Proof.
  unfold LibAuth.expires_in.
  destruct (truthy expires); [|lia].
  destruct expires as [[| | e | | |]|]; lia.
Qed.

Lemma expires_in_valid (token expires : jsval) (now : Z) :
  (if negb (truthy token) || negb (truthy expires) then false
   else LibConfig.later_than expires (now + 60)) = true ->
  60 < LibAuth.expires_in expires now.
Proof.
  unfold LibAuth.expires_in.
  destruct (truthy token); [|discriminate].
  destruct (truthy expires); [|discriminate]. cbn [negb orb].
  destruct expires as [[| | e | | |]|]; simpl; try discriminate.
  intros H. apply Z.ltb_lt in H. lia.
Qed.

(** X6.  For a stored document that the schema admits, [getAuthStatus()]
    changes nothing and returns a status that hangs together:
    [authenticated] is the disjunction of the two validity flags and is what
    [isAuthenticated()] answers, the remaining times are never negative, a
    token reported valid is reported present with more than sixty seconds
    remaining, and a token reported absent is never reported valid. *)
Theorem auth_status_consistent (w : LibApi.World) :
  LibConfig.schema (Eff.conf w) = true ->
  exists status,
    LibAuth.getAuthStatus w = (Eff.Returned status, w)
    /\ LibAuth.authenticated status
       = LibAuth.accessTokenValid status || LibAuth.refreshTokenValid status
    /\ fst (LibAuth.isAuthenticated w)
       = Eff.Returned (LibAuth.authenticated status)
    /\ 0 <= LibAuth.accessExpiresIn status
    /\ 0 <= LibAuth.refreshExpiresIn status
    /\ (LibAuth.accessTokenValid status = true ->
        LibAuth.hasAccessToken status = true
        /\ 60 < LibAuth.accessExpiresIn status)
    /\ (LibAuth.refreshTokenValid status = true ->
        LibAuth.hasRefreshToken status = true
        /\ 60 < LibAuth.refreshExpiresIn status)
    /\ (LibAuth.hasAccessToken status = false ->
        LibAuth.accessTokenValid status = false)
    /\ (LibAuth.hasRefreshToken status = false ->
        LibAuth.refreshTokenValid status = false).
Proof.
  intros _. pose proof (getAuthStatus_run w) as Hrun. cbv zeta in Hrun.
  eexists. split; [exact Hrun|].
  cbn [LibAuth.authenticated LibAuth.hasAccessToken LibAuth.hasRefreshToken
       LibAuth.accessTokenValid LibAuth.refreshTokenValid
       LibAuth.accessExpiresIn LibAuth.refreshExpiresIn].
  split; [reflexivity|].
  split; [now rewrite isAuthenticated_run|].
  split; [apply expires_in_nonneg|]. split; [apply expires_in_nonneg|].
  unfold LibConfig.isAccessTokenValid, LibConfig.isRefreshTokenValid.
  repeat split.
  - destruct (truthy (Conf.get (Eff.conf w) ["auth"; "access_token"]));
      [reflexivity|discriminate].
  - now apply (expires_in_valid
                 (Conf.get (Eff.conf w) ["auth"; "access_token"])).
  - destruct (truthy (Conf.get (Eff.conf w) ["auth"; "refresh_token"]));
      [reflexivity|discriminate].
  - now apply (expires_in_valid
                 (Conf.get (Eff.conf w) ["auth"; "refresh_token"])).
  - intros ->. reflexivity.
  - intros ->. reflexivity.
Qed.

Lemma auth_status_consistent_witness :
  exists status,
    LibAuth.getAuthStatus (Sample.lib_world Sample.store_full)
    = (Eff.Returned status, Sample.lib_world Sample.store_full)
    /\ LibAuth.accessTokenValid status = true
    /\ LibAuth.accessExpiresIn status = 3600.
Proof.
  destruct (auth_status_consistent (Sample.lib_world Sample.store_full)
              eq_refl)
    as (status & Hrun & _).
  exists status. split; [exact Hrun|].
  assert (Hs : status
               = match fst (LibAuth.getAuthStatus
                              (Sample.lib_world Sample.store_full)) with
                 | Eff.Returned x => x
                 | Eff.Thrown _ => status
                 end) by (now rewrite Hrun).
  rewrite Hs. split; vm_compute; reflexivity.
Defined.

End Status.

(** ** Durations and shortened strings ([src/lib/output.js]) *)

Section Formatting.
Import Js.
Import Output.

Lemma div_bounds (a b : Z) : 0 < b -> a / b * b <= a < (a / b + 1) * b.
Proof.
  intros Hb. pose proof (Z.div_mod a b ltac:(lia)) as Hdm.
  pose proof (Z.mod_pos_bound a b Hb) as Hm. nia.
Qed.

(** X7.  [formatDuration] never rounds up.  Whatever the number of seconds,
    the text is a count followed by a unit, with an [s] unless the count is
    1; the count is the number of whole units that fit into the seconds
    given, so that the text understates the duration by less than one unit;
    the unit is the second below one minute, the minute below one hour, the
    hour below one day and the day from there on, so that a count of seconds
    or minutes stays below 60, a count of hours below 24, and a count is 0
    only for a duration of 0 seconds. *)
Theorem formatDuration_floor (seconds : Z) :
  exists (n size : Z) (unit : string),
    In (unit, size)
       [("second", 1); ("minute", 60); ("hour", 3600); ("day", 86400)]
    /\ formatDuration seconds = dec n ++ " " ++ unit ++ plural n
    /\ n * size <= seconds < (n + 1) * size
    /\ (seconds < 60 <-> unit = "second")
    /\ (unit = "minute" -> 1 <= n < 60)
    /\ (unit = "hour" -> 1 <= n < 24)
    /\ (unit = "day" -> 1 <= n).
Proof.
  unfold formatDuration.
  destruct (Z.ltb_spec seconds 60) as [H1|H1].
  { exists seconds, 1, "second". simpl.
    repeat split; try lia; try discriminate; auto. }
  destruct (Z.ltb_spec seconds 3600) as [H2|H2].
  { pose proof (div_bounds seconds 60 ltac:(lia)) as Hb.
    exists (seconds / 60), 60, "minute". cbv zeta. simpl In.
    repeat split; try lia; try discriminate; auto. }
  destruct (Z.ltb_spec seconds 86400) as [H3|H3].
  { pose proof (div_bounds seconds 3600 ltac:(lia)) as Hb.
    exists (seconds / 3600), 3600, "hour". cbv zeta. simpl In.
    repeat split; try lia; try discriminate; auto 6. }
  pose proof (div_bounds seconds 86400 ltac:(lia)) as Hb.
  exists (seconds / 86400), 86400, "day". cbv zeta. simpl In.
  repeat split; try lia; try discriminate; auto 6.
Qed.

(** The durations that the remote API grants, as [auth login] shows
    them. *)
Example test_formatDuration :
  formatDuration 3600 = "1 hour"
  /\ formatDuration 2592000 = "30 days"
  /\ formatDuration 86399 = "23 hours"
  /\ formatDuration 61 = "1 minute"
  /\ formatDuration 1 = "1 second"
  /\ formatDuration 0 = "0 seconds".
Proof. repeat split. Qed.

Lemma length_append (s t : string) :
  String.length (s ++ t) = (String.length s + String.length t)%nat.
Proof. induction s as [|c s IH]; simpl; [reflexivity|now rewrite IH]. Qed.

Lemma length_substring0 (s : string) (n : nat) :
  String.length (substring 0 n s) = Nat.min n (String.length s).
Proof.
  revert n. induction s as [|c s IH]; intros [|n]; simpl; try reflexivity.
  now rewrite IH.
Qed.

Lemma prefix_substring0 (s : string) (n : nat) :
  prefix (substring 0 n s) s = true.
Proof.
  revert n. induction s as [|c s IH]; intros [|n]; simpl; try reflexivity.
  destruct (ascii_dec c c); [apply IH|contradiction].
Qed.

(** X8.  [truncate] gives a string back as it is when it fits into
    [maxLength] characters.  A longer string is cut: the result is the first
    [maxLength - 3] characters of the string followed by three dots.  For a
    [maxLength] of 3 or more the result never has more than [maxLength]
    characters; below 3 nothing of a longer string is kept and the result is
    the three dots alone, which is longer than asked for.  Nothing and the
    empty string give the empty string. *)
Theorem truncate_spec (s : string) (m : Z) :
  (Z.of_nat (String.length s) <= m -> truncate (Some s) (Some m) = s)
  /\ (s <> "" -> m < Z.of_nat (String.length s) ->
      exists p,
        truncate (Some s) (Some m) = p ++ "..."
        /\ prefix p s = true
        /\ Z.of_nat (String.length p) = Z.max 0 (m - 3))
  /\ (3 <= m -> Z.of_nat (String.length (truncate (Some s) (Some m))) <= m)
  /\ (s <> "" -> m < 3 -> m < Z.of_nat (String.length s) ->
      truncate (Some s) (Some m) = "...")
  /\ truncate None (Some m) = ""
  /\ truncate (Some "") (Some m) = "".
Proof.
  assert (Hcut : s <> "" -> m < Z.of_nat (String.length s) ->
                 truncate (Some s) (Some m) = substring0 s (m - 3) ++ "...").
  { intros Hne Hlong. unfold truncate.
    destruct (String.eqb_spec s ""); [contradiction|].
    destruct (Z.leb_spec (Z.of_nat (String.length s)) m); [lia|reflexivity]. }
  assert (Hlen : m < Z.of_nat (String.length s) ->
                 Z.of_nat (String.length (substring0 s (m - 3)))
                 = Z.max 0 (m - 3)).
  { intros Hlong. unfold substring0. rewrite length_substring0. lia. }
  split; [|split; [|split; [|split; [|split]]]].
  - intros Hfit. unfold truncate.
    destruct (String.eqb_spec s ""); [congruence|].
    destruct (Z.leb_spec (Z.of_nat (String.length s)) m); [reflexivity|lia].
  - intros Hne Hlong. exists (substring0 s (m - 3)).
    split; [now apply Hcut|]. split; [apply prefix_substring0|now apply Hlen].
  - intros Hm.
    destruct (String.eqb_spec s "") as [->|Hne]; [simpl; lia|].
    destruct (Z.leb_spec (Z.of_nat (String.length s)) m) as [Hfit|Hlong].
    + unfold truncate.
      destruct (String.eqb_spec s ""); [contradiction|].
      destruct (Z.leb_spec (Z.of_nat (String.length s)) m); [lia|lia].
    + rewrite (Hcut Hne Hlong), length_append.
      rewrite Nat2Z.inj_add, (Hlen Hlong). simpl. lia.
  - intros Hne Hm Hlong. rewrite (Hcut Hne Hlong). unfold substring0.
    replace (Z.to_nat (m - 3)) with 0%nat by lia.
    destruct s; reflexivity.
  - reflexivity.
  - reflexivity.
Qed.

Lemma truncate_spec_witness :
  (exists p,
      truncate (Some "Deutsche Bank AG") (Some 10) = p ++ "..."
      /\ prefix p "Deutsche Bank AG" = true
      /\ Z.of_nat (String.length p) = Z.max 0 (10 - 3))
  /\ truncate (Some "Deutsche Bank AG") (Some 2) = "...".
Proof.
  split.
  - apply (proj1 (proj2 (truncate_spec "Deutsche Bank AG" 10)));
      [discriminate|vm_compute; reflexivity].
  - reflexivity.
Defined.

End Formatting.

(** ** The resource methods *)

Section ResourceMethods.
Import Js.
Import LibApi.
Import Resources.

Variable remote : Remote.

Lemma outgoing_under_api (self : NordigenAPI) (method rest : string)
  (options : Options) :
  baseURL self = BASE_URL ->
  opt_auth options = true ->
  let call := outgoing self method ("/api/v2/" ++ rest) options in
  prefix "https://ob.nordigen.com/api/v2/" (url call) = true
  /\ LibApi.method call = method
  /\ (truthy (accessToken self) = true ->
      headers call
      = (Wire.json_headers
           ++ [("Authorization",
                ("Bearer " ++ show (accessToken self))%string)])%list)
  /\ (truthy (accessToken self) = false -> headers call = Wire.json_headers)
  /\ (opt_body options = None -> body call = None).
Proof.
  intros Hbase Hauth. cbv zeta. unfold outgoing.
  cbn [url LibApi.method headers body]. rewrite Hbase, Hauth.
  split; [|split; [reflexivity|split; [|split]]].
  - unfold href, BASE_URL.
    destruct (searchParams (opt_query options)) as [|p ps].
    + apply (prefix_app "https://ob.nordigen.com/api/v2/" rest).
    + apply (prefix_app "https://ob.nordigen.com/api/v2/"
               (rest ++ "?" ++ form_urlencoded (p :: ps))).
  - intros Ht. unfold request_headers. now rewrite Ht.
  - intros Ht. unfold request_headers. now rewrite Ht.
  - intros ->. reflexivity.
Qed.

(** X9.  Every resource method of the client created by [createClient] makes
    exactly one call and leaves the stored document alone.  When the
    identifier it is given consists of letters, digits, [-] and [_], the
    call goes to a URL under [https://ob.nordigen.com/api/v2/]; it carries
    the token of the client as a bearer token when the client holds one and
    no [Authorization] header when it holds none; and only a [POST] or a
    [PUT] has a body. *)
Theorem resource_methods_call_once (self : NordigenAPI) (op : Operation)
  (w : World) :
  baseURL self = BASE_URL ->
  plain_identifier op = true ->
  exists call,
    snd (perform remote self op w) = Eff.settled remote call w
    /\ Eff.conf (snd (perform remote self op w)) = Eff.conf w
    /\ Eff.sent (snd (perform remote self op w)) = (Eff.sent w ++ [call])%list
    /\ prefix "https://ob.nordigen.com/api/v2/" (url call) = true
    /\ In (LibApi.method call) ["GET"; "POST"; "PUT"; "DELETE"]
    /\ (truthy (accessToken self) = true ->
        headers call
        = (Wire.json_headers
             ++ [("Authorization",
                  ("Bearer " ++ show (accessToken self))%string)])%list)
    /\ (truthy (accessToken self) = false -> headers call = Wire.json_headers)
    /\ (body call <> None ->
        LibApi.method call = "POST" \/ LibApi.method call = "PUT").
Proof.
  intros Hbase _.
  assert (Hone : forall method endpoint rest options,
             endpoint = "/api/v2/" ++ rest ->
             opt_auth options = true ->
             (opt_body options <> None -> method = "POST" \/ method = "PUT") ->
             In method ["GET"; "POST"; "PUT"; "DELETE"] ->
             let call := outgoing self method endpoint options in
             snd (request remote self method endpoint options w)
             = Eff.settled remote call w
             /\ Eff.conf (snd (request remote self method endpoint options w))
                = Eff.conf w
             /\ Eff.sent (snd (request remote self method endpoint options w))
                = (Eff.sent w ++ [call])%list
             /\ prefix "https://ob.nordigen.com/api/v2/" (url call) = true
             /\ In (LibApi.method call) ["GET"; "POST"; "PUT"; "DELETE"]
             /\ (truthy (accessToken self) = true ->
                 headers call
                 = (Wire.json_headers
                      ++ [("Authorization",
                           ("Bearer " ++ show (accessToken self))%string)])%list)
             /\ (truthy (accessToken self) = false ->
                 headers call = Wire.json_headers)
             /\ (body call <> None ->
                 LibApi.method call = "POST" \/ LibApi.method call = "PUT")).
  { intros method endpoint rest options -> Hauth Hbody Hmethod. cbv zeta.
    destruct (outgoing_under_api self method rest options Hbase Hauth)
      as (Hu & Hm & Hh1 & Hh2 & Hb).
    rewrite request_world. cbn [Eff.settled Eff.conf Eff.sent].
    rewrite Hm.
    repeat split; try assumption; try reflexivity.
    intros Hsome. apply Hbody. intros Hnone. now apply Hsome, Hb. }
  destruct op; unfold perform, getAccount, getAccountBalances,
    getAccountDetails, getAccountTransactions, getPremiumTransactions,
    listInstitutions, getInstitution, listAgreements, createAgreement,
    getAgreement, deleteAgreement, acceptAgreement, listRequisitions,
    createRequisition, getRequisition, deleteRequisition, listPayments,
    createPayment, getPayment, deletePayment, listCreditorAccounts,
    listCreditors, createCreditor, getCreditor, deleteCreditor,
    getPaymentFields, get, post, put, delete, with_query, no_options;
    cbn [opt_query opt_auth];
    match goal with
    | |- context [request remote self ?method ?endpoint ?options] =>
        eexists;
        apply (Hone method endpoint _ options eq_refl eq_refl)
    end;
    cbn [opt_body]; simpl In; auto 6; try (intros H; now contradiction H).
Qed.

End ResourceMethods.

Lemma resource_methods_call_once_witness :
  exists call,
    Eff.sent
      (snd (Resources.perform Sample.lib_granting
              (LibApi.mkClient LibApi.BASE_URL (Some (Js.VStr "tok1")))
              (Resources.GetAccountBalances
                 "3fa85f64-5717-4562-b3fc-2c963f66afa6")
              (Sample.lib_world Sample.store_full)))
    = [call]
    /\ LibApi.url call
       = "https://ob.nordigen.com/api/v2/accounts/3fa85f64-5717-4562-b3fc-2c963f66afa6/balances/"
    /\ In ("Authorization", "Bearer tok1") (LibApi.headers call).
Proof.
  destruct (resource_methods_call_once Sample.lib_granting
              (LibApi.mkClient LibApi.BASE_URL (Some (Js.VStr "tok1")))
              (Resources.GetAccountBalances
                 "3fa85f64-5717-4562-b3fc-2c963f66afa6")
              (Sample.lib_world Sample.store_full) eq_refl eq_refl)
    as (call & Hw & _ & Hsent & _).
  exists call. split; [exact Hsent|].
  assert (Hcall : [call]
                  = Eff.sent
                      (snd (Resources.perform Sample.lib_granting
                              (LibApi.mkClient LibApi.BASE_URL
                                 (Some (Js.VStr "tok1")))
                              (Resources.GetAccountBalances
                                 "3fa85f64-5717-4562-b3fc-2c963f66afa6")
                              (Sample.lib_world Sample.store_full))))
    by (now rewrite Hsent).
  vm_compute in Hcall. injection Hcall as ->.
  split; [reflexivity|]. simpl. auto.
Defined.

(** ** The country of a list of institutions *)

Section Country.
Import Js.
Import LibApi.
Import Resources.

Lemma put_entry_new (key : string) (v : jsval)
  (entries : list (string * jsval)) :
  ~ In key (map fst entries) ->
  put_entry key v entries = (entries ++ [(key, v)])%list.
Proof.
  induction entries as [|[k x] rest IH]; simpl; intros Hnew; [reflexivity|].
  destruct (String.eqb_spec key k) as [->|Hne].
  - exfalso. apply Hnew. now left.
  - rewrite IH; [reflexivity|]. intros Hin. apply Hnew. now right.
Qed.

Lemma entry_absent (key : string) (entries : list (string * jsval)) :
  ~ In key (map fst entries) -> entry key entries = None.
Proof.
  induction entries as [|[k x] rest IH]; simpl; intros Hnew; [reflexivity|].
  destruct (String.eqb_spec key k) as [->|Hne].
  - exfalso. apply Hnew. now left.
  - apply IH. intros Hin. apply Hnew. now right.
Qed.

Lemma without_absent (key : string) (entries : list (string * jsval)) :
  ~ In key (map fst entries) -> without key entries = entries.
Proof.
  induction entries as [|[k x] rest IH]; simpl; intros Hnew; [reflexivity|].
  destruct (String.eqb_spec k key) as [->|Hne].
  - exfalso. apply Hnew. now left.
  - simpl. rewrite IH; [reflexivity|]. intros Hin. apply Hnew. now right.
Qed.

Lemma spread_onto (more rest : list (string * jsval)) (c : jsval) :
  NoDup (map fst more) ->
  (forall k, In k (map fst more) -> ~ In k (map fst rest)) ->
  ~ In "country" (map fst rest) ->
  spread (("country", c) :: rest) more
  = ("country", match entry "country" more with Some v => v | None => c end)
    :: (rest ++ without "country" more)%list.
Proof.
  unfold spread. revert rest c.
  induction more as [|[k v] more IH]; intros rest c Hnodup Hfresh Hrest.
  - simpl. now rewrite app_nil_r.
  - cbn [map fst] in Hnodup. inversion Hnodup as [|? ? Hk Hmore]; subst.
    cbn [fold_left fst snd put_entry entry without filter].
    destruct (String.eqb_spec k "country") as [->|Hne].
    + rewrite String.eqb_refl. cbn [negb].
      rewrite IH; [|assumption| |assumption].
      * now rewrite (entry_absent _ _ Hk).
      * intros k' Hin. apply Hfresh. now right.
    + assert (Hne' : ("country" =? k)%string = false).
      { apply String.eqb_neq. congruence. }
      rewrite Hne'. cbn [negb].
      rewrite put_entry_new by (apply Hfresh; now left).
      rewrite IH.
      * now rewrite <- app_assoc.
      * assumption.
      * intros k' Hin. rewrite map_app, in_app_iff. cbn [map fst In].
        intros [Hin'|[->|[]]].
        -- apply (Hfresh k'); [now right|assumption].
        -- contradiction.
      * rewrite map_app, in_app_iff. cbn [map fst In].
        intros [Hin|[Heq|[]]]; [contradiction|congruence].
Qed.

(** X10.  [listInstitutions(country, params)] and
    [getPremiumTransactions(accountId, country, params)], for [params] whose
    keys are no array indices and an account identifier of letters, digits,
    [-] and [_], put the country into the query exactly once and in first
    place.  When [params] has no [country] of its own, the query is the
    country given followed by [params]; a [country] member of [params] takes
    the place of the one given; and when that member is undefined or null,
    the call is the one for [params] without any country. *)
Theorem country_in_query (remote : Remote) (self : NordigenAPI)
  (accountId : string) (country : jsval) (params : list (string * jsval))
  (w : World) :
  NoDup (map fst params) ->
  insertion_ordered params = true ->
  plain accountId = true ->
  let sent := match entry "country" params with
              | Some v => v
              | None => country
              end in
  let query := ("country", sent) :: without "country" params in
  spread [("country", country)] params = query
  /\ snd (listInstitutions remote self country params w)
     = Eff.settled remote
         (outgoing self "GET" "/api/v2/institutions/" (with_query query)) w
  /\ snd (getPremiumTransactions remote self accountId country params w)
     = Eff.settled remote
         (outgoing self "GET"
            ("/api/v2/accounts/premium/" ++ accountId ++ "/transactions/")
            (with_query query)) w
  /\ (entry "country" params = None ->
      query = ("country", country) :: params)
  /\ (Wire.defined sent = false ->
      outgoing self "GET" "/api/v2/institutions/" (with_query query)
      = outgoing self "GET" "/api/v2/institutions/"
          (with_query (without "country" params))).
Proof.
  intros Hnodup _ _. cbv zeta.
  assert (Hspread :
    spread [("country", country)] params
    = ("country", match entry "country" params with
                  | Some v => v
                  | None => country
                  end) :: without "country" params).
  { now apply (spread_onto params [] country);
      [|intros k _ []|intros []]. }
  split; [exact Hspread|]. split; [|split; [|split]].
  - unfold listInstitutions, get. rewrite request_world. now rewrite Hspread.
  - unfold getPremiumTransactions, get. rewrite request_world.
    now rewrite Hspread.
  - intros Hnone. rewrite Hnone. f_equal.
    apply without_absent. clear -Hnone.
    induction params as [|[k v] rest IH]; cbn [entry map fst In] in *;
      [tauto|].
    destruct (String.eqb_spec "country" k); [discriminate|].
    intros [Heq|Hin]; [congruence|now apply IH].
  - intros Hundef. unfold outgoing, with_query.
    cbn [opt_query opt_auth opt_body]. unfold searchParams.
    cbn [append_entries].
    destruct (match entry "country" params with
              | Some v => v
              | None => country
              end) as [[| | | | |]|]; try discriminate; reflexivity.
Qed.

Lemma country_in_query_witness :
  Eff.sent
    (snd (listInstitutions Sample.lib_granting
            (mkClient BASE_URL (Some (VStr "tok1"))) (Some (VStr "GB"))
            [("payments_enabled", Some (VBool true))]
            (Sample.lib_world Sample.store_full)))
  = [mkCall
       "https://ob.nordigen.com/api/v2/institutions/?country=GB&payments_enabled=true"
       "GET"
       [("Content-Type", "application/json"); ("Accept", "application/json");
        ("Authorization", "Bearer tok1")]
       None].
Proof.
  pose proof (country_in_query Sample.lib_granting
                (mkClient BASE_URL (Some (VStr "tok1"))) "" (Some (VStr "GB"))
                [("payments_enabled", Some (VBool true))]
                (Sample.lib_world Sample.store_full)) as H.
  cbv zeta in H.
  destruct H as (_ & Hsent & _);
    [repeat constructor; simpl; tauto|reflexivity|reflexivity|].
  rewrite Hsent. reflexivity.
Defined.

End Country.

(** ** Searching institutions by name *)

Section Search.
Import Js.
Import LibApi.
Import LibCommands.

Lemma name_matches_named (query : string) (inst : value) (w : World) :
  named inst = true ->
  name_matches query inst w = (Eff.Returned (name_contains query inst), w).
Proof.
  unfold named, name_matches, name_contains.
  destruct inst; try discriminate.
  destruct (member (VObj members) "name") as [[| | | name | |]|];
    try discriminate.
  reflexivity.
Qed.

Lemma name_matches_returns (query : string) (inst : value) (w w' : World)
  (b : bool) :
  name_matches query inst w = (Eff.Returned b, w') -> named inst = true.
Proof.
  unfold named, name_matches.
  destruct inst; try discriminate;
    destruct (member _ "name") as [[| | | name | |]|];
    try discriminate; reflexivity.
Qed.

Lemma filter_by_named (query : string) (items : list value) (w : World) :
  forallb named items = true ->
  filter_by (name_matches query) items w
  = (Eff.Returned (filter (name_contains query) items), w).
Proof.
  induction items as [|item rest IH]; intros Hall; [reflexivity|].
  cbn [forallb] in Hall. apply andb_prop in Hall. destruct Hall as [Hi Hrest].
  cbn [filter_by filter].
  rewrite (bind_returned _ _ _ _ _ (name_matches_named query item w Hi)).
  rewrite (bind_returned _ _ _ _ _ (IH Hrest)).
  reflexivity.
Qed.

Lemma filter_by_returns (query : string) (items rs : list value)
  (w w' : World) :
  filter_by (name_matches query) items w = (Eff.Returned rs, w') ->
  forallb named items = true.
Proof.
  revert rs w'.
  induction items as [|item rest IH]; intros rs w' H; [reflexivity|].
  cbn [filter_by] in H. unfold Eff.bind at 1 in H.
  destruct (name_matches query item w) as [[b|e] w1] eqn:E; [|discriminate].
  pose proof (name_matches_returns _ _ _ _ _ E) as Hnamed.
  rewrite (name_matches_named query item w Hnamed) in E.
  injection E as _ <-.
  unfold Eff.bind at 1 in H.
  destruct (filter_by (name_matches query) rest w) as [[kept|e] w2] eqn:E2;
    [|discriminate].
  cbn [forallb]. rewrite Hnamed. cbn [andb]. exact (IH kept w2 eq_refl).
Qed.

Lemma lower_upper_char (c : ascii) : lower_char (upper_char c) = lower_char c.
Proof.
  unfold lower_char, upper_char.
  destruct ((97 <=? N_of_ascii c) && (N_of_ascii c <=? 122))%N eqn:E.
  - apply andb_prop in E. destruct E as [E1 E2].
    apply N.leb_le in E1, E2.
    rewrite N_ascii_embedding by lia.
    replace ((65 <=? N_of_ascii c - 32) && (N_of_ascii c - 32 <=? 90))%N
      with true by (symmetry; apply andb_true_intro; split; apply N.leb_le; lia).
    replace ((65 <=? N_of_ascii c) && (N_of_ascii c <=? 90))%N with false
      by (symmetry; apply andb_false_intro2; apply N.leb_gt; lia).
    replace (N_of_ascii c - 32 + 32)%N with (N_of_ascii c) by lia.
    apply ascii_N_embedding.
  - reflexivity.
Qed.

Lemma lower_upper (s : string) : toLowerCase (toUpperCase s) = toLowerCase s.
Proof.
  induction s as [|c s IH]; simpl; [reflexivity|].
  now rewrite lower_upper_char, IH.
Qed.

Lemma includes_empty (s : string) : includes s "" = true.
Proof. destruct s; reflexivity. Qed.

Lemma filter_all {A} (f : A -> bool) (l : list A) :
  (forall x, In x l -> f x = true) -> filter f l = l.
Proof.
  induction l as [|x l IH]; intros H; simpl; [reflexivity|].
  rewrite (H x (or_introl eq_refl)). f_equal. apply IH.
  intros y Hy. apply H. now right.
Qed.

(** X11.  [institutions search], for institutions and a query in ASCII.
    When every institution listed has a name, the results are the
    institutions whose name contains the query, letter case apart, in the
    order in which they were listed; the search returns only then: an
    institution without a name makes it fail.  The case of the query does
    not matter, and the empty query finds every institution. *)
Theorem institutions_search_filter (items : list value) (query : string)
  (w : World) :
  forallb ascii_name items = true ->
  is_ascii query = true ->
  (forallb named items = true ->
   search_results (VArr items) query w
   = (Eff.Returned (filter (name_contains query) items), w))
  /\ (forall rs w',
        search_results (VArr items) query w = (Eff.Returned rs, w') ->
        forallb named items = true)
  /\ search_results (VArr items) (toUpperCase query) w
     = search_results (VArr items) query w
  /\ (forallb named items = true ->
      search_results (VArr items) "" w = (Eff.Returned items, w)).
Proof.
  intros _ _. unfold search_results.
  split; [|split; [|split]].
  - apply filter_by_named.
  - intros rs w'. apply filter_by_returns.
  - assert (Hsame : forall inst w0,
               name_matches (toUpperCase query) inst w0
               = name_matches query inst w0).
    { intros inst w0. unfold name_matches. now rewrite lower_upper. }
    clear -Hsame. revert w.
    induction items as [|item rest IH]; intros w; [reflexivity|].
    cbn [filter_by]. unfold Eff.bind at 1 3. rewrite Hsame.
    destruct (name_matches query item w) as [[b|e] w1]; [|reflexivity].
    unfold Eff.bind. now rewrite IH.
  - intros Hall. rewrite (filter_by_named "" items w Hall). f_equal. f_equal.
    apply filter_all. intros inst Hin.
    assert (Hn : named inst = true).
    { apply (proj1 (forallb_forall named items) Hall inst Hin). }
    unfold named in Hn. unfold name_contains.
    destruct (member inst "name") as [[| | | name | |]|]; try discriminate.
    apply includes_empty.
Qed.

Lemma institutions_search_filter_witness :
  search_results (VArr Sample.institutions) "BARCLAY"
    (Sample.lib_world Sample.store_full)
  = (Eff.Returned
       [Sample.institution "BARCLAYS_BUKBGB22" "Barclays Personal" "BUKBGB22";
        Sample.institution "BARCLAYCARD_BUKBGB22" "Barclaycard UK" "BUKBGB22"],
     Sample.lib_world Sample.store_full).
Proof.
  rewrite (proj1 (institutions_search_filter Sample.institutions "BARCLAY"
                    (Sample.lib_world Sample.store_full) eq_refl eq_refl)
             eq_refl).
  reflexivity.
Defined.

End Search.

(** ** How a command begins *)

Section Prologue.
Import Js.
Import LibApi.
Import LibCommands.

Variable remote : Remote.

Lemma refresh_and_save_returns (api : NordigenAPI) (token t : jsval)
  (w w' : World) :
  LibAuth.refresh_and_save remote api token w = (Eff.Returned t, w') ->
  Conf.get (Eff.conf w') ["auth"; "access_token"] = t
  /\ exists x, t = Some (VStr x).
Proof.
  unfold LibAuth.refresh_and_save. unfold Eff.bind at 1.
  destruct (refreshToken remote api token w) as [[result|e] w1];
    [|discriminate].
  unfold Eff.bind at 1. cbn [Eff.date_now].
  assert (Hprop : forall key w0,
             result <> VNull ->
             LibAuth.prop result key w0
             = (Eff.Returned (member result key), w0)).
  { intros key w0 Hnn. destruct result; try reflexivity. contradiction. }
  assert (Hnull : result = VNull \/ result <> VNull)
    by (destruct result; [now left|right; discriminate ..]).
  destruct Hnull as [->|Hnn]; [discriminate|].
  unfold Eff.bind at 1. rewrite (Hprop "access" w1 Hnn).
  unfold Eff.bind at 1.
  destruct (member result "access") as [[| | | x | |]|] eqn:Ea;
    cbn [LibAuth.set_string Eff.throw Eff.write]; try discriminate.
  unfold Eff.bind at 1. rewrite (Hprop "access_expires" _ Hnn).
  unfold Eff.bind at 1.
  destruct (LibAuth.plus (LibConfig.seconds (Eff.clock w1))
              (member result "access_expires")) as [[| | n | | |]|];
    cbn [LibAuth.set_number Eff.throw Eff.write]; try discriminate.
  rewrite (Hprop "access" _ Hnn), Ea.
  intros H. pose proof (f_equal snd H) as Hw. pose proof (f_equal fst H) as Ht.
  cbn [fst snd] in Hw, Ht. subst w'. injection Ht as <-. cbn [Eff.conf].
  split; [|now exists x].
  rewrite get_set_sibling by discriminate. apply get_set_same.
Qed.

(** The client that a command creates after [ensureAuth] holds the token
    that [ensureAuth] returned. *)
Lemma authenticated_client_run (w w' : World) (t : jsval) :
  LibAuth.ensureAuth remote w = (Eff.Returned t, w') ->
  authenticated_client remote w
  = (Eff.Returned (mkClient BASE_URL (js_or t (Some VNull))), w').
Proof.
  intros Hrun.
  assert (Hstored : Conf.get (Eff.conf w') ["auth"; "access_token"] = t).
  { destruct (LibConfig.isAccessTokenValid (Eff.conf w) (Eff.clock w))
      eqn:Ha.
    { rewrite (ensureAuth_valid remote w Ha) in Hrun.
      now injection Hrun as <- <-. }
    destruct (LibConfig.isRefreshTokenValid (Eff.conf w) (Eff.clock w))
      eqn:Hr.
    - destruct (refresh_valid_token _ _ Hr) as (token & Ht).
      destruct (ensureAuth_refresh_branch remote w token Ha Hr Ht)
        as (api & _ & Hbranch).
      rewrite Hbranch in Hrun. unfold Eff.try_catch in Hrun.
      destruct (LibAuth.refresh_and_save remote api (Some token) w)
        as [[t0|e] w0] eqn:E; [|discriminate].
      injection Hrun as <- <-.
      exact (proj1 (refresh_and_save_returns _ _ _ _ _ E)).
    - rewrite (ensureAuth_no_token remote w Ha Hr) in Hrun. discriminate. }
  unfold authenticated_client.
  rewrite (bind_returned _ _ _ _ _ Hrun).
  unfold createClient, constructor, Eff.read, getStoredToken.
  cbn [or_null]. now rewrite Hstored.
Qed.

Lemma authenticated_client_thrown (w w' : World) (e : Error) :
  LibAuth.ensureAuth remote w = (Eff.Thrown e, w') ->
  authenticated_client remote w = (Eff.Thrown e, w').
Proof.
  intros Hrun. unfold authenticated_client.
  now rewrite (bind_thrown _ _ _ _ _ Hrun).
Qed.

(** X12.  A command that has gone through [ensureAuth] works with a client
    that holds the token that [ensureAuth] returned, also when that token
    has just been obtained by a refresh: each of its requests carries this
    token as a bearer token.  (An empty token is no token: the client then
    holds none.) When [ensureAuth] fails, the command has no client and
    makes no request of its own. *)
Theorem command_prologue (w : World) :
  (forall t w',
      LibAuth.ensureAuth remote w = (Eff.Returned t, w') ->
      authenticated_client remote w
      = (Eff.Returned (mkClient BASE_URL (js_or t (Some VNull))), w')
      /\ (truthy t = true ->
          forall method endpoint options,
            opt_auth options = true ->
            headers (outgoing (mkClient BASE_URL (js_or t (Some VNull)))
                       method endpoint options)
            = (Wire.json_headers
                 ++ [("Authorization", ("Bearer " ++ show t)%string)])%list))
  /\ (forall e w',
         LibAuth.ensureAuth remote w = (Eff.Thrown e, w') ->
         authenticated_client remote w = (Eff.Thrown e, w')).
Proof.
  split.
  - intros t w' Hrun. split; [now apply authenticated_client_run|].
    intros Htruthy method endpoint options Hauth.
    unfold outgoing. cbn [headers]. unfold request_headers, js_or.
    rewrite Htruthy, Hauth. cbn [accessToken andb]. now rewrite Htruthy.
  - intros e w'. apply authenticated_client_thrown.
Qed.

End Prologue.

Lemma command_prologue_witness :
  exists w',
    LibCommands.authenticated_client Sample.lib_granting
      (Sample.lib_world Sample.lib_expired_access)
    = (Eff.Returned (LibApi.mkClient LibApi.BASE_URL (Some (Js.VStr "tok2"))),
       w').
Proof.
  eexists.
  apply (proj1 (proj1 (command_prologue Sample.lib_granting
                         (Sample.lib_world Sample.lib_expired_access))
                  (Some (Js.VStr "tok2")) _ eq_refl)).
Defined.

(** ** Answers that are not JSON *)

Section TextBodies.
Import Js.
Import LibApi.

(** X13.  When the content type of an answer does not announce JSON,
    [request] takes the body as text: the text as it was sent for a body
    that is not JSON, the JSON text for a body that is.  With a 2xx status
    it returns that text; with any other status it throws an error whose
    message is the status line [HTTP <status>: <status text>], whatever the
    text says, with the status attached and the text as its [response].
    When the content type announces JSON and the body is not JSON,
    [request] fails with the error of the parser, which has no status, and
    does so for a 2xx status as well. *)
Theorem body_that_is_not_json (r : Response) (w : World) :
  let taken_as (text : string) :=
    read_data r w = (Eff.Returned (VStr text), w)
    /\ (ok r = true -> handle_response r w = (Eff.Returned (VStr text), w))
    /\ (ok r = false ->
        handle_response r w
        = (Eff.Thrown
             (mkError ("HTTP " ++ dec (status r) ++ ": " ++ statusText r)
                (Some (VNum (status r))) (Some (VNum (status r)))
                None None None (Some (VStr text))),
           w)) in
  (contentType r = None
   \/ (exists ct, contentType r = Some ct
                  /\ includes ct "application/json" = false) ->
   (forall raw syntax_error,
       payload r = Raw raw syntax_error -> taken_as raw)
   /\ (forall v, payload r = Json v -> taken_as (stringify false v)))
  /\ (forall ct text syntax_error,
         contentType r = Some ct ->
         includes ct "application/json" = true ->
         payload r = Raw text syntax_error ->
         handle_response r w
         = (Eff.Thrown (mkError syntax_error None None None None None None),
            w)).
Proof.
  cbv zeta. split.
  - intros Hct.
    assert (Hread : read_data r w
                    = (Eff.Returned
                         (VStr match payload r with
                               | Json v => stringify false v
                               | Raw s _ => s
                               end), w)).
    { unfold read_data.
      destruct Hct as [->|(ct & -> & Hno)]; [reflexivity|].
      now rewrite Hno, andb_false_r. }
    split.
    + intros raw syntax_error Hp. rewrite Hp in Hread.
      split; [exact Hread|]. unfold handle_response.
      rewrite (bind_returned _ _ _ _ _ Hread).
      split; intros ->; reflexivity.
    + intros v Hp. rewrite Hp in Hread.
      split; [exact Hread|]. unfold handle_response.
      rewrite (bind_returned _ _ _ _ _ Hread).
      split; intros ->; reflexivity.
  - intros ct text syntax_error Hct Hjson Hraw.
    unfold handle_response, read_data. rewrite Hct, Hjson, Hraw.
    rewrite (includes_nonempty ct Hjson). reflexivity.
Qed.

Lemma body_that_is_not_json_witness :
  handle_response
    (mkResponse 502 "Bad Gateway" (Some "text/html")
       (Raw "<html>Bad Gateway</html>" "Unexpected token < in JSON"))
    (Sample.lib_world Sample.store_full)
  = (Eff.Thrown
       (mkError "HTTP 502: Bad Gateway" (Some (VNum 502)) (Some (VNum 502))
          None None None (Some (VStr "<html>Bad Gateway</html>"))),
     Sample.lib_world Sample.store_full).
Proof.
  pose proof (body_that_is_not_json
                (mkResponse 502 "Bad Gateway" (Some "text/html")
                   (Raw "<html>Bad Gateway</html>"
                      "Unexpected token < in JSON"))
                (Sample.lib_world Sample.store_full)) as H.
  cbv zeta in H. destruct H as (H & _).
  destruct H as (Hraw & _).
  { right. exists "text/html". split; reflexivity. }
  destruct (Hraw "<html>Bad Gateway</html>" "Unexpected token < in JSON"
              eq_refl) as (_ & _ & Hthrown).
  now apply Hthrown.
Defined.

End TextBodies.

(** ** The functions of the [nordigencom] client *)

Section ComFunctions.
Import Js.
Import ComApi.
Import ComResources.

Variable remote : Remote.

Lemma bind_ret {A B} (m : M A) (f : A -> B) (w : World) :
  Eff.bind m (fun x => Eff.ret (f x)) w
  = match m w with
    | (Eff.Returned a, w') => (Eff.Returned (f a), w')
    | (Eff.Thrown e, w') => (Eff.Thrown e, w')
    end.
Proof. unfold Eff.bind. destruct (m w) as [[a|e] w']; reflexivity. Qed.

Lemma apiRequest_needs_credentials (method endpoint : string)
  (data params : jsval) (w : World) :
  ComConfig.hasValidToken (Eff.conf w) (Eff.clock w) = false ->
  truthy (ComConfig.getConfig (Eff.conf w) "refreshToken") = false ->
  ComConfig.isConfigured (Eff.conf w) = false ->
  apiRequest remote method endpoint data params w
  = (Eff.Thrown credentials_not_configured, w).
Proof.
  intros Hv Hr Hc. unfold apiRequest.
  apply bind_thrown.
  rewrite (getAccessToken_no_refresh remote w Hv Hr).
  now apply obtainAccessToken_no_credentials.
Qed.

(** X14.  The functions of the module send nothing without credentials.  In
    a state that the schema admits, with no valid access token, no refresh
    token and no credentials, each of them fails with "Credentials not
    configured", sends no request and leaves the state as it is.
    [clearConfig()] leads to such a state, whatever was stored and whatever
    the time. *)
Theorem nothing_without_credentials (op : Operation) :
  (forall w,
      ComConfig.schema (Eff.conf w) = true ->
      ComConfig.hasValidToken (Eff.conf w) (Eff.clock w) = false ->
      truthy (ComConfig.getConfig (Eff.conf w) "refreshToken") = false ->
      ComConfig.isConfigured (Eff.conf w) = false ->
      perform remote op w = (Eff.Thrown credentials_not_configured, w))
  /\ (forall (s : Conf.store) (t : Z),
         ComConfig.isConfigured (ComConfig.clearConfig s) = false
         /\ ComConfig.hasValidToken (ComConfig.clearConfig s) t = false
         /\ truthy (ComConfig.getConfig (ComConfig.clearConfig s)
                      "refreshToken") = false)
  /\ (forall (s : Conf.store) (t : Z) (calls : list AxiosCall),
         perform remote op (Eff.mkWorld (ComConfig.clearConfig s) t calls)
         = (Eff.Thrown credentials_not_configured,
            Eff.mkWorld (ComConfig.clearConfig s) t calls)).
Proof.
  assert (Hgeneral : forall w,
             ComConfig.hasValidToken (Eff.conf w) (Eff.clock w) = false ->
             truthy (ComConfig.getConfig (Eff.conf w) "refreshToken") = false ->
             ComConfig.isConfigured (Eff.conf w) = false ->
             perform remote op w = (Eff.Thrown credentials_not_configured, w)).
  { intros w Hv Hr Hc.
    destruct op; unfold perform, listInstitutions, getInstitution,
      listAgreements, getAgreement, createAgreement, deleteAgreement,
      acceptAgreement, listRequisitions, getRequisition, createRequisition,
      deleteRequisition, getAccountMetadata, getAccountBalances,
      getAccountDetails, getAccountTransactions; cbv zeta;
      first [ now apply apiRequest_needs_credentials
            | apply bind_thrown; now apply apiRequest_needs_credentials ]. }
  split; [intros w _; now apply Hgeneral|]. split.
  - intros s t. repeat split.
  - intros s t calls. now apply Hgeneral.
Qed.

End ComFunctions.

Lemma nothing_without_credentials_witness :
  ComResources.perform Sample.com_granting
    (ComResources.GetAccountBalances "3fa85f64-5717-4562-b3fc-2c963f66afa6")
    (Sample.com_world (ComConfig.clearConfig Sample.com_valid_access))
  = (Eff.Thrown ComApi.credentials_not_configured,
     Sample.com_world (ComConfig.clearConfig Sample.com_valid_access)).
Proof.
  apply (proj1 (nothing_without_credentials Sample.com_granting
                  (ComResources.GetAccountBalances
                     "3fa85f64-5717-4562-b3fc-2c963f66afa6")));
    reflexivity.
Defined.

Section ComCalls.
Import Js.
Import ComApi.
Import ComResources.

Variable remote : Remote.

Lemma snd_bind_ret {A B} (m : M A) (f : A -> B) (w : World) :
  snd (Eff.bind m (fun x => Eff.ret (f x)) w) = snd (m w).
Proof. rewrite bind_ret. destruct (m w) as [[a|e] w']; reflexivity. Qed.

Lemma apiRequest_with_valid_token (method rest : string) (data params : jsval)
  (w : World) :
  ComConfig.hasValidToken (Eff.conf w) (Eff.clock w) = true ->
  let token := ComConfig.getConfig (Eff.conf w) "accessToken" in
  let call := request_config token method ("/" ++ rest) data params in
  snd (apiRequest remote method ("/" ++ rest) data params w)
  = Eff.settled remote call w
  /\ headers call
     = [("Authorization", "Bearer " ++ show token);
        ("Accept", "application/json"); ("Content-Type", "application/json")]
  /\ prefix "https://ob.nordigen.com/api/v2/" (url call) = true
  /\ ComApi.method call = method
  /\ (truthy data = false -> ComApi.data call = None).
Proof.
  intros Hvalid. cbv zeta.
  split; [|split; [reflexivity|split; [|split; [reflexivity|]]]].
  - apply apiRequest_after_token. now apply getAccessToken_valid.
  - apply (prefix_app "https://ob.nordigen.com/api/v2/" rest).
  - intros Hd. unfold request_config. cbn [ComApi.data]. now rewrite Hd.
Qed.

(** X15.  With a valid access token stored, every function of the module
    makes exactly one call and leaves the stored document alone.  When the
    identifier it is given consists of letters, digits, [-] and [_], the
    call goes to a URL under [https://ob.nordigen.com/api/v2/]; it carries
    the stored token as a bearer token; and only a [POST] or a [PUT] has a
    body. *)
Theorem com_functions_call_once (op : Operation) (w : World) :
  ComConfig.hasValidToken (Eff.conf w) (Eff.clock w) = true ->
  plain_identifier op = true ->
  exists call,
    snd (perform remote op w) = Eff.settled remote call w
    /\ Eff.conf (snd (perform remote op w)) = Eff.conf w
    /\ Eff.sent (snd (perform remote op w)) = (Eff.sent w ++ [call])%list
    /\ headers call
       = [("Authorization",
           "Bearer " ++ show (ComConfig.getConfig (Eff.conf w) "accessToken"));
          ("Accept", "application/json"); ("Content-Type", "application/json")]
    /\ prefix "https://ob.nordigen.com/api/v2/" (url call) = true
    /\ In (ComApi.method call) ["GET"; "POST"; "PUT"; "DELETE"]
    /\ (ComApi.data call <> None ->
        ComApi.method call = "POST" \/ ComApi.method call = "PUT").
Proof.
  intros Hvalid _.
  assert (Hone : forall method endpoint rest data params,
             endpoint = "/" ++ rest ->
             In method ["GET"; "POST"; "PUT"; "DELETE"] ->
             (truthy data = true -> method = "POST" \/ method = "PUT") ->
             exists call,
               snd (apiRequest remote method endpoint data params w)
               = Eff.settled remote call w
               /\ Eff.conf (snd (apiRequest remote method endpoint data params w))
                  = Eff.conf w
               /\ Eff.sent (snd (apiRequest remote method endpoint data params w))
                  = (Eff.sent w ++ [call])%list
               /\ headers call
                  = [("Authorization",
                      "Bearer "
                      ++ show (ComConfig.getConfig (Eff.conf w) "accessToken"));
                     ("Accept", "application/json");
                     ("Content-Type", "application/json")]
               /\ prefix "https://ob.nordigen.com/api/v2/" (url call) = true
               /\ In (ComApi.method call) ["GET"; "POST"; "PUT"; "DELETE"]
               /\ (ComApi.data call <> None ->
                   ComApi.method call = "POST" \/ ComApi.method call = "PUT")).
  { intros method endpoint rest data params -> Hmethod Hbody.
    destruct (apiRequest_with_valid_token method rest data params w Hvalid)
      as (Hw & Hh & Hu & Hm & Hd).
    eexists. split; [exact Hw|]. rewrite Hw.
    cbn [Eff.settled Eff.conf Eff.sent]. rewrite Hm.
    repeat split; try assumption; try reflexivity.
    intros Hsome. apply Hbody.
    destruct (truthy data); [reflexivity|]. now contradiction Hsome; apply Hd. }
  destruct op; unfold perform, listInstitutions, getInstitution,
    listAgreements, getAgreement, createAgreement, deleteAgreement,
    acceptAgreement, listRequisitions, getRequisition, createRequisition,
    deleteRequisition, getAccountMetadata, getAccountBalances,
    getAccountDetails, getAccountTransactions; cbv zeta;
    rewrite ?snd_bind_ret;
    match goal with
    | |- context [apiRequest remote ?method ?endpoint ?data ?params] =>
        apply (Hone method endpoint _ data params eq_refl)
    end;
    simpl In; auto 6; try (intros H; discriminate H).
Qed.

(** X16.  The three functions that list something never come back
    empty-handed: what they return is the list that the API sent or, when
    the answer has none, the empty array, never null or undefined.
    [listAgreements] and [listRequisitions] ask for 100 results from offset
    0 unless told otherwise. *)
Theorem lists_are_lists (w : World) :
  (forall op v w',
      lists op = true ->
      perform remote op w = (Eff.Returned v, w') ->
      truthy v = true)
  /\ (forall country data w',
         apiRequest remote "GET" "/institutions/" (Some VNull)
           (Some (VObj (if truthy country then optional "country" country
                        else []))) w
         = (Eff.Returned data, w') ->
         listInstitutions remote country w
         = (Eff.Returned (if truthy data then data else Some (VArr [])), w'))
  /\ (forall limit offset data w',
         apiRequest remote "GET" "/agreements/enduser/" (Some VNull)
           (Some (VObj [("limit", or_default (VNum 100) limit);
                        ("offset", or_default (VNum 0) offset)])) w
         = (Eff.Returned data, w') ->
         listAgreements remote limit offset w
         = (Eff.Returned
              (if truthy (member data "results") then member data "results"
               else Some (VArr [])),
            w'))
  /\ (forall data w',
         apiRequest remote "GET" "/requisitions/" (Some VNull)
           (Some (VObj [("limit", VNum 100); ("offset", VNum 0)])) w
         = (Eff.Returned data, w') ->
         listRequisitions remote None None w
         = (Eff.Returned
              (if truthy (member data "results") then member data "results"
               else Some (VArr [])),
            w')).
Proof.
  assert (Hor : forall a, truthy (js_or a (Some (VArr []))) = true).
  { intros a. unfold js_or. destruct (truthy a) eqn:E; [exact E|reflexivity]. }
  split; [|split; [|split]].
  - intros op v w' Hlists Hrun.
    destruct op; try discriminate Hlists;
      unfold perform, listInstitutions, listAgreements, listRequisitions in Hrun;
      cbv zeta in Hrun; rewrite bind_ret in Hrun;
      match type of Hrun with
      | context [apiRequest ?r ?m ?e ?d ?p w] =>
          destruct (apiRequest r m e d p w) as [[data|e0] w0]
      end; try discriminate Hrun;
      injection Hrun as <- _; apply Hor.
  - intros country data w' Hrun. unfold listInstitutions. cbv zeta.
    rewrite bind_ret, Hrun. reflexivity.
  - intros limit offset data w' Hrun. unfold listAgreements. cbv zeta.
    rewrite bind_ret, Hrun. reflexivity.
  - intros data w' Hrun. unfold listRequisitions. cbv zeta.
    rewrite bind_ret. cbn [or_default]. rewrite Hrun. reflexivity.
Qed.

End ComCalls.

Lemma com_functions_call_once_witness :
  Eff.sent
    (snd (ComResources.perform Sample.com_granting
            (ComResources.ListAgreements None None)
            (Sample.com_world Sample.com_valid_access)))
  = [ComApi.mkCall "GET" "https://ob.nordigen.com/api/v2/agreements/enduser/"
       [("Authorization", "Bearer tok1"); ("Accept", "application/json");
        ("Content-Type", "application/json")]
       (Some (Js.VObj [("limit", Js.VNum 100); ("offset", Js.VNum 0)]))
       None].
Proof.
  destruct (com_functions_call_once Sample.com_granting
              (ComResources.ListAgreements None None)
              (Sample.com_world Sample.com_valid_access) eq_refl eq_refl)
    as (call & _ & _ & Hsent & _).
  rewrite Hsent. apply (f_equal (fun c => [c])).
  assert (Hcall : [call]
                  = Eff.sent
                      (snd (ComResources.perform Sample.com_granting
                              (ComResources.ListAgreements None None)
                              (Sample.com_world Sample.com_valid_access))))
    by (now rewrite Hsent).
  vm_compute in Hcall. now injection Hcall as ->.
Defined.

Lemma lists_are_lists_witness :
  Js.truthy
    (match fst (ComResources.perform Sample.com_granting
                  (ComResources.ListRequisitions None None)
                  (Sample.com_world Sample.com_valid_access)) with
     | Eff.Returned v => v
     | Eff.Thrown _ => None
     end) = true.
Proof.
  destruct (ComResources.perform Sample.com_granting
              (ComResources.ListRequisitions None None)
              (Sample.com_world Sample.com_valid_access))
    as [[v|e] w'] eqn:E.
  - exact (proj1 (lists_are_lists Sample.com_granting
                    (Sample.com_world Sample.com_valid_access))
             (ComResources.ListRequisitions None None) v w' eq_refl E).
  - vm_compute in E. discriminate E.
Defined.

(** ** The stored token of the [nordigencom] client *)

Section ComValidity.
Import Js.

Lemma getConfig_string (s : Conf.store) (key : string) :
  Conf.opt_string (Conf.get s [key]) = true ->
  Conf.get ComConfig.defaults [key] = Some (VStr "") ->
  exists t, ComConfig.getConfig s key = Some (VStr t).
Proof.
  intros Hs Hd. unfold ComConfig.getConfig.
  destruct (Conf.get s [key]) as [[| | | t | |]|]; try discriminate.
  - now exists t.
  - rewrite Hd. now exists "".
Qed.

Lemma getConfig_number (s : Conf.store) (key : string) :
  Conf.opt_number (Conf.get s [key]) = true ->
  Conf.get ComConfig.defaults [key] = Some (VNum 0) ->
  exists n, ComConfig.getConfig s key = Some (VNum n).
Proof.
  intros Hs Hd. unfold ComConfig.getConfig.
  destruct (Conf.get s [key]) as [[| | n | | |]|]; try discriminate.
  - now exists n.
  - rewrite Hd. now exists 0.
Qed.

Lemma com_schema_members (s : Conf.store) :
  ComConfig.schema s = true ->
  (exists t, ComConfig.getConfig s "secretId" = Some (VStr t))
  /\ (exists t, ComConfig.getConfig s "secretKey" = Some (VStr t))
  /\ (exists t, ComConfig.getConfig s "accessToken" = Some (VStr t))
  /\ (exists t, ComConfig.getConfig s "refreshToken" = Some (VStr t))
  /\ (exists n, ComConfig.getConfig s "tokenExpiry" = Some (VNum n)).
Proof.
  unfold ComConfig.schema. destruct s; try discriminate.
  intros H. repeat (apply andb_prop in H; destruct H as [H ?]).
  repeat split;
    first [ now apply getConfig_string | now apply getConfig_number ].
Qed.

(** X17.  For every stored document that the schema admits and every time,
    [hasValidToken()] answers true exactly when the access token is not
    empty and its expiry is later than now plus 60000 milliseconds; an
    expiry of exactly now plus 60000 is not valid.  A token that is valid at
    some time was valid at every earlier time, and the document of a fresh
    installation has no valid token.  [isConfigured()] answers true exactly
    when neither the secret id nor the secret key is empty. *)
Theorem hasValidToken_iff (s : Conf.store) (clock_ms : Z) :
  ComConfig.schema s = true ->
  (ComConfig.hasValidToken s clock_ms = true
   <-> exists token expiry,
         ComConfig.getConfig s "accessToken" = Some (VStr token)
         /\ token <> ""
         /\ ComConfig.getConfig s "tokenExpiry" = Some (VNum expiry)
         /\ expiry > clock_ms + 60000)
  /\ (ComConfig.getConfig s "tokenExpiry" = Some (VNum (clock_ms + 60000)) ->
      ComConfig.hasValidToken s clock_ms = false)
  /\ (forall earlier,
         earlier <= clock_ms ->
         ComConfig.hasValidToken s clock_ms = true ->
         ComConfig.hasValidToken s earlier = true)
  /\ ComConfig.hasValidToken ComConfig.defaults clock_ms = false
  /\ (ComConfig.isConfigured s = true
      <-> exists id key,
            ComConfig.getConfig s "secretId" = Some (VStr id) /\ id <> ""
            /\ ComConfig.getConfig s "secretKey" = Some (VStr key)
            /\ key <> "").
Proof.
  intros Hschema.
  destruct (com_schema_members s Hschema)
    as ((id & Hid) & (key & Hkey) & (token & Htok) & _ & (expiry & Hexp)).
  unfold ComConfig.hasValidToken, ComConfig.isConfigured.
  rewrite Hid, Hkey, Htok, Hexp. cbn [truthy LibConfig.later_than].
  split; [|split; [|split; [|split]]].
  - split.
    + destruct (String.eqb_spec token ""); [discriminate|].
      cbn [negb]. intros H. apply Z.ltb_lt in H.
      exists token, expiry. repeat split; try assumption. lia.
    + intros (token' & expiry' & Ht & Hne & He & Hgt).
      injection Ht as <-. injection He as <-.
      destruct (String.eqb_spec token ""); [contradiction|].
      cbn [negb]. apply Z.ltb_lt. lia.
  - intros He. injection He as ->.
    destruct (negb (negb (token =? "")%string)); [reflexivity|].
    apply Z.ltb_irrefl.
  - intros earlier Hle.
    destruct (negb (negb (token =? "")%string)); [discriminate|].
    rewrite !Z.ltb_lt. lia.
  - reflexivity.
  - split.
    + intros H. apply andb_prop in H. destruct H as [H1 H2].
      exists id, key.
      destruct (String.eqb_spec id ""); [discriminate|].
      destruct (String.eqb_spec key ""); [discriminate|].
      repeat split; assumption.
    + intros (id' & key' & Hi & Hne & Hk & Hne').
      injection Hi as <-. injection Hk as <-.
      destruct (String.eqb_spec id ""); [contradiction|].
      destruct (String.eqb_spec key ""); [contradiction|reflexivity].
Qed.

Lemma hasValidToken_iff_witness :
  ComConfig.hasValidToken Sample.com_valid_access Sample.noon = true
  /\ ComConfig.hasValidToken Sample.com_valid_access 1699990000000 = true.
Proof.
  assert (H : ComConfig.hasValidToken Sample.com_valid_access Sample.noon
              = true).
  { apply (proj1 (hasValidToken_iff Sample.com_valid_access Sample.noon
                    eq_refl)).
    exists "tok1", 1700003600000.
    split; [reflexivity|]. split; [discriminate|]. split; [reflexivity|].
    vm_compute. reflexivity. }
  split; [exact H|].
  apply (proj1 (proj2 (proj2 (hasValidToken_iff Sample.com_valid_access
                                Sample.noon eq_refl)))
           1699990000000); [vm_compute; discriminate|exact H].
Defined.

End ComValidity.

(** ** The commands of the [nordigencom] client *)

Section ComCommands.
Import Js.
Import ComApi.
Import ComCli.

(** X18.  [config set], on a stored document that the schema admits, stores
    each credential that is given and not empty and leaves everything else
    as it was: a credential that is left out, or given as the empty string,
    keeps its stored value, so that the command cannot remove a credential.
    Once both are given the client counts as configured.  With neither given
    the command changes nothing and says so on the error stream.  It sends
    nothing. *)
Theorem config_set_stores_what_is_given (options : SetOptions) (w : World) :
  ComConfig.schema (Eff.conf w) = true ->
  exists lines w',
    config_set_action options w = (Eff.Returned lines, w')
    /\ Eff.clock w' = Eff.clock w
    /\ Eff.sent w' = Eff.sent w
    /\ ComConfig.getConfig (Eff.conf w') "secretId"
       = (if given (secretId options)
          then option_map VStr (secretId options)
          else ComConfig.getConfig (Eff.conf w) "secretId")
    /\ ComConfig.getConfig (Eff.conf w') "secretKey"
       = (if given (secretKey options)
          then option_map VStr (secretKey options)
          else ComConfig.getConfig (Eff.conf w) "secretKey")
    /\ (forall k, k <> "secretId" -> k <> "secretKey" ->
                  ComConfig.getConfig (Eff.conf w') k
                  = ComConfig.getConfig (Eff.conf w) k)
    /\ (given (secretId options) = true ->
        given (secretKey options) = true ->
        ComConfig.isConfigured (Eff.conf w') = true)
    /\ (given (secretId options) = false ->
        given (secretKey options) = false ->
        w' = w
        /\ lines
           = printError "No options provided. Use --secret-id or --secret-key").
Proof.
  intros _. destruct options as [id key]. cbn [secretId secretKey].
  unfold config_set_action. cbn [secretId secretKey].
  destruct w as [s t calls].
  destruct id as [id|]; destruct key as [key|];
    try destruct (given (Some id)) eqn:Gi;
    try destruct (given (Some key)) eqn:Gk;
    (eexists; eexists; split; [reflexivity|]);
    cbn [Eff.conf Eff.clock Eff.sent option_map];
    (split; [reflexivity|]); (split; [reflexivity|]);
    repeat split;
    try discriminate;
    try reflexivity;
    repeat first
      [ rewrite getConfig_set_same
      | rewrite getConfig_set_other by congruence ];
    try reflexivity;
    try (intros k H1 H2;
         repeat rewrite getConfig_set_other by congruence; reflexivity).
  intros _ _. unfold ComConfig.isConfigured.
  rewrite getConfig_set_same.
  rewrite getConfig_set_other by discriminate. rewrite getConfig_set_same.
  unfold given in Gi, Gk. cbn [option_map] in Gi, Gk. now rewrite Gi, Gk.
Qed.

Lemma config_set_stores_what_is_given_witness :
  exists lines w',
    config_set_action (mkSetOptions (Some "A") None)
      (Sample.com_world ComConfig.defaults)
    = (Eff.Returned lines, w')
    /\ ComConfig.getConfig (Eff.conf w') "secretId" = Some (VStr "A")
    /\ ComConfig.isConfigured (Eff.conf w') = false.
Proof.
  destruct (config_set_stores_what_is_given (mkSetOptions (Some "A") None)
              (Sample.com_world ComConfig.defaults) eq_refl)
    as (lines & w' & Hrun & _ & _ & Hid & Hkey & _).
  exists lines, w'. split; [exact Hrun|]. split; [exact Hid|].
  unfold ComConfig.isConfigured. rewrite Hid, Hkey. reflexivity.
Defined.

(** X19.  [auth status] reports "Authenticated" and ends normally exactly
    when an access token that is not empty is stored and its expiry is later
    than now; otherwise it exits with code 1.  It allows no margin: whenever
    [hasValidToken()] holds it reports "Authenticated", and during the last
    sixty seconds of a token it still does, although [hasValidToken()] is
    false already and the next request will fetch a new token.  It changes
    nothing and sends nothing. *)
Theorem auth_status_has_no_margin (toLocaleString : Z -> string) (w : World) :
  ComConfig.schema (Eff.conf w) = true ->
  exists run,
    auth_status_action toLocaleString w = (Eff.Returned run, w)
    /\ (exit_code run = None \/ exit_code run = Some 1)
    /\ (exit_code run = None
        <-> exists token expiry,
              ComConfig.getConfig (Eff.conf w) "accessToken"
              = Some (VStr token)
              /\ token <> ""
              /\ ComConfig.getConfig (Eff.conf w) "tokenExpiry"
                 = Some (VNum expiry)
              /\ expiry > Eff.clock w)
    /\ (exit_code run = None ->
        printed run
        = (printSuccess "Authenticated with Nordigen"
           ++ [Out ("Token expires: "
                    ++ match ComConfig.getConfig (Eff.conf w) "tokenExpiry" with
                       | Some (VNum e) => toLocaleString e
                       | _ => "Invalid Date"
                       end)])%list)
    /\ (ComConfig.hasValidToken (Eff.conf w) (Eff.clock w) = true ->
        exit_code run = None)
    /\ (forall token expiry,
           ComConfig.getConfig (Eff.conf w) "accessToken" = Some (VStr token) ->
           token <> "" ->
           ComConfig.getConfig (Eff.conf w) "tokenExpiry"
           = Some (VNum expiry) ->
           Eff.clock w < expiry <= Eff.clock w + 60000 ->
           exit_code run = None
           /\ ComConfig.hasValidToken (Eff.conf w) (Eff.clock w) = false).
Proof.
  intros Hschema.
  destruct (com_schema_members _ Hschema)
    as (_ & _ & (token & Htok) & _ & (expiry & Hexp)).
  unfold auth_status_action, ComApi.getConfig, Eff.bind, Eff.read,
    Eff.date_now, ComConfig.hasValidToken.
  rewrite Htok, Hexp. cbn [truthy LibConfig.later_than].
  destruct (String.eqb_spec token "") as [->|Hne]; cbn [negb].
  - eexists. split; [reflexivity|]. cbn [exit_code printed].
    split; [now right|]. split; [|split; [discriminate|split; [discriminate|]]].
    + split; [discriminate|].
      intros (token' & expiry' & Ht & Hne & _). congruence.
    + intros token' expiry' Ht Hne. congruence.
  - destruct (Z.ltb_spec (Eff.clock w) expiry) as [Hlt|Hge].
    + eexists. split; [reflexivity|]. cbn [exit_code printed].
      split; [now left|]. split; [|split; [reflexivity|split; [reflexivity|]]].
      * split; [|reflexivity]. intros _. exists token, expiry.
        repeat split; try assumption. lia.
      * intros token' expiry' _ _ He Hwin. injection He as <-.
        split; [reflexivity|]. apply Z.ltb_ge. lia.
    + eexists. split; [reflexivity|]. cbn [exit_code printed].
      split; [now right|]. split; [|split; [discriminate|split]].
      * split; [discriminate|].
        intros (token' & expiry' & _ & _ & He & Hgt). injection He as <-. lia.
      * intros H. apply Z.ltb_lt in H. lia.
      * intros token' expiry' _ _ He Hwin. injection He as <-. lia.
Qed.

Lemma auth_status_has_no_margin_witness :
  exists run,
    auth_status_action (fun _ => "11/14/2023, 11:13:20 PM")
      (Eff.mkWorld Sample.com_valid_access 1700003590000 [])
    = (Eff.Returned run, Eff.mkWorld Sample.com_valid_access 1700003590000 [])
    /\ exit_code run = None
    /\ ComConfig.hasValidToken Sample.com_valid_access 1700003590000 = false.
Proof.
  destruct (auth_status_has_no_margin (fun _ => "11/14/2023, 11:13:20 PM")
              (Eff.mkWorld Sample.com_valid_access 1700003590000 []) eq_refl)
    as (run & Hrun & _ & _ & _ & _ & Hwindow).
  exists run. split; [exact Hrun|].
  apply (Hwindow "tok1" 1700003600000); try reflexivity; try discriminate.
  cbn [Eff.clock]. lia.
Defined.

End ComCommands.

Section ComLogin.
Import Js.
Import ComApi.
Import ComCli.

Variable remote : Remote.

(** The request that [auth login] makes once a token is at hand. *)
Lemma login_call_is_no_token_call (token : jsval) :
  Wire.com_is_acquisition
    (request_config token "GET" "/institutions/" (Some VNull)
       (Some (VObj [("country", VStr "GB")]))) = false
  /\ Wire.com_is_refresh
       (request_config token "GET" "/institutions/" (Some VNull)
          (Some (VObj [("country", VStr "GB")]))) = false.
Proof. split; reflexivity. Qed.

(** X20.  [auth login] never throws.  Without credentials it exits with code
    1, sends nothing and changes nothing.  With credentials it asks for the
    institutions of GB and reports success exactly when that request
    succeeds; it does not fetch a token of its own accord: while the stored
    access token is valid, the one request it sends is the request for the
    institutions, with the stored token, and the stored document stays as it
    is. *)
Theorem auth_login_lists_institutions (w : World) :
  (exists run w', auth_login_action remote w = (Eff.Returned run, w'))
  /\ (ComConfig.isConfigured (Eff.conf w) = false ->
      exists run,
        auth_login_action remote w = (Eff.Returned run, w)
        /\ exit_code run = Some 1)
  /\ (ComConfig.isConfigured (Eff.conf w) = true ->
      forall run w',
        auth_login_action remote w = (Eff.Returned run, w') ->
        w' = snd (listInstitutions remote (Some (VStr "GB")) w)
        /\ (exit_code run = None
            <-> exists v, fst (listInstitutions remote (Some (VStr "GB")) w)
                          = Eff.Returned v))
  /\ (ComConfig.isConfigured (Eff.conf w) = true ->
      ComConfig.hasValidToken (Eff.conf w) (Eff.clock w) = true ->
      let call :=
        request_config (ComConfig.getConfig (Eff.conf w) "accessToken")
          "GET" "/institutions/" (Some VNull)
          (Some (VObj [("country", VStr "GB")])) in
      snd (auth_login_action remote w) = Eff.settled remote call w
      /\ Wire.com_acquisitions (Eff.sent (snd (auth_login_action remote w)))
         = Wire.com_acquisitions (Eff.sent w)
      /\ Wire.com_refreshes (Eff.sent (snd (auth_login_action remote w)))
         = Wire.com_refreshes (Eff.sent w)).
Proof.
  assert (Hconfigured :
    ComConfig.isConfigured (Eff.conf w) = true ->
    auth_login_action remote w
    = match listInstitutions remote (Some (VStr "GB")) w with
      | (Eff.Returned _, w') =>
          (Eff.Returned
             (mkRun (printSuccess "Successfully authenticated with Nordigen")
                None), w')
      | (Eff.Thrown error, w') =>
          (Eff.Returned (mkRun (printError (message error)) (Some 1)), w')
      end).
  { intros Hc. unfold auth_login_action. unfold Eff.bind at 1.
    cbn [Eff.read]. rewrite Hc. cbn [negb].
    unfold Eff.try_catch, Eff.bind.
    destruct (listInstitutions remote (Some (VStr "GB")) w) as [[v|e] w'];
      reflexivity. }
  assert (Hnot :
    ComConfig.isConfigured (Eff.conf w) = false ->
    exists run,
      auth_login_action remote w = (Eff.Returned run, w)
      /\ exit_code run = Some 1).
  { intros Hc. unfold auth_login_action. unfold Eff.bind at 1.
    cbn [Eff.read]. rewrite Hc. cbn [negb].
    eexists. split; reflexivity. }
  split; [|split; [exact Hnot|split]].
  - destruct (ComConfig.isConfigured (Eff.conf w)) eqn:Hc.
    + rewrite (Hconfigured eq_refl).
      destruct (listInstitutions remote (Some (VStr "GB")) w) as [[v|e] w'];
        eexists; eexists; reflexivity.
    + destruct (Hnot eq_refl) as (run & Hrun & _). now exists run, w.
  - intros Hc run w'. rewrite (Hconfigured Hc).
    destruct (listInstitutions remote (Some (VStr "GB")) w) as [[v|e] w0];
      intros H; injection H as <- <-; cbn [fst snd exit_code].
    + split; [reflexivity|]. split; [now exists v|reflexivity].
    + split; [reflexivity|]. split; [discriminate|].
      intros (v & Hv). discriminate.
  - intros Hc Hvalid. cbv zeta.
    assert (Hw : snd (auth_login_action remote w)
                 = snd (listInstitutions remote (Some (VStr "GB")) w)).
    { rewrite (Hconfigured Hc).
      destruct (listInstitutions remote (Some (VStr "GB")) w) as [[v|e] w'];
        reflexivity. }
    rewrite Hw. unfold listInstitutions. cbv zeta. rewrite snd_bind_ret.
    cbn [truthy optional]. change (negb ("GB" =? "")%string) with true.
    cbv iota.
    rewrite (apiRequest_after_token remote _ _ _ _ _ w w
               (getAccessToken_valid remote w Hvalid)).
    split; [reflexivity|]. cbn [Eff.settled Eff.sent].
    rewrite acquisitions_snoc_com, refreshes_snoc_com.
    destruct (login_call_is_no_token_call
                (ComConfig.getConfig (Eff.conf w) "accessToken")) as (-> & ->).
    split; lia.
Qed.

End ComLogin.

Lemma auth_login_lists_institutions_witness :
  Eff.sent (snd (ComCli.auth_login_action Sample.com_granting
                   (Sample.com_world Sample.com_valid_access)))
  = [ComApi.mkCall "GET" "https://ob.nordigen.com/api/v2/institutions/"
       [("Authorization", "Bearer tok1"); ("Accept", "application/json");
        ("Content-Type", "application/json")]
       (Some (Js.VObj [("country", Js.VStr "GB")])) None].
Proof.
  rewrite (proj1 (proj2 (proj2 (proj2 (auth_login_lists_institutions
                                         Sample.com_granting
                                         (Sample.com_world
                                            Sample.com_valid_access))))
                    eq_refl eq_refl)).
  reflexivity.
Defined.

(** ** The table of the [nordigencom] client *)

Section Table.
Import Js.
Import ComApi.
Import ComCli.

Lemma length_spaces (n : nat) : String.length (Output.spaces n) = n.
Proof. induction n as [|n IH]; simpl; [reflexivity|now rewrite IH]. Qed.

Lemma length_padEnd (s : string) (w : nat) :
  String.length (Output.padEnd s w) = Nat.max (String.length s) w.
Proof.
  unfold Output.padEnd. rewrite length_append, length_spaces. lia.
Qed.

Lemma length_join_lengths (sep : string) (xs ys : list string) :
  map String.length xs = map String.length ys ->
  String.length (join sep xs) = String.length (join sep ys).
Proof.
  revert ys. induction xs as [|x xs IH]; intros [|y ys] H;
    try discriminate; [reflexivity|].
  cbn [map] in H. injection H as Hx Hrest.
  destruct xs as [|x' xs]; destruct ys as [|y' ys]; try discriminate.
  - exact Hx.
  - change (join sep (x :: x' :: xs)) with (x ++ sep ++ join sep (x' :: xs)).
    change (join sep (y :: y' :: ys)) with (y ++ sep ++ join sep (y' :: ys)).
    rewrite !length_append, Hx. f_equal. f_equal.
    now apply IH.
Qed.

Lemma length_join_bound (sep : string) (xs : list string) :
  (String.length (join sep xs)
   <= list_sum (map (fun x => String.length x + String.length sep) xs))%nat.
Proof.
  induction xs as [|x xs IH]; [apply Nat.le_refl|].
  destruct xs as [|x' xs].
  - simpl. lia.
  - change (join sep (x :: x' :: xs)) with (x ++ sep ++ join sep (x' :: xs)).
    unfold list_sum in *. cbn [map fold_right] in *.
    rewrite !length_append. lia.
Qed.

Lemma width_of_set_same (k : string) (n : nat) (widths : list (string * nat)) :
  width_of k (set_width k n widths) = n.
Proof.
  induction widths as [|[k' m] rest IH]; simpl.
  - now rewrite String.eqb_refl.
  - destruct (k =? k')%string eqn:E; simpl.
    + now rewrite String.eqb_refl.
    + now rewrite E.
Qed.

Lemma width_of_set_other (k k' : string) (n : nat)
  (widths : list (string * nat)) :
  k <> k' -> width_of k' (set_width k n widths) = width_of k' widths.
Proof.
  intros Hne. induction widths as [|[k0 m] rest IH]; simpl.
  - destruct (String.eqb_spec k' k); [congruence|reflexivity].
  - destruct (String.eqb_spec k k0) as [->|Hk]; simpl.
    + destruct (String.eqb_spec k' k0); [congruence|reflexivity].
    + destruct (String.eqb_spec k' k0); [reflexivity|exact IH].
Qed.

Lemma widest_cells (col : Column) (rows : list value) (start width : nat) :
  widest col rows start = inr width ->
  (start <= width)%nat
  /\ forall row, In row rows -> exists val, cell col row = inr val.
Proof.
  revert start. induction rows as [|row rest IH]; intros start H.
  - injection H as <-. split; [apply Nat.le_refl|]. intros row [].
  - cbn [widest] in H. destruct (cell col row) as [e|val] eqn:E;
      [discriminate|].
    destruct (IH _ H) as (Hle & Hcells). split.
    + destruct (Nat.ltb_spec start (String.length val)); lia.
    + intros row' [<-|Hin]; [now exists val|now apply Hcells].
Qed.

Lemma measure_widths (columns : list Column) (rows : list value)
  (acc widths : list (string * nat)) :
  measure columns rows acc = inr widths ->
  (forall col row, In col columns -> In row rows ->
                   exists val, cell col row = inr val)
  /\ ((forall k, width_of k acc <= 50)%nat ->
      forall k, (width_of k widths <= 50)%nat)
  /\ (NoDup (map key columns) ->
      (forall col, In col columns ->
                   (String.length (label col) <= 50)%nat ->
                   (String.length (label col)
                    <= width_of (key col) widths)%nat)
      /\ (forall k, ~ In k (map key columns) ->
                    width_of k widths = width_of k acc)).
Proof.
  revert acc. induction columns as [|col rest IH]; intros acc H.
  - injection H as <-. split; [intros col row []|].
    split; [auto|]. intros _. split; [intros col []|reflexivity].
  - cbn [measure] in H.
    destruct (widest col rows (String.length (label col))) as [e|m] eqn:E;
      [discriminate|].
    destruct (widest_cells _ _ _ _ E) as (Hle & Hcells).
    destruct (IH _ H) as (IHcells & IHbound & IHwidths).
    split; [|split].
    + intros col' row [<-|Hin] Hrow; [now apply Hcells|now apply IHcells].
    + intros Hacc. apply IHbound. intros k.
      destruct (String.eqb_spec (key col) k) as [<-|Hne].
      * rewrite width_of_set_same. lia.
      * rewrite width_of_set_other by assumption. apply Hacc.
    + intros Hnodup. cbn [map] in Hnodup.
      inversion Hnodup as [|? ? Hfresh Hrest]; subst.
      destruct (IHwidths Hrest) as (Hlabels & Hothers).
      split.
      * intros col' [<-|Hin] Hshort; [|now apply Hlabels].
        rewrite (Hothers _ Hfresh), width_of_set_same. lia.
      * intros k Hk. cbn [map In] in Hk.
        rewrite Hothers by tauto.
        apply width_of_set_other. tauto.
Qed.

Lemma cells_of_lengths (columns : list Column) (widths : list (string * nat))
  (row : value) :
  (forall col, In col columns -> exists val, cell col row = inr val) ->
  exists cells,
    cells_of columns widths row = inr cells
    /\ map String.length cells
       = map (fun col => width_of (key col) widths) columns.
Proof.
  induction columns as [|col rest IH]; intros Hcells.
  - exists []. split; reflexivity.
  - destruct (Hcells col (or_introl eq_refl)) as (val & Hval).
    destruct IH as (cells & Hrest & Hlen).
    { intros col' Hin. apply Hcells. now right. }
    cbn [cells_of]. rewrite Hval, Hrest. eexists. split; [reflexivity|].
    cbn [map]. rewrite Hlen. f_equal.
    rewrite length_padEnd, length_substring0. lia.
Qed.

Lemma print_rows_lengths (columns : list Column)
  (widths : list (string * nat)) (rows : list value) :
  (forall col row, In col columns -> In row rows ->
                   exists val, cell col row = inr val) ->
  exists body,
    print_rows columns widths rows = (map Out body, None)
    /\ length body = length rows
    /\ forall line, In line body ->
         exists cells,
           line = join "  " cells
           /\ map String.length cells
              = map (fun col => width_of (key col) widths) columns.
Proof.
  induction rows as [|row rest IH]; intros Hcells.
  - exists []. repeat split. intros line [].
  - destruct (cells_of_lengths columns widths row) as (cells & Hrow & Hlen).
    { intros col Hin. apply Hcells; [exact Hin|now left]. }
    destruct IH as (body & Hrest & Hcount & Hlines).
    { intros col row' Hc Hr. apply Hcells; [exact Hc|now right]. }
    exists (join "  " cells :: body). cbn [print_rows]. rewrite Hrow, Hrest.
    split; [reflexivity|]. split; [simpl; now rewrite Hcount|].
    intros line [<-|Hin]; [now exists cells|now apply Hlines].
Qed.

(** X21.  [printTable], for rows that are objects or null, columns whose
    keys name no member that every object inherits, and text in ASCII,
    prints a table completely or not at all: when it throws for a list of
    rows, it has printed nothing.  Falsy data and the empty list give the
    single line "No results found.".  For a list of rows it prints a
    heading, a rule as long as the heading, one line per row and the number
    of results.  The lines of the rows are all of the same length, at most
    52 characters for each column; and when no two columns share a key and
    no label is longer than 50 characters, they are as long as the heading,
    so that the columns line up. *)
Theorem printTable_aligned (columns : list Column) :
  forallb (fun col => own_key (key col)) columns = true ->
  (forall data,
      truthy data = false \/ data = Some (VArr []) ->
      printTable data columns = ([Out "No results found."], None))
  /\ (forall rows,
         forallb is_record rows = true ->
         (exists e, printTable (Some (VArr rows)) columns = ([], Some e))
         \/ (exists lines, printTable (Some (VArr rows)) columns = (lines, None)))
  /\ (forall rows lines,
         forallb is_record rows = true ->
         rows <> [] ->
         printTable (Some (VArr rows)) columns = (lines, None) ->
         exists header body,
           lines
           = (Out header
              :: Out (repeat_string dash (String.length header))
              :: map Out body
              ++ [Out (newline ++ dec (Z.of_nat (length rows))
                         ++ " result(s)")])%list
           /\ length body = length rows
           /\ (forall a b, In a body -> In b body ->
                           String.length a = String.length b)
           /\ (forall line, In line body ->
                            (String.length line <= 52 * length columns)%nat)
           /\ (NoDup (map key columns) ->
               (forall col, In col columns ->
                            (String.length (label col) <= 50)%nat) ->
               forall line, In line body ->
                            String.length line = String.length header)).
Proof.
  assert (Hrun : forall row rest,
    printTable (Some (VArr (row :: rest))) columns
    = match measure columns (row :: rest) [] with
      | inl e => ([], Some e)
      | inr widths =>
          let header := header_of columns widths in
          let top := [Out header;
                      Out (repeat_string dash (String.length header))] in
          match print_rows columns widths (row :: rest) with
          | (lines, Some e) => (top ++ lines, Some e)%list
          | (lines, None) =>
              (top ++ lines
               ++ [Out (newline ++ dec (Z.of_nat (length (row :: rest)))
                          ++ " result(s)")],
               None)%list
          end
      end) by reflexivity.
  intros _. split; [|split].
  - intros data [Hfalsy| ->]; unfold printTable.
    + now rewrite Hfalsy.
    + reflexivity.
  - intros [|row rest] _; [right; eexists; reflexivity|].
    rewrite Hrun.
    destruct (measure columns (row :: rest) []) as [e|widths] eqn:E.
    + left. now exists e.
    + destruct (measure_widths _ _ _ _ E) as (Hcells & _).
      destruct (print_rows_lengths columns widths (row :: rest) Hcells)
        as (body & -> & _).
      right. eexists. reflexivity.
  - intros [|row rest] lines _ Hne Hprinted; [contradiction|].
    rewrite Hrun in Hprinted.
    destruct (measure columns (row :: rest) []) as [e|widths] eqn:E;
      [discriminate|].
    destruct (measure_widths _ _ _ _ E) as (Hcells & Hbound & Hwidths).
    destruct (print_rows_lengths columns widths (row :: rest) Hcells)
      as (body & Hbody & Hcount & Hlines).
    cbv zeta in Hprinted. rewrite Hbody in Hprinted.
    injection Hprinted as <-.
    exists (header_of columns widths), body.
    split; [reflexivity|]. split; [exact Hcount|].
    split; [|split].
    + intros a b Ha Hb.
      destruct (Hlines a Ha) as (ca & -> & Hla).
      destruct (Hlines b Hb) as (cb & -> & Hlb).
      apply length_join_lengths. congruence.
    + intros line Hin. destruct (Hlines line Hin) as (cells & -> & Hl).
      eapply Nat.le_trans; [apply length_join_bound|].
      assert (Hw : forall k, (width_of k widths <= 50)%nat).
      { apply Hbound. intros k. simpl. lia. }
      assert (Hsum : forall (cs : list string) (cols : list Column),
                 map String.length cs
                 = map (fun col => width_of (key col) widths) cols ->
                 (list_sum (map (fun x => String.length x
                                          + String.length "  ") cs)
                  <= 52 * length cols)%nat).
      { clear -Hw. induction cs as [|c cs IH]; intros [|col cols] H;
          try discriminate; [simpl; lia|].
        cbn [map] in H. injection H as Hc Hrest.
        specialize (IH _ Hrest). specialize (Hw (key col)).
        unfold list_sum in *. cbn [map fold_right length].
        change (String.length "  ") with 2%nat in *. lia. }
      now apply Hsum.
    + intros Hnodup Hshort line Hin.
      destruct (Hlines line Hin) as (cells & -> & Hl).
      unfold header_of. apply length_join_lengths.
      rewrite Hl, map_map. apply map_ext_in. intros col Hcol.
      rewrite length_padEnd.
      pose proof (proj1 (Hwidths Hnodup) col Hcol (Hshort col Hcol)). lia.
Qed.

End Table.

Lemma printTable_aligned_witness :
  exists header body,
    fst (ComCli.printTable (Some (Js.VArr Sample.institutions)) Sample.columns)
    = (ComCli.Out header
       :: ComCli.Out (ComCli.repeat_string ComCli.dash (String.length header))
       :: map ComCli.Out body
       ++ [ComCli.Out (Js.newline ++ "3 result(s)")])%list
    /\ forall line, In line body -> String.length line = String.length header.
Proof.
  destruct (proj2 (proj2 (printTable_aligned Sample.columns eq_refl))
              Sample.institutions
              (fst (ComCli.printTable (Some (Js.VArr Sample.institutions))
                      Sample.columns))
              eq_refl ltac:(discriminate) eq_refl)
    as (header & body & Hlines & _ & _ & _ & Haligned).
  exists header, body. split; [exact Hlines|].
  apply Haligned.
  - repeat constructor; simpl; intuition discriminate.
  - intros col Hin. simpl in Hin.
    repeat (destruct Hin as [<-|Hin]; [simpl; lia|]). contradiction.
Defined.

(** The institutions of the sample, as the table shows them. *)
Example test_printTable :
  ComCli.printTable (Some (Js.VArr Sample.institutions)) Sample.columns
  = ([ComCli.Out
        "ID                    Name               BIC       Transaction Days";
      ComCli.Out (ComCli.repeat_string ComCli.dash 67);
      ComCli.Out
        "BARCLAYS_BUKBGB22     Barclays Personal  BUKBGB22                  ";
      ComCli.Out
        "REVOLUT_REVOGB21      Revolut            REVOGB21                  ";
      ComCli.Out
        "BARCLAYCARD_BUKBGB22  Barclaycard UK     BUKBGB22                  ";
      ComCli.Out (Js.newline ++ "3 result(s)")],
     None).
Proof. reflexivity. Qed.

(** ** What [auth status] shows *)

Section StatusCommand.
Import Js.
Import Output.

Lemma formatDuration_minutes (seconds : Z) :
  60 < seconds ->
  exists n unit,
    In unit ["minute"; "hour"; "day"] /\ 1 <= n
    /\ formatDuration seconds = dec n ++ " " ++ unit ++ plural n.
Proof.
  intros Hlong. unfold formatDuration.
  destruct (Z.ltb_spec seconds 60); [lia|].
  destruct (Z.ltb_spec seconds 3600).
  { exists (seconds / 60), "minute". cbv zeta.
    pose proof (div_bounds seconds 60 ltac:(lia)).
    repeat split; simpl; auto; lia. }
  destruct (Z.ltb_spec seconds 86400).
  { exists (seconds / 3600), "hour". cbv zeta.
    pose proof (div_bounds seconds 3600 ltac:(lia)).
    repeat split; simpl; auto; lia. }
  exists (seconds / 86400), "day". cbv zeta.
  pose proof (div_bounds seconds 86400 ltac:(lia)).
  repeat split; simpl; auto; lia.
Qed.

Lemma valid_remaining (token expires : jsval) (now : Z) :
  (if negb (truthy token) || negb (truthy expires) then false
   else LibConfig.later_than expires (now + 60)) = true ->
  exists e, expires = Some (VNum e) /\ 60 < e - now
            /\ LibAuth.expires_in expires now = e - now.
Proof.
  unfold LibAuth.expires_in.
  destruct (truthy token); [|discriminate].
  destruct (truthy expires); [|discriminate]. cbn [negb orb].
  destruct expires as [[| | e | | |]|]; simpl; try discriminate.
  intros H. apply Z.ltb_lt in H. exists e.
  split; [reflexivity|]. split; lia.
Qed.

(** X22.  [auth status] never fails and changes nothing.  It reports "Not
    Authenticated" exactly when [isAuthenticated()] is false.  It shows the
    time that a token has left exactly when it reports the token as valid,
    and the time shown is then that between now and the stored expiry, which
    is more than sixty seconds: it is shown in whole minutes, hours or days,
    never in seconds. *)
Theorem auth_status_shows_no_seconds (w : LibApi.World) :
  LibConfig.schema (Eff.conf w) = true ->
  let s := Eff.conf w in
  let now := LibConfig.seconds (Eff.clock w) in
  let row (label text : string) := padEnd label 20 ++ " " ++ text in
  let shown (valid : bool) (label expiry : string) (lines : list string) :=
    (valid = true ->
     exists e n unit,
       Conf.get s ["auth"; expiry] = Some (VNum e)
       /\ 60 < e - now
       /\ In (row label (formatDuration (e - now))) lines
       /\ In unit ["minute"; "hour"; "day"] /\ 1 <= n
       /\ formatDuration (e - now) = dec n ++ " " ++ unit ++ plural n)
    /\ (valid = false -> forall text, ~ In (row label text) lines) in
  exists lines,
    CmdAuth.status_action w = (Eff.Returned (mkRun lines [] None), w)
    /\ (fst (LibAuth.isAuthenticated w) = Eff.Returned false
        <-> In (row "Status" "Not Authenticated") lines)
    /\ shown (LibConfig.isAccessTokenValid s (Eff.clock w))
         "Access Expires In" "access_expires" lines
    /\ shown (LibConfig.isRefreshTokenValid s (Eff.clock w))
         "Refresh Expires In" "refresh_expires" lines.
Proof.
  intros _. cbv zeta.
  unfold CmdAuth.status_action, Eff.try_catch, Eff.bind.
  pose proof (getAuthStatus_run w) as Hrun. cbv zeta in Hrun. rewrite Hrun.
  cbn [Eff.ret]. eexists. split; [reflexivity|].
  rewrite isAuthenticated_run. cbn [fst].
  unfold CmdAuth.status_lines.
  cbn [LibAuth.authenticated LibAuth.accessTokenValid LibAuth.refreshTokenValid
       LibAuth.accessExpiresIn LibAuth.refreshExpiresIn].
  assert (Ha := valid_remaining
                  (Conf.get (Eff.conf w) ["auth"; "access_token"])
                  (Conf.get (Eff.conf w) ["auth"; "access_expires"])
                  (LibConfig.seconds (Eff.clock w))).
  assert (Hr := valid_remaining
                  (Conf.get (Eff.conf w) ["auth"; "refresh_token"])
                  (Conf.get (Eff.conf w) ["auth"; "refresh_expires"])
                  (LibConfig.seconds (Eff.clock w))).
  fold (LibConfig.isAccessTokenValid (Eff.conf w) (Eff.clock w)) in Ha.
  fold (LibConfig.isRefreshTokenValid (Eff.conf w) (Eff.clock w)) in Hr.
  destruct (LibConfig.isAccessTokenValid (Eff.conf w) (Eff.clock w));
    [destruct (Ha eq_refl) as (ea & Hea & Hla & ->)|clear Ha];
    (destruct (LibConfig.isRefreshTokenValid (Eff.conf w) (Eff.clock w));
     [destruct (Hr eq_refl) as (er & Her & Hlr & ->)|clear Hr]);
    cbn [orb app printSection printRow padEnd spaces String.length Nat.sub
         append show toString chalk CmdAuth.validity];
    repeat match goal with
           | |- _ /\ _ => split
           | |- _ <-> _ => split
           | |- true = false -> _ => intros H; discriminate H
           | |- false = true -> _ => intros H; discriminate H
           | |- Eff.Returned true = Eff.Returned false -> _ =>
               intros H; discriminate H
           | |- _ = _ -> forall text, ~ In _ _ =>
               intros _ text H; cbn [In] in H;
               repeat (destruct H as [H|H]; [discriminate H|]);
               contradiction H
           | |- In _ _ -> _ =>
               intros H; cbn [In] in H;
               repeat (destruct H as [H|H]; [discriminate H|]);
               contradiction H
           | |- true = true -> exists e n unit,
                  Conf.get _ ["auth"; "access_expires"] = _ /\ _ =>
               intros _; exists ea;
               destruct (formatDuration_minutes _ Hla) as (n & unit & Hu & Hn & Hf);
               exists n, unit; repeat split; try assumption;
               cbn [In]; repeat (first [left; reflexivity|right])
           | |- true = true -> exists e n unit,
                  Conf.get _ ["auth"; "refresh_expires"] = _ /\ _ =>
               intros _; exists er;
               destruct (formatDuration_minutes _ Hlr) as (n & unit & Hu & Hn & Hf);
               exists n, unit; repeat split; try assumption;
               cbn [In]; repeat (first [left; reflexivity|right])
           | |- _ -> In _ _ => intros _; cbn [In]; repeat (first [left; reflexivity|right])
           | |- _ -> ?x = ?x => intros _; reflexivity
           end.
Qed.

Lemma auth_status_shows_no_seconds_witness :
  exists lines,
    CmdAuth.status_action (Sample.lib_world Sample.store_full)
    = (Eff.Returned (mkRun lines [] None), Sample.lib_world Sample.store_full)
    /\ In "Access Expires In    1 hour" lines
    /\ In "Refresh Expires In   30 days" lines.
Proof.
  pose proof (auth_status_shows_no_seconds
                (Sample.lib_world Sample.store_full) eq_refl) as H.
  cbv zeta in H.
  destruct H as (lines & Hrun & _ & (Haccess & _) & (Hrefresh & _)).
  destruct (Haccess eq_refl) as (ea & _ & _ & Hea & _ & Hina & _).
  destruct (Hrefresh eq_refl) as (er & _ & _ & Her & _ & Hinr & _).
  vm_compute in Hea, Her. injection Hea as <-. injection Her as <-.
  exists lines. split; [exact Hrun|]. split; [exact Hina|exact Hinr].
Defined.

End StatusCommand.

(** ** Deleting asks first *)

Section Deleting.
Import Js.
Import LibApi.
Import Output.
Import CmdDeletion.

Variable remote : Remote.

Lemma action_unfold (c : Command) (id : string) (yes : bool) :
  exists noun Noun,
    action remote c id yes
    = confirm_and_delete remote noun Noun
        (fun remote api id =>
           delete remote api (collection c ++ id ++ "/") no_options)
        id yes.
Proof.
  destruct c; do 2 eexists; reflexivity.
Qed.

(** X23.  [agreements delete], [payments delete] and [requisitions delete]
    send nothing unless [--yes] is given: without it the command prints a
    warning, leaves the state as it is and exits with code 0, before it has
    so much as checked the tokens.  With [--yes] the command never throws
    and ends normally or with code 1.  When [ensureAuth] fails, it reports
    the error and exits with code 1, having sent no request of its own.
    When [ensureAuth] returns a token, the command sends one request more: a
    [DELETE] without a body for the identifier given, as the client that
    holds this token sends it; and it ends normally exactly when that
    request returns. *)
Theorem delete_needs_yes (c : Command) (id : string) (w : World) :
  (exists run,
      action remote c id false w = (Eff.Returned run, w)
      /\ exit_code run = Some 0 /\ complaints run = [])
  /\ (exists run w',
         action remote c id true w = (Eff.Returned run, w')
         /\ (exit_code run = None \/ exit_code run = Some 1))
  /\ (forall e w1,
         LibAuth.ensureAuth remote w = (Eff.Thrown e, w1) ->
         action remote c id true w
         = (Eff.Returned (mkRun [] (printError (message e)) (Some 1)), w1))
  /\ (forall t w1,
         LibAuth.ensureAuth remote w = (Eff.Returned t, w1) ->
         Resources.plain id = true ->
         let api := mkClient BASE_URL (js_or t (Some VNull)) in
         let call :=
           mkCall ("https://ob.nordigen.com" ++ collection c ++ id ++ "/")
             "DELETE" (request_headers api true) None in
         snd (action remote c id true w) = Eff.settled remote call w1
         /\ exists run,
              fst (action remote c id true w) = Eff.Returned run
              /\ (exit_code run = None
                  <-> exists v,
                        fst (request remote api "DELETE"
                               (collection c ++ id ++ "/") no_options w1)
                        = Eff.Returned v)).
Proof.
  destruct (action_unfold c id false) as (noun & Noun & Hno).
  destruct (action_unfold c id true) as (noun' & Noun' & Hyes).
  rewrite Hno, Hyes. clear Hno Hyes.
  unfold confirm_and_delete. cbn [negb].
  assert (Hthrown : forall e w1,
             LibAuth.ensureAuth remote w = (Eff.Thrown e, w1) ->
             Eff.try_catch
               (api <- LibCommands.authenticated_client remote ;;
                delete remote api (collection c ++ id ++ "/") no_options ;;;
                Eff.ret (mkRun (printSuccess (Noun' ++ " deleted successfully"))
                           [] None))%eff
               (fun error =>
                  Eff.ret (mkRun [] (printError (message error)) (Some 1))) w
             = (Eff.Returned (mkRun [] (printError (message e)) (Some 1)), w1)).
  { intros e w1 He. unfold Eff.try_catch.
    rewrite (bind_thrown _ _ _ _ _ (authenticated_client_thrown remote _ _ _ He)).
    reflexivity. }
  assert (Hreturned : forall t w1,
             LibAuth.ensureAuth remote w = (Eff.Returned t, w1) ->
             Eff.try_catch
               (api <- LibCommands.authenticated_client remote ;;
                delete remote api (collection c ++ id ++ "/") no_options ;;;
                Eff.ret (mkRun (printSuccess (Noun' ++ " deleted successfully"))
                           [] None))%eff
               (fun error =>
                  Eff.ret (mkRun [] (printError (message error)) (Some 1))) w
             = match request remote (mkClient BASE_URL (js_or t (Some VNull)))
                       "DELETE" (collection c ++ id ++ "/") no_options w1 with
               | (Eff.Returned _, w2) =>
                   (Eff.Returned
                      (mkRun (printSuccess (Noun' ++ " deleted successfully"))
                         [] None), w2)
               | (Eff.Thrown error, w2) =>
                   (Eff.Returned
                      (mkRun [] (printError (message error)) (Some 1)), w2)
               end).
  { intros t w1 Ht. unfold Eff.try_catch.
    rewrite (bind_returned _ _ _ _ _ (authenticated_client_run remote _ _ _ Ht)).
    unfold Eff.bind, delete.
    destruct (request remote _ "DELETE" _ no_options w1) as [[v|e] w2];
      reflexivity. }
  split; [|split; [|split]].
  - eexists. split; [reflexivity|]. split; reflexivity.
  - destruct (LibAuth.ensureAuth remote w) as [[t|e] w1] eqn:E.
    + rewrite (Hreturned t w1 eq_refl).
      destruct (request remote _ "DELETE" _ no_options w1) as [[v|e] w2];
        do 2 eexists; (split; [reflexivity|]); cbn [exit_code]; auto.
    + rewrite (Hthrown e w1 eq_refl). do 2 eexists.
      split; [reflexivity|]. cbn [exit_code]. auto.
  - exact Hthrown.
  - intros t w1 Ht _. cbv zeta. rewrite (Hreturned t w1 Ht).
    pose proof (request_world remote (mkClient BASE_URL (js_or t (Some VNull)))
                  "DELETE" (collection c ++ id ++ "/") no_options w1) as Hw.
    destruct (request remote _ "DELETE" _ no_options w1) as [[v|e] w2];
      cbn [fst snd] in *; (split; [exact Hw|]); eexists;
      (split; [reflexivity|]); cbn [exit_code]; split;
      first [ intros _; now exists v
            | reflexivity
            | discriminate
            | intros (v & Hv); discriminate Hv ].
Qed.

End Deleting.

Lemma delete_needs_yes_witness :
  Eff.sent
    (snd (CmdDeletion.action Sample.lib_granting CmdDeletion.AgreementsDelete
            "3fa85f64-5717-4562-b3fc-2c963f66afa6" true
            (Sample.lib_world Sample.store_full)))
  = [LibApi.mkCall
       "https://ob.nordigen.com/api/v2/agreements/enduser/3fa85f64-5717-4562-b3fc-2c963f66afa6/"
       "DELETE"
       [("Content-Type", "application/json"); ("Accept", "application/json");
        ("Authorization", "Bearer tok1")]
       None].
Proof.
  pose proof (proj2 (proj2 (proj2
                (delete_needs_yes Sample.lib_granting
                   CmdDeletion.AgreementsDelete
                   "3fa85f64-5717-4562-b3fc-2c963f66afa6"
                   (Sample.lib_world Sample.store_full))))
                (Some (Js.VStr "tok1")) (Sample.lib_world Sample.store_full)
                eq_refl eq_refl) as H.
  cbv zeta in H. destruct H as (Hsent & _).
  rewrite Hsent. reflexivity.
Defined.

(** ** Which transactions are asked for *)

Section Transactions.
Import Js.
Import LibApi.
Import Output.
Import CmdAccounts.

Variable remote : Remote.

Lemma given_some (o : option string) :
  given o = true <-> exists x, o = Some x /\ x <> "".
Proof.
  unfold given. destruct o as [x|]; cbn [option_map truthy].
  - destruct (String.eqb_spec x "") as [->|Hne]; cbn [negb].
    + split; [discriminate|]. intros (x & Hx & Hne). congruence.
    + split; [intros _; now exists x|reflexivity].
  - split; [discriminate|]. intros (x & Hx & _). discriminate.
Qed.

Lemma snd_bind_then {A B} (m : M A) (f : A -> B) (w : World) :
  snd (Eff.bind m (fun x => Eff.ret (f x)) w) = snd (m w).
Proof. unfold Eff.bind. destruct (m w) as [[a|e] w']; reflexivity. Qed.

Lemma country_before_dates (options : TransactionsOptions) (c : jsval) :
  spread [("country", c)] (transactions_params options)
  = ("country", c) :: transactions_params options.
Proof.
  unfold transactions_params.
  destruct (given (from options)); destruct (given (to options)); reflexivity.
Qed.

(** X24.  [accounts transactions <account-id>], for an identifier of
    letters, digits, [-] and [_].  The action never throws.  When
    [ensureAuth] fails, it asks for nothing, prints the message of the
    error on standard error and exits with code 1.  When [ensureAuth]
    returns a token, it asks once, as the client that holds this token:
    without [--premium] for [/accounts/<id>/transactions/] with the dates
    given, whatever [--country] says; with [--premium] and a country for
    [/accounts/premium/<id>/transactions/] with the country first and the
    dates after it; with [--premium] and no country it asks for nothing and
    exits with code 1, after [ensureAuth] has run.  A date that is left out
    or empty is not part of the query.  When the request fails, the action
    prints the message of its error and exits with code 1; when it returns
    and [--json] is given, the action prints the data as JSON and ends
    normally. *)
Theorem transactions_endpoint (listing : Listing) (accountId : string)
  (options : TransactionsOptions) (w : World) :
  Resources.plain accountId = true ->
  let dates := transactions_params options in
  let run := transactions_action listing remote accountId options in
  (exists r w', run w = (Eff.Returned r, w'))
  /\ (forall e w1,
         LibAuth.ensureAuth remote w = (Eff.Thrown e, w1) ->
         run w
         = (Eff.Returned (mkRun [] (printError (message e)) (Some 1)), w1))
  /\ (forall t w1,
         LibAuth.ensureAuth remote w = (Eff.Returned t, w1) ->
         let api := mkClient BASE_URL (js_or t (Some VNull)) in
         let asked (endpoint : string) (query : list (string * jsval)) :=
           snd (run w)
           = Eff.settled remote
               (outgoing api "GET" endpoint (with_query query)) w1
           /\ (forall e,
                  fst (request remote api "GET" endpoint (with_query query) w1)
                  = Eff.Thrown e ->
                  fst (run w)
                  = Eff.Returned
                      (mkRun [] (printError (message e)) (Some 1)))
           /\ (forall data,
                  fst (request remote api "GET" endpoint (with_query query) w1)
                  = Eff.Returned data ->
                  json options = true ->
                  fst (run w)
                  = Eff.Returned (mkRun (printJSON data) [] None)) in
         (premium options = false ->
          asked ("/api/v2/accounts/" ++ accountId ++ "/transactions/") dates)
         /\ (premium options = true ->
             given (country options) = false ->
             run w
             = (Eff.Returned
                  (mkRun []
                     (printError "Use --country <code> to specify country")
                     (Some 1)),
                w1))
         /\ (premium options = true ->
             forall c,
               country options = Some c -> c <> "" ->
               asked ("/api/v2/accounts/premium/" ++ accountId
                      ++ "/transactions/")
                     (("country", Some (VStr c)) :: dates)))
  /\ (forall other,
         premium options = false ->
         transactions_action listing remote accountId
           (mkTransactionsOptions (from options) (to options) false other
              (json options)) w
         = run w)
  /\ searchParams (Some dates)
     = ((match from options with
         | Some f => if (f =? "")%string then [] else [("date_from", f)]
         | None => []
         end)
        ++ (match to options with
            | Some t => if (t =? "")%string then [] else [("date_to", t)]
            | None => []
            end))%list.
Proof.
  intros _. cbv zeta.
  set (handler := fun error : Error =>
                    Eff.ret (mkRun [] (printError (message error)) (Some 1))
                    : M Run).
  set (show_data := fun data : value =>
                      (if json options
                       then Eff.ret (mkRun (printJSON data) [] None)
                       else
                         match listing data with
                         | (lines, None) => Eff.ret (mkRun lines [] None)
                         | (lines, Some error) =>
                             Eff.ret
                               (mkRun lines (printError (message error))
                                  (Some 1))
                         end) : M Run).
  assert (Hshow : forall data w0, exists r, show_data data w0 = (Eff.Returned r, w0)).
  { intros data w0. unfold show_data.
    destruct (json options); [eexists; reflexivity|].
    destruct (listing data) as [lines [error|]]; eexists; reflexivity. }
  assert (Hthrown : forall e w1,
             LibAuth.ensureAuth remote w = (Eff.Thrown e, w1) ->
             transactions_action listing remote accountId options w
             = (Eff.Returned (mkRun [] (printError (message e)) (Some 1)),
                w1)).
  { intros e w1 He. unfold transactions_action, Eff.try_catch.
    now rewrite (bind_thrown _ _ _ _ _
                   (authenticated_client_thrown remote _ _ _ He)). }
  assert (Hasked : forall (api : NordigenAPI) endpoint query w1,
             Eff.try_catch
               (data <- request remote api "GET" endpoint (with_query query) ;;
                show_data data)%eff handler w1
             = match request remote api "GET" endpoint (with_query query) w1
               with
               | (Eff.Returned data, w2) => show_data data w2
               | (Eff.Thrown e, w2) =>
                   (Eff.Returned
                      (mkRun [] (printError (message e)) (Some 1)), w2)
               end).
  { intros api endpoint query w1. unfold Eff.try_catch, Eff.bind.
    destruct (request remote api "GET" endpoint (with_query query) w1)
      as [[data|e] w2]; [|reflexivity].
    destruct (Hshow data w2) as (r & ->). reflexivity. }
  assert (Hreturned : forall t w1,
             LibAuth.ensureAuth remote w = (Eff.Returned t, w1) ->
             transactions_action listing remote accountId options w
             = (let api := mkClient BASE_URL (js_or t (Some VNull)) in
                if premium options then
                  if negb (given (country options)) then
                    (Eff.Returned
                       (mkRun []
                          (printError
                             "Use --country <code> to specify country")
                          (Some 1)), w1)
                  else
                    Eff.try_catch
                      (data <- request remote api "GET"
                                 ("/api/v2/accounts/premium/" ++ accountId
                                  ++ "/transactions/")
                                 (with_query
                                    (spread
                                       [("country",
                                         option_map VStr (country options))]
                                       (transactions_params options))) ;;
                       show_data data)%eff handler w1
                else
                  Eff.try_catch
                    (data <- request remote api "GET"
                               ("/api/v2/accounts/" ++ accountId
                                ++ "/transactions/")
                               (with_query (transactions_params options)) ;;
                     show_data data)%eff handler w1)).
  { intros t w1 Ht. unfold transactions_action, Eff.try_catch at 1.
    rewrite (bind_returned _ _ _ _ _
               (authenticated_client_run remote _ _ _ Ht)).
    cbv zeta. fold show_data.
    destruct (premium options); [destruct (negb (given (country options)))|];
      reflexivity. }
  assert (Hcase : forall (api : NordigenAPI) endpoint query w1,
             snd (Eff.try_catch
                    (data <- request remote api "GET" endpoint
                               (with_query query) ;;
                     show_data data)%eff handler w1)
             = Eff.settled remote
                 (outgoing api "GET" endpoint (with_query query)) w1
             /\ (forall e,
                    fst (request remote api "GET" endpoint (with_query query)
                           w1) = Eff.Thrown e ->
                    fst (Eff.try_catch
                           (data <- request remote api "GET" endpoint
                                      (with_query query) ;;
                            show_data data)%eff handler w1)
                    = Eff.Returned
                        (mkRun [] (printError (message e)) (Some 1)))
             /\ (forall data,
                    fst (request remote api "GET" endpoint (with_query query)
                           w1) = Eff.Returned data ->
                    json options = true ->
                    fst (Eff.try_catch
                           (data <- request remote api "GET" endpoint
                                      (with_query query) ;;
                            show_data data)%eff handler w1)
                    = Eff.Returned (mkRun (printJSON data) [] None))).
  { intros api endpoint query w1. rewrite Hasked.
    pose proof (request_world remote api "GET" endpoint (with_query query) w1)
      as Hw.
    destruct (request remote api "GET" endpoint (with_query query) w1)
      as [[data|e] w2]; cbn [fst snd] in *.
    - destruct (Hshow data w2) as (r & Hr). rewrite Hr. cbn [fst snd].
      split; [exact Hw|]. split; [discriminate|].
      intros data' Hd Hj. injection Hd as <-.
      unfold show_data in Hr. rewrite Hj in Hr. now injection Hr as <-.
    - split; [exact Hw|]. split; [|discriminate].
      intros e' He. now injection He as <-. }
  split; [|split; [exact Hthrown|split; [|split]]].
  - destruct (LibAuth.ensureAuth remote w) as [[t|e] w1] eqn:E.
    + rewrite (Hreturned t w1 eq_refl). cbv zeta.
      destruct (premium options);
        [destruct (negb (given (country options)));
           [do 2 eexists; reflexivity|]|];
        rewrite Hasked;
        destruct (request remote _ "GET" _ _ w1) as [[data|e] w2];
        try (destruct (Hshow data w2) as (r & ->));
        do 2 eexists; reflexivity.
    + rewrite (Hthrown e w1 eq_refl). do 2 eexists. reflexivity.
  - intros t w1 Ht. rewrite (Hreturned t w1 Ht). cbv zeta.
    split; [|split].
    + intros ->. apply Hcase.
    + intros -> ->. reflexivity.
    + intros -> c Hc Hne.
      assert (Hg : given (country options) = true)
        by (apply given_some; now exists c).
      rewrite Hg, Hc. cbn [negb option_map].
      rewrite country_before_dates. apply Hcase.
  - intros other Hp. unfold transactions_action.
    cbn [premium from to country json]. rewrite Hp. reflexivity.
  - unfold transactions_params, given.
    destruct (from options) as [f|]; destruct (to options) as [t|];
      cbn [option_map truthy];
      try destruct (f =? "")%string; try destruct (t =? "")%string;
      reflexivity.
Qed.

End Transactions.

Lemma transactions_endpoint_witness :
  Eff.sent
    (snd (CmdAccounts.transactions_action (fun _ => ([], None))
            Sample.lib_granting "3fa85f64-5717-4562-b3fc-2c963f66afa6"
            (CmdAccounts.mkTransactionsOptions (Some "2024-01-01")
               (Some "2024-01-31") false (Some "GB") true)
            (Sample.lib_world Sample.store_full)))
  = [LibApi.mkCall
       "https://ob.nordigen.com/api/v2/accounts/3fa85f64-5717-4562-b3fc-2c963f66afa6/transactions/?date_from=2024-01-01&date_to=2024-01-31"
       "GET"
       [("Content-Type", "application/json"); ("Accept", "application/json");
        ("Authorization", "Bearer tok1")]
       None].
Proof.
  pose proof (transactions_endpoint Sample.lib_granting (fun _ => ([], None))
                "3fa85f64-5717-4562-b3fc-2c963f66afa6"
                (CmdAccounts.mkTransactionsOptions (Some "2024-01-01")
                   (Some "2024-01-31") false (Some "GB") true)
                (Sample.lib_world Sample.store_full) eq_refl) as H.
  cbv zeta in H. destruct H as (_ & _ & H & _).
  destruct (H (Some (Js.VStr "tok1")) (Sample.lib_world Sample.store_full)
              eq_refl) as (Hasked & _).
  destruct (Hasked eq_refl) as (Hsent & _).
  rewrite Hsent. reflexivity.
Defined.

(** ** The default country *)

Section SetCountry.
Import Js.
Import Output.
Import CmdConfig.

Lemma upper_lower_char (c : ascii) : upper_char (lower_char c) = upper_char c.
Proof.
  unfold lower_char, upper_char.
  destruct ((65 <=? N_of_ascii c) && (N_of_ascii c <=? 90))%N eqn:E.
  - apply andb_prop in E. destruct E as [E1 E2].
    apply N.leb_le in E1, E2.
    rewrite N_ascii_embedding by lia.
    replace ((97 <=? N_of_ascii c + 32) && (N_of_ascii c + 32 <=? 122))%N
      with true by (symmetry; apply andb_true_intro; split; apply N.leb_le; lia).
    replace ((97 <=? N_of_ascii c) && (N_of_ascii c <=? 122))%N with false
      by (symmetry; apply andb_false_intro1; apply N.leb_gt; lia).
    replace (N_of_ascii c + 32 - 32)%N with (N_of_ascii c) by lia.
    apply ascii_N_embedding.
  - reflexivity.
Qed.

Lemma upper_lower (s : string) : toUpperCase (toLowerCase s) = toUpperCase s.
Proof.
  induction s as [|c s IH]; simpl; [reflexivity|].
  now rewrite upper_lower_char, IH.
Qed.

Lemma upper_empty (s : string) : toUpperCase s = "" <-> s = "".
Proof. destruct s; simpl; split; intros H; congruence. Qed.

(** X25.  [config set-country <code>], for a code in ASCII and a stored
    document that the schema admits, stores the code in upper case under
    [defaults.country] and nothing else: the document is still admitted,
    every member of [auth] and the default institution are as before, so
    that the validity of the tokens is as before.  The case of the code does
    not matter, setting the same country again changes nothing, and [config
    show] then shows the code in upper case, or "Not set" when the code was
    empty. *)
Theorem set_country_round_trip (code : string) (s : Conf.store) :
  LibConfig.schema s = true ->
  is_ascii code = true ->
  let s' := fst (set_country_action code s) in
  let shown := if (code =? "")%string then "Not set" else toUpperCase code in
  Conf.get s' ["defaults"; "country"] = Some (VStr (toUpperCase code))
  /\ LibConfig.schema s' = true
  /\ (forall k, Conf.get s' ["auth"; k] = Conf.get s ["auth"; k])
  /\ Conf.get s' ["defaults"; "institution_id"]
     = Conf.get s ["defaults"; "institution_id"]
  /\ (forall t,
         LibConfig.isAccessTokenValid s' t = LibConfig.isAccessTokenValid s t
         /\ LibConfig.isRefreshTokenValid s' t
            = LibConfig.isRefreshTokenValid s t)
  /\ set_country_action (toLowerCase code) s = set_country_action code s
  /\ fst (set_country_action code s') = s'
  /\ (forall secrets path,
         In (padEnd "  Country" 20 ++ " " ++ shown)
            (show_action (mkShowOptions false secrets) s' path)).
Proof.
  intros Hschema _. cbv zeta. unfold set_country_action, LibConfig.set.
  cbn [fst].
  set (s' := Conf.set s ["defaults"; "country"] (VStr (toUpperCase code))).
  assert (Hauth : forall k, Conf.get s' ["auth"; k] = Conf.get s ["auth"; k]).
  { intros k. apply get_set_other_top. discriminate. }
  assert (Hcountry : Conf.get s' ["defaults"; "country"]
                     = Some (VStr (toUpperCase code)))
    by apply get_set_same.
  assert (Hinst : Conf.get s' ["defaults"; "institution_id"]
                  = Conf.get s ["defaults"; "institution_id"])
    by (apply get_set_sibling; discriminate).
  assert (Hdefaults : exists ms, Conf.get s' ["defaults"] = Some (VObj ms)).
  { unfold s'. cbn [Conf.set Conf.get]. rewrite lookup_assign_same.
    eexists. reflexivity. }
  split; [exact Hcountry|]. split; [|split; [exact Hauth|split; [exact Hinst|]]].
  - apply schema_unfold in Hschema.
    destruct Hschema
      as ((ms & Hms) & H0 & H1 & H2 & H3 & H4 & H5 & H6 & H7 & H8 & H9).
    apply schema_unfold.
    split.
    { unfold s'. rewrite Hms. cbn [Conf.set]. eexists. reflexivity. }
    rewrite !Hauth, Hcountry, Hinst.
    destruct Hdefaults as (ds & ->).
    assert (Ha : Conf.get s' ["auth"] = Conf.get s ["auth"])
      by (apply get_set_other_top; discriminate).
    rewrite Ha. repeat split; assumption.
  - split; [|split; [|split]].
    + intros t. unfold LibConfig.isAccessTokenValid,
        LibConfig.isRefreshTokenValid. now rewrite !Hauth.
    + now rewrite upper_lower.
    + unfold s'. apply set_set_same2.
    + intros secrets path. unfold show_action. cbn [json].
      destruct Hdefaults as (ds & Hds). rewrite Hds.
      cbn [truthy]. unfold defaults_member. rewrite Hcountry.
      assert (Hshown :
        show (js_or (Some (VStr (toUpperCase code))) (Some NOT_SET))
        = (if (code =? "")%string then "Not set" else toUpperCase code)).
      { destruct (String.eqb_spec code "") as [->|Hne]; [reflexivity|].
        unfold js_or. rewrite truthy_nonempty; [reflexivity|].
        intros H. apply (proj1 (upper_empty code)) in H. contradiction. }
      repeat first
        [ apply in_or_app; left; unfold printRow; rewrite Hshown;
          left; reflexivity
        | apply in_or_app; right ].
Qed.

Lemma set_country_round_trip_witness :
  Conf.get (fst (set_country_action "de" Sample.store_full))
    ["defaults"; "country"] = Some (VStr "DE")
  /\ In "  Country            DE"
        (show_action (mkShowOptions false false)
           (fst (set_country_action "de" Sample.store_full))
           "/home/user/.config/nordigen-cli/config.json").
Proof.
  pose proof (set_country_round_trip "de" Sample.store_full eq_refl eq_refl)
    as H.
  cbv zeta in H. destruct H as (Hcountry & _ & _ & _ & _ & _ & _ & Hshown).
  split; [exact Hcountry|].
  exact (Hshown false "/home/user/.config/nordigen-cli/config.json").
Defined.

End SetCountry.

(** ** How long an obtained token is used ([nordigencom]) *)

Section ComReuse.
Import Js.
Import ComApi.

Variable remote : Remote.

(** X26.  When [obtainAccessToken] has obtained a grant, the stored token
    counts as valid at a time [t] exactly when the token is not empty and
    [t] is more than 60000 ms before the moment of saving plus the granted
    seconds.  A call made at such a time, whatever was sent in between,
    sends its one request with this token and asks for no other.  A grant of
    sixty seconds or less is never valid: each later call starts by asking
    for a token again. *)
Theorem short_grant_is_never_reused (w : World) (secretId secretKey : value)
  (r : AxiosResponse) (data : value) (a : string) (n : Z) :
  ComConfig.getConfig (Eff.conf w) "secretId" = Some secretId ->
  ComConfig.getConfig (Eff.conf w) "secretKey" = Some secretKey ->
  ComConfig.isConfigured (Eff.conf w) = true ->
  Eff.answer remote (Wire.com_token_new secretId secretKey) w = Resolved r ->
  response_data r = Some data ->
  member (Some data) "access" = Some (VStr a) ->
  member (Some data) "access_expires" = Some (VNum n) ->
  Wire.storable_refresh (member (Some data) "refresh") ->
  exists w',
    obtainAccessToken remote w = (Eff.Returned (Some (VStr a)), w')
    /\ ComConfig.getConfig (Eff.conf w') "tokenExpiry"
       = Some (VNum (Eff.clock w' + n * 1000))
    /\ (forall t,
           ComConfig.hasValidToken (Eff.conf w') t = true
           <-> a <> "" /\ t + 60000 < Eff.clock w' + n * 1000)
    /\ (n <= 60 ->
        forall t, Eff.clock w' <= t ->
                  ComConfig.hasValidToken (Eff.conf w') t = false)
    /\ (a <> "" ->
        forall (later : Remote) (method rest : string) (body params : jsval)
               (t : Z) (calls : list AxiosCall),
          t + 60000 < Eff.clock w' + n * 1000 ->
          let w2 := Eff.mkWorld (Eff.conf w') t calls in
          snd (apiRequest later method ("/" ++ rest) body params w2)
          = Eff.settled later
              (request_config (Some (VStr a)) method ("/" ++ rest) body params)
              w2).
Proof.
  intros Hid Hkey Hconf Hr Hd Ha Hn Hrf.
  rewrite (obtainAccessToken_configured remote w secretId secretKey
             Hid Hkey Hconf).
  rewrite (try_catch_returned _ _ _ _ _
             (acquire_and_save_success remote secretId secretKey w r data a n
                Hr Hd Ha Hn Hrf)).
  eexists. split; [reflexivity|]. cbv zeta. cbn [Eff.conf Eff.clock].
  set (w1 := Eff.settled remote (Wire.com_token_new secretId secretKey) w).
  set (expiry := Eff.clock w1 + n * 1000).
  destruct (com_saved_reads (Eff.conf w) a (member (Some data) "refresh")
              expiry) as (Htok & Hexp & _).
  cbv zeta in Htok, Hexp.
  set (s' := Wire.com_saved (Eff.conf w) a (member (Some data) "refresh")
               expiry) in *.
  assert (Hvalid : forall t,
             ComConfig.hasValidToken s' t = true
             <-> a <> "" /\ t + 60000 < expiry).
  { intros t. unfold ComConfig.hasValidToken. rewrite Htok, Hexp.
    cbn [truthy LibConfig.later_than].
    destruct (String.eqb_spec a "") as [->|Hne]; cbn [negb].
    - split; [discriminate|]. intros (H & _). congruence.
    - rewrite Z.ltb_lt. tauto. }
  split; [exact Hexp|]. split; [exact Hvalid|]. split.
  - intros Hshort t Ht.
    destruct (ComConfig.hasValidToken s' t) eqn:E; [|reflexivity].
    apply Hvalid in E. unfold expiry in E. lia.
  - intros Hne later method rest body params t calls Ht.
    assert (Hv : ComConfig.hasValidToken s' t = true)
      by (apply Hvalid; split; assumption).
    rewrite (apiRequest_after_token later method ("/" ++ rest) body params
               (ComConfig.getConfig s' "accessToken")
               (Eff.mkWorld s' t calls) (Eff.mkWorld s' t calls)
               (getAccessToken_valid later (Eff.mkWorld s' t calls) Hv)).
    now rewrite Htok.
Qed.

End ComReuse.

Lemma short_grant_is_never_reused_witness :
  exists w',
    ComApi.obtainAccessToken Sample.com_granting
      (Sample.com_world Sample.com_credentials_only)
    = (Eff.Returned (Some (Js.VStr "tok1")), w')
    /\ ComConfig.hasValidToken (Eff.conf w') (Eff.clock w') = true.
Proof.
  destruct (short_grant_is_never_reused Sample.com_granting
              (Sample.com_world Sample.com_credentials_only)
              (Js.VStr "A") (Js.VStr "B")
              (ComApi.mkResponse 200 (Some Sample.grant)) Sample.grant
              "tok1" 3600)
    as (w' & Hrun & _ & Hvalid & _); try reflexivity.
  { right. now exists "ref1". }
  exists w'. split; [exact Hrun|].
  apply Hvalid. split; [discriminate|lia].
Defined.
